(** * RBAC repository of the GNS3 server: a shallow embedding

    This development embeds [gns3server/db/repositories/rbac.py]
    (class [RbacRepository]) and states its access-control properties.

    - [Py] holds the Python built-ins the repository calls: [str.split],
      [str.join], [list.remove], f-string formatting of an integer and the
      [path] component of [urllib.parse.urlparse], with the checks that
      make [urlparse] raise.
    - [Models] holds the rows of the relations the queries read and write.
    - [Repo] is the state-and-exception monad of a repository call: the
      state is the database as seen through the session, the last committed
      database, the storage engine's clock, the debug log and the order in
      which the storage engine produces rows.
    - [RbacRepository] holds the methods, one definition per method;
      [RbacStore] holds its lookups and its create, update and delete
      methods.
    - [ProjectFiles] holds [get_file] of
      [gns3server/endpoints/controller/projects.py] and the [os.path]
      functions it calls. *)

From Stdlib Require Import String Ascii List Bool Arith NArith Lia.
From Stdlib Require Import DecimalString Permutation.
Import ListNotations.

Local Open Scope string_scope.
Local Open Scope list_scope.

(* ================================================================== *)
(** ** Python built-ins *)

Module Py.

(** Exceptions a call can end with.  [ValueError] is the Python built-in
    the embedded code can raise.  [IntegrityError] and [StaleDataError]
    are the two exceptions of the object-relational mapper that the
    statements of [rbac.py] can end with: a statement the storage engine
    refuses because it breaks a constraint of the schema, and a DELETE of
    the unit of work that did not match the one row it was issued for.
    [DomainError] stands for the error classes of the application's own
    taxonomy; no statement of [rbac.py] raises one, it is here so that
    statements about them can be written. *)
Inductive domain_error : Type :=
| NotFound
| Conflict
| InvalidMembership
| StorageFailure.

Inductive exception : Type :=
| ValueError (msg : string)
| IntegrityError
| StaleDataError
| DomainError (e : domain_error).

Inductive outcome (A : Type) : Type :=
| Returned (a : A)
| Raised (e : exception).
Arguments Returned {A} a.
Arguments Raised {A} e.

(** [s.split(sep)] for a one-character separator: never the empty list,
    [("").split("/") = [""]]. *)
Fixpoint str_split (sep : ascii) (s : string) : list string :=
  match s with
  | EmptyString => [EmptyString]
  | String c s' =>
      if Ascii.eqb c sep then EmptyString :: str_split sep s'
      else match str_split sep s' with
           | hd :: tl => String c hd :: tl
           | [] => [String c EmptyString]
           end
  end.

(** [sep.join(parts)]. *)
Definition str_join (sep : string) (parts : list string) : string :=
  String.concat sep parts.

(** [c in s] for a one-character needle. *)
Fixpoint str_contains (c : ascii) (s : string) : bool :=
  match s with
  | EmptyString => false
  | String d s' => Ascii.eqb d c || str_contains c s'
  end.

(** [range(n, 0, -1)]: n, n-1, ..., 1. *)
Definition range_down (n : nat) : list nat := rev (seq 1 n).

(** [l.remove(x)]: drops the first element equal to [x]; raises
    [ValueError] when there is none. *)
Fixpoint list_remove {A : Type} (eqb : A -> A -> bool) (x : A) (l : list A)
  : outcome (list A) :=
  match l with
  | [] => Raised (ValueError "list.remove(x): x not in list")
  | y :: l' =>
      if eqb y x then Returned l'
      else match list_remove eqb x l' with
           | Returned r => Returned (y :: r)
           | Raised e => Raised e
           end
  end.

(** [str(n)] for a non-negative integer, as an f-string renders it. *)
Definition str_of_nat (n : nat) : string :=
  NilEmpty.string_of_uint (Nat.to_uint n).

(** [repr(s)] of an ASCII string, as the messages of [ValueError] quote
    their argument: single quotes unless the text holds a single quote and
    no double quote; the quote and the backslash escaped, control
    characters written as [\t], [\n], [\r] or [\xNN]. *)
Definition double_quote : ascii := ascii_of_nat 34.
Definition backslash : ascii := ascii_of_nat 92.

Definition hex_digit_of (n : nat) : ascii :=
  nth n (list_ascii_of_string "0123456789abcdef") "0"%char.

Fixpoint repr_body (quote : ascii) (s : string) : string :=
  match s with
  | EmptyString => EmptyString
  | String c s' =>
      let n := nat_of_ascii c in
      ((if Ascii.eqb c quote || (n =? 92)%nat
        then String backslash (String c EmptyString)
        else if (n =? 9)%nat then String backslash "t"
        else if (n =? 10)%nat then String backslash "n"
        else if (n =? 13)%nat then String backslash "r"
        else if (n <? 32)%nat || (n =? 127)%nat
        then String backslash
               (String "x" (String (hex_digit_of (n / 16))
                                   (String (hex_digit_of (n mod 16))
                                           EmptyString)))
        else String c EmptyString)
       ++ repr_body quote s')%string
  end.

Definition repr (s : string) : string :=
  let quote := if str_contains "'" s && negb (str_contains double_quote s)
               then double_quote else "'"%char in
  String quote (repr_body quote s ++ String quote EmptyString).

(** *** [urllib.parse.urlparse(url).path]

    A model of the standard library's [urlsplit] followed by the parameter
    split of [urlparse] (CPython 3.11 with the check of bracketed hosts),
    restricted to what decides the [path] component and whether the call
    raises.  Strings are ASCII strings here, so the check of [urlsplit] on
    a non-ASCII network location ([_checknetloc]) is outside the model. *)
Module UrlParse.

Definition is_c0_or_space (c : ascii) : bool := (nat_of_ascii c <=? 32)%nat.

Fixpoint lstrip_c0_or_space (s : string) : string :=
  match s with
  | String c s' => if is_c0_or_space c then lstrip_c0_or_space s' else s
  | EmptyString => EmptyString
  end.

Definition is_unsafe (c : ascii) : bool :=
  let n := nat_of_ascii c in
  (n =? 9)%nat || (n =? 10)%nat || (n =? 13)%nat.

Fixpoint remove_unsafe (s : string) : string :=
  match s with
  | EmptyString => EmptyString
  | String c s' =>
      if is_unsafe c then remove_unsafe s' else String c (remove_unsafe s')
  end.

Definition is_upper (c : ascii) : bool :=
  let n := nat_of_ascii c in (65 <=? n)%nat && (n <=? 90)%nat.
Definition is_lower (c : ascii) : bool :=
  let n := nat_of_ascii c in (97 <=? n)%nat && (n <=? 122)%nat.
Definition is_digit (c : ascii) : bool :=
  let n := nat_of_ascii c in (48 <=? n)%nat && (n <=? 57)%nat.
Definition is_alpha (c : ascii) : bool := is_upper c || is_lower c.
Definition is_scheme_char (c : ascii) : bool :=
  is_alpha c || is_digit c
  || Ascii.eqb c "+" || Ascii.eqb c "-" || Ascii.eqb c ".".

Definition to_lower (c : ascii) : ascii :=
  if is_upper c then ascii_of_nat (nat_of_ascii c + 32) else c.

Fixpoint str_lower (s : string) : string :=
  match s with
  | EmptyString => EmptyString
  | String c s' => String (to_lower c) (str_lower s')
  end.

Fixpoint str_forallb (p : ascii -> bool) (s : string) : bool :=
  match s with
  | EmptyString => true
  | String c s' => p c && str_forallb p s'
  end.

(** [s.partition(c)]: the text before the first [c] and the text after it;
    [None] when [c] does not occur. *)
Fixpoint partition_at (stop : ascii -> bool) (s : string)
  : option (string * string) :=
  match s with
  | EmptyString => None
  | String c s' =>
      if stop c then Some (EmptyString, s')
      else match partition_at stop s' with
           | Some (before, after) => Some (String c before, after)
           | None => None
           end
  end.

(** The text before the first character satisfying [stop] and the text
    from that character on. *)
Fixpoint break_at (stop : ascii -> bool) (s : string) : string * string :=
  match s with
  | EmptyString => (EmptyString, EmptyString)
  | String c s' =>
      if stop c then (EmptyString, s)
      else let '(before, rest) := break_at stop s' in (String c before, rest)
  end.

(** The scheme split of [urlsplit]: [url.find(':') > 0], the first
    character a letter and every character before the colon a scheme
    character. *)
Definition split_scheme (url : string) : string * string :=
  match partition_at (Ascii.eqb ":") url with
  | Some (String c0 cs as before, after) =>
      if is_alpha c0 && str_forallb is_scheme_char before
      then (str_lower before, after)
      else (EmptyString, url)
  | _ => (EmptyString, url)
  end.

Definition is_netloc_delim (c : ascii) : bool :=
  Ascii.eqb c "/" || Ascii.eqb c "?" || Ascii.eqb c "#".

(** [url[n:]] *)
Fixpoint str_drop (n : nat) (s : string) : string :=
  match n, s with
  | S n', String _ s' => str_drop n' s'
  | _, _ => s
  end.

(** [s.rpartition(c)[2]]: the text after the last [c], the whole text
    when [c] does not occur. *)
Fixpoint after_last (c : ascii) (s : string) : string :=
  match s with
  | EmptyString => EmptyString
  | String d s' =>
      if str_contains c s' then after_last c s'
      else if Ascii.eqb d c then s' else s
  end.

(** **** [ipaddress.ip_address] on a string, as far as it decides whether
    the text is an IPv4 address, an IPv6 address or neither. *)

Definition is_hex_digit (c : ascii) : bool :=
  let n := nat_of_ascii c in
  is_digit c || ((65 <=? n)%nat && (n <=? 70)%nat)
  || ((97 <=? n)%nat && (n <=? 102)%nat).

Fixpoint decimal_value_from (acc : N) (s : string) : N :=
  match s with
  | EmptyString => acc
  | String c s' => decimal_value_from (10 * acc + (N_of_ascii c - 48))%N s'
  end.

(** [IPv4Address._parse_octet] *)
Definition octet_ok (octet_str : string) : bool :=
  negb (String.eqb octet_str "")
  && str_forallb is_digit octet_str
  && (String.length octet_str <=? 3)%nat
  && (String.eqb octet_str "0" || negb (String.prefix "0" octet_str))
  && (decimal_value_from 0 octet_str <=? 255)%N.

(** [IPv4Address(address)] does not raise. *)
Definition ipv4_ok (address : string) : bool :=
  negb (str_contains "/" address)
  && negb (String.eqb address "")
  && (let octets := str_split "." address in
      (List.length octets =? 4)%nat && forallb octet_ok octets).

(** [IPv6Address._parse_hextet] *)
Definition hextet_ok (hextet_str : string) : bool :=
  str_forallb is_hex_digit hextet_str
  && (String.length hextet_str <=? 4)%nat
  && negb (String.eqb hextet_str "").

(** [IPv6Address._split_scope_id]: the address without its scope id;
    [None] when the scope id is empty or holds a second [%]. *)
Definition split_scope_id (ip_str : string) : option string :=
  match partition_at (Ascii.eqb "%") ip_str with
  | None => Some ip_str
  | Some (addr, scope_id) =>
      if String.eqb scope_id "" || str_contains "%" scope_id then None
      else Some addr
  end.

(** The checks of [IPv6Address._ip_int_from_string] on the parts between
    the colons, once an IPv4 suffix has been replaced by two hextets. *)
Definition ipv6_parts_ok (parts : list string) : bool :=
  let n := List.length parts in
  (n <=? 9)%nat
  && match filter (fun i => String.eqb (nth i parts EmptyString) "")
                  (seq 1 (n - 2)) with
     | [] => (n =? 8)%nat && forallb hextet_ok parts
     | [skip_index] =>
         let first_empty := String.eqb (hd EmptyString parts) "" in
         let last_empty := String.eqb (last parts EmptyString) "" in
         let parts_hi := if first_empty then skip_index - 1 else skip_index in
         let parts_lo := if last_empty then n - skip_index - 1 - 1
                         else n - skip_index - 1 in
         negb (first_empty && negb (parts_hi =? 0)%nat)
         && negb (last_empty && negb (parts_lo =? 0)%nat)
         && (parts_hi + parts_lo <? 8)%nat
         && forallb hextet_ok (firstn parts_hi parts)
         && forallb hextet_ok (skipn (n - parts_lo) parts)
     | _ => false
     end.

(** [IPv6Address(address)] does not raise. *)
Definition ipv6_ok (address : string) : bool :=
  negb (str_contains "/" address)
  && match split_scope_id address with
     | None => false
     | Some addr =>
         negb (String.eqb addr "")
         && (let parts := str_split ":" addr in
             (3 <=? List.length parts)%nat
             && (if str_contains "." (last parts EmptyString)
                 then ipv4_ok (last parts EmptyString)
                      && ipv6_parts_ok (removelast parts ++ ["0"; "0"])
                 else ipv6_parts_ok parts))
     end.

(** [re.match(r"\Av[a-fA-F0-9]+\..+\Z", hostname)] *)
Definition ipvfuture_ok (hostname : string) : bool :=
  match hostname with
  | String c rest =>
      Ascii.eqb c "v"
      && (let '(digits, tail) :=
            break_at (fun d => negb (is_hex_digit d)) rest in
          negb (String.eqb digits "")
          && match tail with
             | String d after =>
                 Ascii.eqb d "."
                 && negb (String.eqb after "")
                 && negb (str_contains (ascii_of_nat 10) after)
             | EmptyString => false
             end)
  | EmptyString => false
  end.

(** [_check_bracketed_host(hostname)] *)
Definition check_bracketed_host (hostname : string) : outcome unit :=
  if String.prefix "v" hostname then
    if ipvfuture_ok hostname then Returned tt
    else Raised (ValueError "IPvFuture address is invalid")
  else if ipv4_ok hostname
  then Raised (ValueError "An IPv4 address cannot be in brackets")
  else if ipv6_ok hostname then Returned tt
  else Raised (ValueError (repr hostname
                           ++ " does not appear to be an IPv4 or IPv6 address")).

(** [_check_bracketed_netloc(netloc)] *)
Definition check_bracketed_netloc (netloc : string) : outcome unit :=
  let hostname_and_port := after_last "@" netloc in
  match partition_at (Ascii.eqb "[") hostname_and_port with
  | Some (before_bracket, bracketed) =>
      if negb (String.eqb before_bracket "")
      then Raised (ValueError "Invalid IPv6 URL")
      else
        let '(hostname, port) :=
          match partition_at (Ascii.eqb "]") bracketed with
          | Some (hostname, port) => (hostname, port)
          | None => (bracketed, EmptyString)
          end in
        if negb (String.eqb port "") && negb (String.prefix ":" port)
        then Raised (ValueError "Invalid IPv6 URL")
        else check_bracketed_host hostname
  | None =>
      check_bracketed_host (fst (break_at (Ascii.eqb ":") hostname_and_port))
  end.

(** The network-location step of [urlsplit]: when [url[:2] == '//'],
    [_splitnetloc(url, 2)] followed by the checks of the brackets. *)
Definition split_netloc (url : string) : outcome (string * string) :=
  if String.prefix "//" url then
    let '(netloc, url') := break_at is_netloc_delim (str_drop 2 url) in
    if xorb (str_contains "[" netloc) (str_contains "]" netloc)
    then Raised (ValueError "Invalid IPv6 URL")
    else if str_contains "[" netloc && str_contains "]" netloc then
      match check_bracketed_netloc netloc with
      | Raised e => Raised e
      | Returned _ => Returned (netloc, url')
      end
    else Returned (netloc, url')
  else Returned (EmptyString, url).

Definition uses_params : list string :=
  [""; "ftp"; "hdl"; "prospero"; "http"; "imap"; "https"; "shttp"; "rtsp";
   "rtspu"; "sip"; "sips"; "mms"; "sftp"; "tel"].

(** The first component of [_splitparams(url)]: the text before the first
    [;] of the last [/]-segment. *)
Fixpoint strip_params (url : string) : string :=
  match url with
  | EmptyString => EmptyString
  | String c url' =>
      if Ascii.eqb c ";" && negb (str_contains "/" url') then EmptyString
      else String c (strip_params url')
  end.

Definition urlparse_path (url : string) : outcome string :=
  let url := remove_unsafe (lstrip_c0_or_space url) in
  let '(scheme, url) := split_scheme url in
  match split_netloc url with
  | Raised e => Raised e
  | Returned (_, url) =>
      let url := fst (break_at (Ascii.eqb "#") url) in
      let url := fst (break_at (Ascii.eqb "?") url) in
      Returned (if existsb (String.eqb scheme) uses_params
                then strip_params url else url)
  end.

End UrlParse.

End Py.

Import Py.

(* ================================================================== *)
(** ** The relations *)

(** Modelled from the spec: the row types of [gns3server.db.models], which
    [rbac.py] imports and which is not part of the embedded sources.  The
    columns are those of the data model: a role owns privileges through
    the association relation [role_privileges]; an ACE binds a subject (a
    user or a group of users), a path and a role with an allow flag and a
    propagate flag.  The constraints of the data model (unique names and
    keys, the subject of an ACE, live references, cascading deletion) are
    with the statements that the storage engine checks them on, in
    [RbacRepository] and [RbacStore]. *)
Module Models.

Definition UUID := N.
Definition timestamp := N.
Bind Scope N_scope with UUID timestamp.

Module User.
Record t : Type := { user_id : UUID; username : string }.
End User.

Module Privilege.
Record t : Type :=
  { privilege_id : UUID; name : string; description : option string }.

(** Equality of two rows, column by column. *)
Definition eqb (p q : t) : bool :=
  N.eqb (privilege_id p) (privilege_id q)
  && String.eqb (name p) (name q)
  && match description p, description q with
     | Some x, Some y => String.eqb x y
     | None, None => true
     | _, _ => false
     end.
End Privilege.

Module Role.
Record t : Type :=
  { role_id : UUID;
    name : option string;
    description : option string;
    is_builtin : bool;
    created_at : timestamp;
    updated_at : timestamp }.
End Role.

Module ACE.
Inductive subject_kind : Type := user | group.
Record t : Type :=
  { ace_id : UUID;
    ace_type : subject_kind;
    path : string;
    user_id : option UUID;
    group_id : option UUID;
    role_id : UUID;
    allowed : bool;
    propagate : bool;
    created_at : timestamp;
    updated_at : timestamp }.
End ACE.

(** The relations.  Of a group of users only the key matters here. *)
Record Database : Type :=
  { users : list User.t;
    user_groups : list UUID;
    roles : list Role.t;
    privileges : list Privilege.t;
    role_privileges : list (UUID * UUID);   (* (role_id, privilege_id) *)
    aces : list ACE.t }.

Definition set_roles (d : Database) (rs : list Role.t) : Database :=
  {| users := users d; user_groups := user_groups d; roles := rs;
     privileges := privileges d; role_privileges := role_privileges d;
     aces := aces d |}.

Definition set_aces (d : Database) (l : list ACE.t) : Database :=
  {| users := users d; user_groups := user_groups d; roles := roles d;
     privileges := privileges d; role_privileges := role_privileges d;
     aces := l |}.

Definition set_membership (d : Database) (ps : list Privilege.t)
           (rps : list (UUID * UUID)) : Database :=
  {| users := users d; user_groups := user_groups d; roles := roles d;
     privileges := ps; role_privileges := rps; aces := aces d |}.

End Models.

Import Models.

(* ================================================================== *)
(** ** Repository calls as state-and-exception computations *)

(** The rows of [l] taken in the order the picks describe: each pick
    names, by its index among the rows not taken yet (modulo their
    number), the row that comes next; the rows left when the picks run
    out follow in the order they have.  Every list of picks gives a
    permutation of [l] and every permutation of [l] is given by some list
    of picks. *)
Fixpoint arrange {A : Type} (picks : list nat) (l : list A) : list A :=
  match picks, l with
  | [], _ => l
  | _, [] => []
  | k :: picks', x :: l' =>
      let i := k mod (S (List.length l')) in
      nth i l x :: arrange picks' (firstn i l ++ skipn (S i) l)
  end.

(** What a call can see and change: [session] is the database as the
    session's open transaction sees it, [committed] the database as of the
    last commit, [clock] the storage engine's current timestamp and
    [debug_log] the records written through [log.debug].  [row_order]
    stands for what the storage engine is free to choose: the order in
    which it produces the rows of a query, which is the order a query
    returns them in as far as its ORDER BY clause leaves it open. *)
Record State : Type :=
  { session : Database;
    committed : Database;
    clock : timestamp;
    debug_log : list string;
    row_order : list nat }.

Definition Repo (A : Type) : Type := State -> outcome A * State.

Definition ret {A : Type} (a : A) : Repo A := fun st => (Returned a, st).

Definition bind {A B : Type} (m : Repo A) (f : A -> Repo B) : Repo B :=
  fun st =>
    match m st with
    | (Returned a, st') => f a st'
    | (Raised e, st') => (Raised e, st')
    end.

Declare Scope repo_scope.
Delimit Scope repo_scope with repo.
Notation "x <- m ;; k" := (bind m (fun x => k))
  (at level 100, m at next level, right associativity) : repo_scope.
Notation "m ;; k" := (bind m (fun _ => k))
  (at level 100, right associativity) : repo_scope.
Local Open Scope repo_scope.

Definition lift {A : Type} (o : outcome A) : Repo A := fun st => (o, st).

Definition get_session : Repo Database :=
  fun st => (Returned (session st), st).

Definition put_session (d : Database) : Repo unit :=
  fun st => (Returned tt,
             {| session := d; committed := committed st;
                clock := clock st; debug_log := debug_log st;
                row_order := row_order st |}).

Definition get_row_order : Repo (list nat) :=
  fun st => (Returned (row_order st), st).

(** [raise e] *)
Definition raise {A : Type} (e : exception) : Repo A :=
  fun st => (Raised e, st).

Definition current_timestamp : Repo timestamp :=
  fun st => (Returned (clock st), st).

(** [await self._db_session.commit()] *)
Definition commit : Repo unit :=
  fun st => (Returned tt,
             {| session := session st; committed := session st;
                clock := clock st; debug_log := debug_log st;
                row_order := row_order st |}).

(** What the session does when the flush of a [commit] fails: it rolls
    its transaction back, so that its view is the committed database
    again, and lets the exception through. *)
Definition rollback : Repo unit :=
  fun st => (Returned tt,
             {| session := committed st; committed := committed st;
                clock := clock st; debug_log := debug_log st;
                row_order := row_order st |}).

Definition flush_fails {A : Type} (e : exception) : Repo A :=
  rollback ;; raise e.

(** [log.debug(msg)] *)
Definition log_debug (msg : string) : Repo unit :=
  fun st => (Returned tt,
             {| session := session st; committed := committed st;
                clock := clock st; debug_log := debug_log st ++ [msg];
                row_order := row_order st |}).

(** A computation is read-only when it hands the state on as it got it.
    Reading the session, returning and raising are; so is a sequence of
    read-only steps.  [put_session], [commit], [rollback] and [log_debug]
    are not. *)
Definition read_only {A : Type} (m : Repo A) : Prop :=
  forall st : State, snd (m st) = st.

(* ================================================================== *)
(** ** The repository *)

Module RbacRepository.

(** A [models.Role] object as a query returns it: the row and, eagerly
    loaded, the privileges the association relation gives the role. *)
Record RoleObject : Type :=
  { columns : Role.t;
    loaded_privileges : list Privilege.t }.

(** Two privilege objects of one session are the same object when they are
    the same row, that is when their primary keys agree. *)
Definition same_privilege (p q : Privilege.t) : bool :=
  N.eqb (Privilege.privilege_id p) (Privilege.privilege_id q).

(** The rows of the query that [selectinload(models.Role.privileges)]
    runs for a role: one privilege for each association row of the role
    and stored privilege of that row. *)
Definition load_privileges (d : Database) (r : Role.t) : list Privilege.t :=
  flat_map
    (fun rp : UUID * UUID =>
       if N.eqb (fst rp) (Role.role_id r)
       then filter (fun p => N.eqb (Privilege.privilege_id p) (snd rp))
                   (privileges d)
       else [])
    (role_privileges d).

(** The objects of a list of rows, as the loader collects them: an object
    that several rows yield is listed once, where it first occurs.
    Objects are rows here, so equal rows are one object. *)
Fixpoint unique (l : list Privilege.t) : list Privilege.t :=
  match l with
  | [] => []
  | p :: l' => p :: filter (fun q => negb (Privilege.eqb q p)) (unique l')
  end.

Definition load_role (d : Database) (r : Role.t) : RoleObject :=
  {| columns := r; loaded_privileges := unique (load_privileges d r) |}.

(** [select(models.Role).options(selectinload(...)).where(cond)] followed
    by [result.scalars().first()]. *)
Definition select_first_role (cond : Role.t -> bool) : Repo (option RoleObject) :=
  d <- get_session ;;
  ret (option_map (load_role d) (hd_error (filter cond (roles d)))).

Definition get_role (role_id : UUID) : Repo (option RoleObject) :=
  select_first_role (fun r => N.eqb (Role.role_id r) role_id).

(** [await self._db_session.refresh(role_db)]: the object is read again
    from the row that has its primary key. *)
Definition reloaded (d : Database) (role_db : RoleObject) : RoleObject :=
  match hd_error (filter (fun r => N.eqb (Role.role_id r)
                                         (Role.role_id (columns role_db)))
                         (roles d)) with
  | Some r => load_role d r
  | None => role_db
  end.

Definition refresh (role_db : RoleObject) : Repo RoleObject :=
  d <- get_session ;;
  ret (reloaded d role_db).

(** *** update_role *)

(** [schemas.RoleUpdate]: each field is unset ([None]) or set to a string
    or to Python's [None] ([Some None]); [model_dump(exclude_unset=True)]
    keeps exactly the fields that are set. *)
Record RoleUpdate : Type :=
  { set_name : option (option string);
    set_description : option (option string) }.

Definition model_dump_exclude_unset (role_update : RoleUpdate) : RoleUpdate :=
  role_update.

(** Modelled from the spec: the [updated_at] column of a role, declared in
    [gns3server.db.models] (not part of the embedded sources), takes the
    current timestamp whenever the row is updated; the method's own comment
    says the refresh is there for it.  One row under
    [UPDATE roles SET <values>]: the given columns take the given values,
    [updated_at] takes the current timestamp, the other columns keep
    theirs. *)
Definition apply_values (values : RoleUpdate) (now : timestamp) (r : Role.t)
  : Role.t :=
  {| Role.role_id := Role.role_id r;
     Role.name := match set_name values with
                  | Some v => v
                  | None => Role.name r
                  end;
     Role.description := match set_description values with
                         | Some v => v
                         | None => Role.description r
                         end;
     Role.is_builtin := Role.is_builtin r;
     Role.created_at := Role.created_at r;
     Role.updated_at := now |}.

Definition role_named (name : string) (r : Role.t) : bool :=
  match Role.name r with
  | Some n => String.eqb n name
  | None => false
  end.

(** Modelled from the spec: the names of the roles are unique.  The
    storage engine refuses an UPDATE that gives a name to a row when a
    row the statement leaves alone has that name. *)
Definition breaks_unique_name (cond : Role.t -> bool) (values : RoleUpdate)
           (rs : list Role.t) : bool :=
  match set_name values with
  | Some (Some n) =>
      existsb cond rs && existsb (fun r => negb (cond r) && role_named n r) rs
  | _ => false
  end.

(** [update(models.Role).where(cond).values(values)]: when the engine
    refuses the statement, [execute] raises and no row has changed. *)
Definition execute_update_roles (cond : Role.t -> bool) (values : RoleUpdate)
  : Repo unit :=
  d <- get_session ;;
  now <- current_timestamp ;;
  if breaks_unique_name cond values (roles d) then raise IntegrityError
  else
    put_session
      (set_roles d (map (fun r => if cond r then apply_values values now r
                                  else r)
                        (roles d))).

Definition update_role (role_id : UUID) (role_update : RoleUpdate)
  : Repo (option RoleObject) :=
  let update_values := model_dump_exclude_unset role_update in
  execute_update_roles (fun r => N.eqb (Role.role_id r) role_id)
                       update_values ;;
  commit ;;
  role_db <- get_role role_id ;;
  match role_db with
  | Some role_db => r <- refresh role_db ;; ret (Some r)
  | None => ret None
  end.

(** *** add_privilege_to_role, remove_privilege_from_role *)

(** Modelled from the spec: the [privileges] relationship of a role and
    the [roles] relationship of a privilege, declared in
    [gns3server.db.models] (not part of the embedded sources), are the two
    sides of the association relation [role_privileges], whose rows have
    no key of their own; the names of the privileges are unique.

    The flush that [commit] starts with after
    [role_db.privileges.append(privilege)].  The append is recorded on
    both sides of the relationship, and the unit of work writes one
    association row for it, whether or not the collection of the role held
    the privilege already.  A privilege that is not stored yet gets a row
    of its own first, which the storage engine refuses when a stored
    privilege has its name. *)
Definition flush_append (role_db : RoleObject) (privilege : Privilege.t)
  : Repo unit :=
  d <- get_session ;;
  let row := (Role.role_id (columns role_db),
              Privilege.privilege_id privilege) in
  if existsb (same_privilege privilege) (privileges d) then
    put_session (set_membership d (privileges d) (role_privileges d ++ [row]))
  else if existsb (fun q => String.eqb (Privilege.name q)
                                       (Privilege.name privilege))
                  (privileges d)
  then flush_fails IntegrityError
  else
    put_session (set_membership d (privileges d ++ [privilege])
                                (role_privileges d ++ [row])).

(** The flush that [commit] starts with after
    [role_db.privileges.remove(privilege)]: the unit of work issues one
    DELETE for the association rows of the role and the privilege and
    expects it to match one row; when it matches another number of rows
    the mapper raises [StaleDataError] and the flush fails. *)
Definition flush_remove (role_db : RoleObject) (privilege : Privilege.t)
  : Repo unit :=
  d <- get_session ;;
  let matches := fun rp : UUID * UUID =>
    N.eqb (fst rp) (Role.role_id (columns role_db))
    && N.eqb (snd rp) (Privilege.privilege_id privilege) in
  if (List.length (filter matches (role_privileges d)) =? 1)%nat then
    put_session
      (set_membership d (privileges d)
                      (filter (fun rp => negb (matches rp)) (role_privileges d)))
  else flush_fails StaleDataError.

Definition add_privilege_to_role (role_id : UUID) (privilege : Privilege.t)
  : Repo (option RoleObject) :=
  role_db <- select_first_role (fun r => N.eqb (Role.role_id r) role_id) ;;
  match role_db with
  | None => ret None
  | Some role_db =>
      (* role_db.privileges.append(privilege) *)
      flush_append role_db privilege ;;
      commit ;;
      r <- refresh role_db ;;
      ret (Some r)
  end.

Definition remove_privilege_from_role (role_id : UUID) (privilege : Privilege.t)
  : Repo (option RoleObject) :=
  role_db <- select_first_role (fun r => N.eqb (Role.role_id r) role_id) ;;
  match role_db with
  | None => ret None
  | Some role_db =>
      (* role_db.privileges.remove(privilege) *)
      lift (list_remove same_privilege privilege (loaded_privileges role_db)) ;;
      flush_remove role_db privilege ;;
      commit ;;
      r <- refresh role_db ;;
      ret (Some r)
  end.

(** *** check_ace_exists *)

Definition check_ace_exists (path : string) : Repo bool :=
  d <- get_session ;;
  ret (match hd_error (filter (fun a => String.eqb (ACE.path a) path) (aces d))
       with
       | Some _ => true
       | None => false
       end).

(** *** delete_all_ace_starting_with_path *)

(** [rest] holds of [s] or of what is left of [s] after some of its first
    characters. *)
Fixpoint any_run (rest : string -> bool) (s : string) : bool :=
  rest s
  || match s with
     | EmptyString => false
     | String _ s' => any_run rest s'
     end.

(** [s LIKE pattern] as the storage engine of the server, SQLite,
    evaluates it: [%] in the pattern stands for any run of characters, [_]
    for any one character, and any other character for itself, an ASCII
    letter matching in either case. *)
Fixpoint like (pattern : string) : string -> bool :=
  match pattern with
  | EmptyString => fun s => String.eqb s ""
  | String c pattern' =>
      if Ascii.eqb c "%" then any_run (like pattern')
      else
        fun s =>
          match s with
          | EmptyString => false
          | String d s' =>
              (Ascii.eqb c "_"
               || Ascii.eqb (UrlParse.to_lower c) (UrlParse.to_lower d))
              && like pattern' s'
          end
  end.

(** [models.ACE.path.startswith(path)]: the mapper renders it as
    [path LIKE :path || '%'], the argument taken as it is, so that a [%]
    or a [_] in it is a wildcard. *)
Definition startswith (path : string) (a : ACE.t) : bool :=
  like (path ++ "%") (ACE.path a).

(** The method is declared [-> None]: it returns no value, here [tt]; the
    row count goes to the debug log. *)
Definition delete_all_ace_starting_with_path (path : string) : Repo unit :=
  d <- get_session ;;
  let rowcount := List.length (filter (startswith path) (aces d)) in
  put_session (set_aces d (filter (fun a => negb (startswith path a)) (aces d))) ;;
  log_debug (str_of_nat rowcount ++ " ACE(s) have been deleted")%string.

(** *** check_user_has_privilege *)

(** A row of the query: [(ACE.path, ACE.propagate, ACE.allowed,
    Privilege.name)]. *)
Definition AceRow : Type := (string * bool * bool * string)%type.

Definition row_path (r : AceRow) : string := fst (fst (fst r)).
Definition row_propagate (r : AceRow) : bool := snd (fst (fst r)).
Definition row_allowed (r : AceRow) : bool := snd (fst r).

(** The joins and filters of the query, in the order of the relations:
    privileges named [privilege_name], the roles that own them, the ACEs
    of those roles, the user of each ACE restricted to [user_id]. *)
Definition joined_rows (d : Database) (user_id : UUID) (privilege_name : string)
  : list AceRow :=
  flat_map (fun p : Privilege.t =>
    if String.eqb (Privilege.name p) privilege_name then
      flat_map (fun rp : UUID * UUID =>
        if N.eqb (snd rp) (Privilege.privilege_id p) then
          flat_map (fun r : Role.t =>
            if N.eqb (Role.role_id r) (fst rp) then
              flat_map (fun a : ACE.t =>
                if N.eqb (ACE.role_id a) (Role.role_id r) then
                  flat_map (fun u : User.t =>
                    match ACE.user_id a with
                    | Some uid =>
                        if N.eqb (User.user_id u) uid
                           && N.eqb (User.user_id u) user_id
                        then [(ACE.path a, ACE.propagate a, ACE.allowed a,
                               Privilege.name p)]
                        else []
                    | None => []
                    end) (users d)
                else []) (aces d)
            else []) (roles d)
        else []) (role_privileges d)
    else []) (privileges d).

(** [order_by(models.ACE.path.desc())]: rows with the greater path first;
    rows with equal paths in the order in which the engine produced
    them. *)
Fixpoint insert_desc (x : AceRow) (l : list AceRow) : list AceRow :=
  match l with
  | [] => [x]
  | y :: l' =>
      if String.ltb (row_path x) (row_path y) then y :: insert_desc x l'
      else x :: l
  end.

Definition order_by_path_desc (l : list AceRow) : list AceRow :=
  fold_right insert_desc [] l.

(** The query of [check_user_has_privilege] and [result.all()].  The
    clause ORDER BY fixes the order of the rows up to the rows of equal
    path; the engine produces the joined rows in an order of its choice,
    [row_order]. *)
Definition select_aces (user_id : UUID) (privilege_name : string)
  : Repo (list AceRow) :=
  d <- get_session ;;
  picks <- get_row_order ;;
  ret (order_by_path_desc (arrange picks (joined_rows d user_id privilege_name))).

(** The inner loop, [for ... in aces], at one [path]: [Some b] when the
    loop executes [return b], [None] when it runs to its end. *)
Fixpoint scan_aces (aces : list AceRow) (path original_path : string)
  : option bool :=
  match aces with
  | [] => None
  | (ace_path, ace_propagate, ace_allowed, ace_privilege) :: rest =>
      if String.eqb ace_path path then
        if negb ace_allowed then Some false
        else if String.eqb path original_path || ace_propagate then Some true
        else scan_aces rest path original_path
      else scan_aces rest path original_path
  end.

(** The path the outer loop examines at index [i]. *)
Definition level (path_components : list string) (i : nat) : string :=
  let path := str_join "/" (firstn i path_components) in
  if String.eqb path "" then "/" else path.

(** The outer loop, [for i in range(len(path_components), 0, -1)], with the
    final [return False]. *)
Fixpoint traverse (indices : list nat) (path_components : list string)
         (aces : list AceRow) (original_path : string) : bool :=
  match indices with
  | [] => false
  | i :: indices' =>
      match scan_aces aces (level path_components i) original_path with
      | Some decision => decision
      | None => traverse indices' path_components aces original_path
      end
  end.

(** The part of the method after the query. *)
Definition resolve (aces : list AceRow) (path : string) : outcome bool :=
  match UrlParse.urlparse_path path with
  | Raised e => Raised e
  | Returned parsed_path =>
      let original_path := path in
      let path_components := str_split "/" parsed_path in
      Returned (traverse (range_down (List.length path_components))
                         path_components aces original_path)
  end.

Definition check_user_has_privilege (user_id : UUID) (path : string)
           (privilege_name : string) : Repo bool :=
  aces <- select_aces user_id privilege_name ;;
  lift (resolve aces path).

End RbacRepository.

Import RbacRepository.

(* ================================================================== *)
(** ** The ancestor levels of a path *)

(** The paths the outer loop of the resolver examines, in its order. *)
Definition ancestor_levels (path_components : list string) : list string :=
  map (level path_components) (range_down (List.length path_components)).

(** The levels of a path as passed to the resolver; the [ValueError] of
    [urlparse] when it rejects the path. *)
Definition path_levels (path : string) : outcome (list string) :=
  match UrlParse.urlparse_path path with
  | Raised e => Raised e
  | Returned parsed_path => Returned (ancestor_levels (str_split "/" parsed_path))
  end.

(** The ancestor chain in the words of the specification: the full path,
    then each successively shorter prefix obtained by dropping the last
    [/]-delimited segment, down to the root. *)
Fixpoint before_last_slash (s : string) : string :=
  match s with
  | EmptyString => EmptyString
  | String c s' =>
      if str_contains "/" s' then String c (before_last_slash s')
      else EmptyString
  end.

Definition parent_path (p : string) : string :=
  let q := before_last_slash p in
  if String.eqb q "" then "/" else q.

Fixpoint count_slashes (s : string) : nat :=
  match s with
  | EmptyString => 0
  | String c s' => (if Ascii.eqb c "/" then 1 else 0) + count_slashes s'
  end.

Fixpoint chain_from (n : nat) (p : string) : list string :=
  match n with
  | 0 => []
  | S n' => p :: chain_from n' (parent_path p)
  end.

Definition ancestor_chain (p : string) : list string :=
  chain_from (S (count_slashes p)) p.

(** A plain absolute path: it begins with one [/], not two, and holds none
    of the characters [urlparse] gives a meaning to or removes ([?], [#],
    [;], tab, line feed, carriage return). *)
Definition plain_char (c : ascii) : bool :=
  negb (UrlParse.is_unsafe c)
  && negb (Ascii.eqb "#" c) && negb (Ascii.eqb "?" c) && negb (Ascii.eqb c ";").

Definition plain_path (p : string) : bool :=
  String.prefix "/" p && negb (String.prefix "//" p)
  && UrlParse.str_forallb plain_char p.

(** The entries attached to one path. *)
Definition at_path (lvl : string) (r : AceRow) : bool :=
  String.eqb (row_path r) lvl.

(** The decision of the first level, in the given order, at which the scan
    of the candidate rows returns; [false] when none does. *)
Fixpoint first_decisive (aces : list AceRow) (original_path : string)
         (levels : list string) : bool :=
  match levels with
  | [] => false
  | lvl :: levels' =>
      match scan_aces aces lvl original_path with
      | Some decision => decision
      | None => first_decisive aces original_path levels'
      end
  end.

(** An entry decides at level [lvl] for the queried path [original_path]
    when its path is [lvl] and it is a deny, or an allow that propagates,
    or an allow at the queried path itself. *)
Definition decisive (lvl original_path : string) (r : AceRow) : Prop :=
  row_path r = lvl /\
  (row_allowed r = false \/ row_propagate r = true \/ lvl = original_path).

(** [lvl] is the most specific level of [path] at which a candidate entry
    is attached. *)
Definition most_specific_matching_level (aces : list AceRow)
           (path lvl : string) : Prop :=
  exists deeper shallower,
    path_levels path = Returned (deeper ++ lvl :: shallower) /\
    (forall r, In r aces -> ~ In (row_path r) deeper) /\
    (exists r, In r aces /\ row_path r = lvl).

(** The number of stored ACEs the pattern of a prefix matches. *)
Definition matching_count (path : string) (st : State) : nat :=
  List.length (filter (startswith path) (aces (session st))).

(** The association rows of a role and a privilege. *)
Definition association (rid : UUID) (x : Privilege.t) (rp : UUID * UUID)
  : bool :=
  N.eqb (fst rp) rid && N.eqb (snd rp) (Privilege.privilege_id x).

(** The rows the query of the resolver returns in a state, in the order
    it returns them in. *)
Definition candidate_rows (st : State) (user_id : UUID)
           (privilege_name : string) : list AceRow :=
  order_by_path_desc
    (arrange (row_order st) (joined_rows (session st) user_id privilege_name)).

(** The rows are in an order that [ORDER BY path DESC] allows: no row
    comes before a row of a greater path. *)
Fixpoint descending (l : list AceRow) : bool :=
  match l with
  | [] => true
  | x :: l' =>
      match l' with
      | [] => true
      | y :: _ => negb (String.ltb (row_path x) (row_path y)) && descending l'
      end
  end.

(** A prefix without the wildcard characters of a pattern. *)
Definition wildcard_free (s : string) : bool :=
  UrlParse.str_forallb (fun c => negb (Ascii.eqb c "%") && negb (Ascii.eqb c "_"))
                       s.

(* ================================================================== *)
(** ** Sample data *)

Module Sample.

Local Open Scope N_scope.

Definition alice : User.t := {| User.user_id := 1; User.username := "alice" |}.
Definition bob : User.t := {| User.user_id := 2; User.username := "bob" |}.

Definition node_start : Privilege.t :=
  {| Privilege.privilege_id := 10; Privilege.name := "Node.Start";
     Privilege.description := Some "Start a node" |}.
Definition project_audit : Privilege.t :=
  {| Privilege.privilege_id := 11; Privilege.name := "Project.Audit";
     Privilege.description := None |}.

Definition operators : Role.t :=
  {| Role.role_id := 20; Role.name := Some "Operators";
     Role.description := Some "May start nodes"; Role.is_builtin := false;
     Role.created_at := 100; Role.updated_at := 100 |}.
Definition auditors : Role.t :=
  {| Role.role_id := 21; Role.name := Some "Auditors";
     Role.description := None; Role.is_builtin := true;
     Role.created_at := 101; Role.updated_at := 105 |}.

Definition ace (id : UUID) (path : string) (uid : UUID) (rid : UUID)
           (allowed propagate : bool) : ACE.t :=
  {| ACE.ace_id := id; ACE.ace_type := ACE.user; ACE.path := path;
     ACE.user_id := Some uid; ACE.group_id := None; ACE.role_id := rid;
     ACE.allowed := allowed; ACE.propagate := propagate;
     ACE.created_at := 110; ACE.updated_at := 110 |}.

Definition staff : UUID := 40.

Definition database (l : list ACE.t) : Database :=
  {| users := [alice; bob];
     user_groups := [staff];
     roles := [operators; auditors];
     privileges := [node_start; project_audit];
     role_privileges := [(20, 10); (21, 11)];
     aces := l |}.

(** The state over [database l] in which the engine produces the rows of
    a query in the order [picks] describes. *)
Definition state_in_order (picks : list nat) (l : list ACE.t) : State :=
  {| session := database l; committed := database l;
     clock := 200; debug_log := []; row_order := picks |}.

(** The engine produces the rows in the order they are stored in. *)
Definition state (l : list ACE.t) : State := state_in_order [] l.

End Sample.

(* ================================================================== *)
(** ** The other methods of the repository *)

(** The lookups, [create_role], [delete_role], [create_ace], [update_ace]
    and [delete_ace] of [RbacRepository], over the same state.  A lookup
    returns the rows in the order they are stored in; the statements about
    the lookups do not depend on that order. *)
Module RbacStore.

Definition get_role_by_name (name : string) : Repo (option RoleObject) :=
  select_first_role (role_named name).

Definition get_roles : Repo (list RoleObject) :=
  d <- get_session ;;
  ret (map (load_role d) (roles d)).

(** [select(models.Privilege).join(models.Privilege.roles)
     .filter(models.Role.role_id == role_id)]: one row for each privilege,
    association row of it and role of that row with the given key. *)
Definition get_role_privileges (role_id : UUID) : Repo (list Privilege.t) :=
  d <- get_session ;;
  ret (flat_map (fun p : Privilege.t =>
         flat_map (fun rp : UUID * UUID =>
           if N.eqb (snd rp) (Privilege.privilege_id p) then
             flat_map (fun r : Role.t =>
               if N.eqb (Role.role_id r) (fst rp)
                  && N.eqb (Role.role_id r) role_id
               then [p] else []) (roles d)
           else []) (role_privileges d)) (privileges d)).

Definition get_privilege (privilege_id : UUID) : Repo (option Privilege.t) :=
  d <- get_session ;;
  ret (hd_error (filter (fun p => N.eqb (Privilege.privilege_id p) privilege_id)
                        (privileges d))).

Definition get_privilege_by_name (name : string) : Repo (option Privilege.t) :=
  d <- get_session ;;
  ret (hd_error (filter (fun p => String.eqb (Privilege.name p) name)
                        (privileges d))).

Definition get_privileges : Repo (list Privilege.t) :=
  d <- get_session ;;
  ret (privileges d).

Definition get_ace (ace_id : UUID) : Repo (option ACE.t) :=
  d <- get_session ;;
  ret (hd_error (filter (fun a => N.eqb (ACE.ace_id a) ace_id) (aces d))).

Definition get_ace_by_path (path : string) : Repo (option ACE.t) :=
  d <- get_session ;;
  ret (hd_error (filter (fun a => String.eqb (ACE.path a) path) (aces d))).

Definition get_aces : Repo (list ACE.t) :=
  d <- get_session ;;
  ret (aces d).

(** *** create_role, delete_role *)

(** [schemas.RoleCreate], of which the method reads [name] and
    [description]. *)
Record RoleCreate : Type :=
  { create_name : string;
    create_description : option string }.

(** The row [models.Role(name=..., description=...)] becomes when it is
    flushed.  The columns the call does not set ([role_id], [is_builtin],
    the timestamps) get the values the column defaults of the model
    generate; the model is not part of the embedded sources, so they are
    passed in as the row [generated]. *)
Definition new_role (generated : Role.t) (role_create : RoleCreate) : Role.t :=
  {| Role.role_id := Role.role_id generated;
     Role.name := Some (create_name role_create);
     Role.description := create_description role_create;
     Role.is_builtin := Role.is_builtin generated;
     Role.created_at := Role.created_at generated;
     Role.updated_at := Role.updated_at generated |}.

(** Modelled from the spec: the key and the name of a role are unique.
    A new row conflicts with the stored rows when one of them has its key
    or its name. *)
Definition role_conflicts (rs : list Role.t) (r : Role.t) : bool :=
  existsb (fun r' => N.eqb (Role.role_id r') (Role.role_id r)
                     || match Role.name r with
                        | Some n => role_named n r'
                        | None => false
                        end) rs.

(** [self._db_session.add(db_role)] and the flush that [commit] starts
    with: the INSERT of the row, which the storage engine refuses when the
    row conflicts with a stored one. *)
Definition flush_new_role (db_role : Role.t) : Repo unit :=
  d <- get_session ;;
  if role_conflicts (roles d) db_role then flush_fails IntegrityError
  else put_session (set_roles d (roles d ++ [db_role])).

Definition create_role (generated : Role.t) (role_create : RoleCreate)
  : Repo (option RoleObject) :=
  let db_role := new_role generated role_create in
  flush_new_role db_role ;;
  commit ;;
  get_role (Role.role_id db_role).

(** Modelled from the spec: the rows that reference a role, the ACEs of
    the role and its association rows, are deleted with it (cascade).
    The database without the rows of the given key and, when there was
    such a row, without the rows that refer to it. *)
Definition without_role (role_id : UUID) (d : Database) : Database :=
  let matches := fun r : Role.t => N.eqb (Role.role_id r) role_id in
  if existsb matches (roles d) then
    {| users := users d;
       user_groups := user_groups d;
       roles := filter (fun r => negb (matches r)) (roles d);
       privileges := privileges d;
       role_privileges :=
         filter (fun rp : UUID * UUID => negb (N.eqb (fst rp) role_id))
                (role_privileges d);
       aces := filter (fun a => negb (N.eqb (ACE.role_id a) role_id)) (aces d) |}
  else d.

(** [delete(models.Role).where(models.Role.role_id == role_id)];
    [result.rowcount] counts the rows of the roles. *)
Definition delete_role (role_id : UUID) : Repo bool :=
  d <- get_session ;;
  let matches := fun r : Role.t => N.eqb (Role.role_id r) role_id in
  let rowcount := List.length (filter matches (roles d)) in
  put_session (without_role role_id d) ;;
  commit ;;
  ret (0 <? rowcount)%nat.

(** *** create_ace, update_ace, delete_ace *)

(** [schemas.ACECreate] and [schemas.ACEUpdate] after
    [model_dump(exclude_unset=True)]: each column of an ACE is unset
    ([None]) or set to a value. *)
Record ACEValues : Type :=
  { set_ace_type : option ACE.subject_kind;
    set_path : option string;
    set_propagate : option bool;
    set_allowed : option bool;
    set_user_id : option (option UUID);
    set_group_id : option (option UUID);
    set_role_id : option UUID }.

Definition or_else {A : Type} (o : option A) (a : A) : A :=
  match o with
  | Some v => v
  | None => a
  end.

(** The given columns take the given values; the key and [created_at]
    keep theirs and [updated_at] takes [stamp]. *)
Definition with_values (values : ACEValues) (stamp : timestamp) (a : ACE.t)
  : ACE.t :=
  {| ACE.ace_id := ACE.ace_id a;
     ACE.ace_type := or_else (set_ace_type values) (ACE.ace_type a);
     ACE.path := or_else (set_path values) (ACE.path a);
     ACE.user_id := or_else (set_user_id values) (ACE.user_id a);
     ACE.group_id := or_else (set_group_id values) (ACE.group_id a);
     ACE.role_id := or_else (set_role_id values) (ACE.role_id a);
     ACE.allowed := or_else (set_allowed values) (ACE.allowed a);
     ACE.propagate := or_else (set_propagate values) (ACE.propagate a);
     ACE.created_at := ACE.created_at a;
     ACE.updated_at := stamp |}.

(** The [models.ACE] built from [create_values], once flushed: the columns
    the payload leaves unset get the values the column defaults of the
    model generate, passed in as the row [generated] (see [new_role]). *)
Definition new_ace (generated : ACE.t) (create_values : ACEValues) : ACE.t :=
  with_values create_values (ACE.updated_at generated) generated.

Definition refresh_ace (db_ace : ACE.t) : Repo ACE.t :=
  d <- get_session ;;
  ret (or_else (hd_error (filter (fun a => N.eqb (ACE.ace_id a)
                                                 (ACE.ace_id db_ace))
                                 (aces d)))
               db_ace).

(** Modelled from the spec: an ACE has exactly one subject, of the kind
    [ace_type] names. *)
Definition subject_ok (a : ACE.t) : bool :=
  match ACE.ace_type a, ACE.user_id a, ACE.group_id a with
  | ACE.user, Some _, None => true
  | ACE.group, None, Some _ => true
  | _, _, _ => false
  end.

(** Modelled from the spec: an ACE refers to a stored role and to a stored
    subject. *)
Definition references_ok (d : Database) (a : ACE.t) : bool :=
  existsb (fun r => N.eqb (Role.role_id r) (ACE.role_id a)) (roles d)
  && match ACE.user_id a with
     | Some uid => existsb (fun u => N.eqb (User.user_id u) uid) (users d)
     | None => true
     end
  && match ACE.group_id a with
     | Some gid => existsb (N.eqb gid) (user_groups d)
     | None => true
     end.

(** The rows of ACEs the storage engine accepts. *)
Definition admissible (d : Database) (a : ACE.t) : bool :=
  subject_ok a && references_ok d a.

(** [self._db_session.add(db_ace)] and the flush that [commit] starts
    with: the INSERT of the row, which the storage engine refuses when
    the key is taken or the row is not admissible. *)
Definition flush_new_ace (db_ace : ACE.t) : Repo unit :=
  d <- get_session ;;
  if existsb (fun a => N.eqb (ACE.ace_id a) (ACE.ace_id db_ace)) (aces d)
     || negb (admissible d db_ace)
  then flush_fails IntegrityError
  else put_session (set_aces d (aces d ++ [db_ace])).

Definition create_ace (generated : ACE.t) (ace_create : ACEValues)
  : Repo ACE.t :=
  let create_values := ace_create in
  let db_ace := new_ace generated create_values in
  flush_new_ace db_ace ;;
  commit ;;
  refresh_ace db_ace.

(** [update(models.ACE).where(cond).values(values)].  As for a role,
    [updated_at] takes the current timestamp when the row is updated.
    The storage engine refuses the statement when a row it updates would
    not be admissible; [execute] then raises and no row has changed. *)
Definition execute_update_aces (cond : ACE.t -> bool) (values : ACEValues)
  : Repo unit :=
  d <- get_session ;;
  now <- current_timestamp ;;
  if existsb (fun a => cond a && negb (admissible d (with_values values now a)))
             (aces d)
  then raise IntegrityError
  else
    put_session
      (set_aces d (map (fun a => if cond a then with_values values now a else a)
                       (aces d))).

Definition update_ace (ace_id : UUID) (ace_update : ACEValues)
  : Repo (option ACE.t) :=
  let update_values := ace_update in
  execute_update_aces (fun a => N.eqb (ACE.ace_id a) ace_id) update_values ;;
  commit ;;
  ace_db <- get_ace ace_id ;;
  match ace_db with
  | Some ace_db => a <- refresh_ace ace_db ;; ret (Some a)
  | None => ret None
  end.

Definition delete_ace (ace_id : UUID) : Repo bool :=
  d <- get_session ;;
  let matches := fun a : ACE.t => N.eqb (ACE.ace_id a) ace_id in
  let rowcount := List.length (filter matches (aces d)) in
  put_session (set_aces d (filter (fun a => negb (matches a)) (aces d))) ;;
  commit ;;
  ret (0 <? rowcount)%nat.

End RbacStore.

Import RbacStore.

(* ================================================================== *)
(** ** Files of a project *)

(** [get_file] of [gns3server/endpoints/controller/projects.py], with the
    functions of [os.path] it calls, as [posixpath] defines them. *)
Module ProjectFiles.

(** [s.lstrip(c)], [s.rstrip(c)] and [s.strip(c)] for one character. *)
Fixpoint str_lstrip (c : ascii) (s : string) : string :=
  match s with
  | String d s' => if Ascii.eqb d c then str_lstrip c s' else s
  | EmptyString => EmptyString
  end.

Fixpoint str_rstrip (c : ascii) (s : string) : string :=
  match s with
  | EmptyString => EmptyString
  | String d s' =>
      let r := str_rstrip c s' in
      if Ascii.eqb d c && String.eqb r "" then EmptyString else String d r
  end.

Definition str_strip (c : ascii) (s : string) : string :=
  str_rstrip c (str_lstrip c s).

(** [s.endswith("/")] *)
Fixpoint ends_with_slash (s : string) : bool :=
  match s with
  | EmptyString => false
  | String c EmptyString => Ascii.eqb c "/"
  | String _ s' => ends_with_slash s'
  end.

(** [sep * n] *)
Fixpoint slashes (n : nat) : string :=
  match n with
  | 0 => EmptyString
  | S n' => String "/" (slashes n')
  end.

(** The count [normpath] keeps of the initial slashes: two are kept, three
    or more count as one. *)
Definition initial_slashes (path : string) : nat :=
  if String.prefix "/" path then
    if String.prefix "//" path && negb (String.prefix "///" path) then 2
    else 1
  else 0.

Definition is_nil {A : Type} (l : list A) : bool :=
  match l with
  | [] => true
  | _ :: _ => false
  end.

(** The loop of [normpath] over the components, [new_comps] being the
    list built so far. *)
Fixpoint normalize (initial : nat) (comps new_comps : list string)
  : list string :=
  match comps with
  | [] => new_comps
  | comp :: comps' =>
      if String.eqb comp "" || String.eqb comp "." then
        normalize initial comps' new_comps
      else if negb (String.eqb comp "..")
              || ((initial =? 0)%nat && is_nil new_comps)
              || (negb (is_nil new_comps)
                  && String.eqb (last new_comps EmptyString) "..")
      then normalize initial comps' (new_comps ++ [comp])
      else if negb (is_nil new_comps) then
        normalize initial comps' (removelast new_comps)
      else normalize initial comps' new_comps
  end.

(** [os.path.normpath(path)] *)
Definition normpath (path : string) : string :=
  if String.eqb path "" then "."
  else
    let initial := initial_slashes path in
    let comps := normalize initial (str_split "/" path) [] in
    let joined := str_join "/" comps in
    let joined := if (0 <? initial)%nat
                  then (slashes initial ++ joined)%string else joined in
    if String.eqb joined "" then "." else joined.

(** [os.path.join(a, b)] *)
Definition join (a b : string) : string :=
  if String.prefix "/" b then b
  else if String.eqb a "" || ends_with_slash a then (a ++ b)%string
  else (a ++ "/" ++ b)%string.

(** How a call of the endpoint ends when it does not return: with an
    [HTTPException] of the given status, or with the [IndexError] of
    [path[0]] on an empty string, which the endpoint does not catch. *)
Inductive failure : Type :=
| HTTPException (status_code : nat)
| IndexError.

Inductive reply (A : Type) : Type :=
| Reply (a : A)
| Fails (e : failure).
Arguments Reply {A} a.
Arguments Fails {A} e.

Record FileResponse : Type :=
  { served_path : string;
    media_type : string }.

(** [exists] is [os.path.exists] on the file system of the call and
    [project_path] is [project.path]. *)
Definition get_file (exists_ : string -> bool) (project_path file_path : string)
  : reply FileResponse :=
  let path := str_strip "/" (normpath file_path) in
  match path with
  | EmptyString => Fails IndexError
  | String c _ =>
      if Ascii.eqb c "." then Fails (HTTPException 403)
      else
        let path := join project_path path in
        if negb (exists_ path) then Fails (HTTPException 404)
        else Reply {| served_path := path;
                      media_type := "application/octet-stream" |}
  end.

(** A component that names an entry below its directory: not empty, not
    [.] or [..], and without a slash. *)
Definition plain_component (c : string) : Prop :=
  c <> "" /\ c <> "." /\ c <> ".." /\ str_contains "/" c = false.

(** What the loop of [normpath] keeps true of the list it builds: some
    [..] first (none when the path has initial slashes), then plain
    components only. *)
Definition climbs_then_descends (initial : nat) (l : list string) : Prop :=
  exists (k : nat) (body : list string),
    l = repeat ".." k ++ body /\
    Forall plain_component body /\
    (0 < initial -> k = 0).

End ProjectFiles.

Import ProjectFiles.

(* ================================================================== *)
(** ** Facts about the query and the scan *)

Section Resolver.

Implicit Types (aces : list AceRow) (lvl path : string) (r : AceRow).

Lemma insert_desc_perm (x : AceRow) (l : list AceRow) :
  Permutation (insert_desc x l) (x :: l).
Proof.
  induction l as [|y l IH]; simpl.
  - apply Permutation_refl.
  - destruct (String.ltb (row_path x) (row_path y)).
    + eapply Permutation_trans; [apply perm_skip, IH | apply perm_swap].
    + apply Permutation_refl.
Qed.

Lemma order_by_path_desc_perm (l : list AceRow) :
  Permutation (order_by_path_desc l) l.
Proof.
  induction l as [|x l IH]; simpl.
  - constructor.
  - eapply Permutation_trans; [apply insert_desc_perm | now apply perm_skip].
Qed.

Lemma scan_aces_no_match aces lvl path :
  (forall r, In r aces -> row_path r <> lvl) ->
  scan_aces aces lvl path = None.
Proof.
  induction aces as [|[[[ap pr] al] pn] aces IH]; intros H; simpl.
  - reflexivity.
  - destruct (String.eqb_spec ap lvl) as [E|_].
    + exfalso. apply (H (ap, pr, al, pn)); [now left | exact E].
    + apply IH. intros r Hr. apply H. now right.
Qed.

Lemma scan_aces_first_decisive aces lvl path pre r post :
  aces = pre ++ r :: post ->
  decisive lvl path r ->
  (forall q, In q pre -> ~ decisive lvl path q) ->
  scan_aces aces lvl path = Some (row_allowed r).
Proof.
  intros -> [Hp Hd] Hpre.
  induction pre as [|[[[ap pr] al] pn] pre IH]; simpl.
  - destruct r as [[[ap pr] al] pn]. unfold row_path, row_allowed,
      row_propagate in *; simpl in *. subst ap.
    rewrite String.eqb_refl.
    destruct al; simpl; [|reflexivity].
    destruct Hd as [Hd|[Hd|Hd]]; [discriminate| |].
    + subst pr. now rewrite orb_true_r.
    + subst lvl. now rewrite String.eqb_refl.
  - assert (Hq : ~ decisive lvl path (ap, pr, al, pn)) by (apply Hpre; now left).
    assert (IH' : scan_aces (pre ++ r :: post) lvl path = Some (row_allowed r))
      by (apply IH; intros q Hq'; apply Hpre; now right).
    destruct (String.eqb_spec ap lvl) as [E|_]; [|exact IH'].
    destruct al; simpl.
    + destruct (String.eqb_spec lvl path) as [E'|_]; simpl.
      * exfalso. apply Hq. split; [exact E | now right; right].
      * destruct pr; [|exact IH'].
        exfalso. apply Hq. split; [exact E | now right; left].
    + exfalso. apply Hq. split; [exact E | now left].
Qed.

Lemma traverse_first_decisive indices comps aces path :
  traverse indices comps aces path
  = first_decisive aces path (map (level comps) indices).
Proof.
  induction indices as [|i indices IH]; simpl; [reflexivity|].
  now rewrite IH.
Qed.

Lemma resolve_levels aces path levels :
  path_levels path = Returned levels ->
  resolve aces path = Returned (first_decisive aces path levels).
Proof.
  unfold path_levels, resolve.
  destruct (UrlParse.urlparse_path path) as [parsed|e]; [|discriminate].
  intros [= <-]. now rewrite traverse_first_decisive.
Qed.

Lemma first_decisive_skip aces path deeper levels :
  (forall r, In r aces -> ~ In (row_path r) deeper) ->
  first_decisive aces path (deeper ++ levels) = first_decisive aces path levels.
Proof.
  induction deeper as [|lvl deeper IH]; intros H; simpl; [reflexivity|].
  rewrite scan_aces_no_match.
  - apply IH. intros r Hr Hin. apply (H r Hr). now right.
  - intros r Hr E. apply (H r Hr). now left.
Qed.

Lemma first_decisive_no_match aces path levels :
  (forall r, In r aces -> ~ In (row_path r) levels) ->
  first_decisive aces path levels = false.
Proof.
  intros H. rewrite <- (app_nil_r levels).
  now rewrite first_decisive_skip.
Qed.

End Resolver.

Section EngineOrder.

Context {A : Type}.

Lemma nth_split_at (l : list A) (i : nat) (d : A) :
  i < List.length l ->
  l = firstn i l ++ nth i l d :: skipn (S i) l.
Proof.
  revert i. induction l as [|x l IH]; intros i Hi; [simpl in Hi; lia|].
  destruct i as [|i]; [reflexivity|].
  cbn [firstn nth skipn app]. f_equal. apply IH. simpl in Hi. lia.
Qed.

(** Whatever the picks, the rows are the same rows. *)
Lemma arrange_perm (picks : list nat) (l : list A) :
  Permutation (arrange picks l) l.
Proof.
  revert l. induction picks as [|k picks IH]; intros l.
  - destruct l; apply Permutation_refl.
  - destruct l as [|x l]; [apply Permutation_refl|].
    cbn [arrange].
    set (i := k mod S (List.length l)).
    assert (Hi : i < List.length (x :: l))
      by (apply Nat.mod_upper_bound; discriminate).
    pose proof (nth_split_at (x :: l) i x Hi) as E.
    eapply Permutation_trans; [apply perm_skip, IH|].
    eapply Permutation_trans; [apply Permutation_middle|].
    rewrite <- E. apply Permutation_refl.
Qed.

Lemma arrange_nil (picks : list nat) : arrange picks (@nil A) = [].
Proof. destruct picks; reflexivity. Qed.

Lemma arrange_single (picks : list nat) (x : A) : arrange picks [x] = [x].
Proof.
  destruct picks as [|k picks]; [reflexivity|].
  cbn [arrange List.length]. rewrite Nat.mod_1_r. cbn.
  now rewrite arrange_nil.
Qed.

(** Every order of the rows is the order some picks describe. *)
Lemma arrange_complete (l l' : list A) :
  Permutation l l' -> exists picks, arrange picks l = l'.
Proof.
  revert l. induction l' as [|y l' IH]; intros l Hperm.
  - apply Permutation_sym, Permutation_nil in Hperm. subst l.
    now exists [].
  - assert (Hin : In y l)
      by (eapply Permutation_in; [apply Permutation_sym, Hperm | now left]).
    apply in_split in Hin. destruct Hin as (l1 & l2 & ->).
    apply Permutation_sym, Permutation_cons_app_inv, Permutation_sym in Hperm.
    destruct (IH _ Hperm) as (picks & Hpicks).
    exists (List.length l1 :: picks).
    assert (Hf : firstn (List.length l1) (l1 ++ y :: l2) = l1)
      by (clear; induction l1 as [|a l1 IHl]; cbn; [reflexivity | now rewrite IHl]).
    assert (Hs : skipn (S (List.length l1)) (l1 ++ y :: l2) = l2)
      by (clear; induction l1 as [|a l1 IHl]; cbn; [reflexivity | exact IHl]).
    destruct (l1 ++ y :: l2) as [|x0 rest] eqn:El; [destruct l1; discriminate|].
    assert (Hlen : List.length l1 < S (List.length rest)).
    { change (S (List.length rest)) with (List.length (x0 :: rest)).
      rewrite <- El, length_app. cbn [List.length]. lia. }
    cbn [arrange]. rewrite (Nat.mod_small _ _ Hlen), Hf, Hs, Hpicks.
    f_equal. rewrite <- El. apply nth_middle.
Qed.

End EngineOrder.

Lemma candidate_rows_perm (st : State) (user_id : UUID)
      (privilege_name : string) :
  Permutation (candidate_rows st user_id privilege_name)
              (joined_rows (session st) user_id privilege_name).
Proof.
  unfold candidate_rows.
  eapply Permutation_trans; [apply order_by_path_desc_perm | apply arrange_perm].
Qed.

Lemma check_user_has_privilege_resolve (st : State) (user_id : UUID)
      (path privilege_name : string) :
  check_user_has_privilege user_id path privilege_name st
  = (resolve (candidate_rows st user_id privilege_name) path, st).
Proof.
  unfold check_user_has_privilege, select_aces, bind, get_session,
    get_row_order, ret, lift.
  reflexivity.
Qed.

(* ================================================================== *)
(** ** The permission resolver *)

(** C4, as amended (default deny).  Whenever [urlparse] accepts the path,
    so that the path has ancestor levels, and no candidate entry of the
    user and privilege is attached to any of them,
    [check_user_has_privilege] returns [False]: it raises nothing and
    leaves the state as it was.  A user or privilege with no candidate
    entry at all is the special case.  The method has no error of its own
    for a missing rule: a call raises exactly when [urlparse] raises on
    the path, with the exception of [urlparse], whatever the candidate
    entries are. *)
Theorem check_privilege_default_deny (st : State) (user_id : UUID)
        (path privilege_name : string) :
  (forall levels : list string,
      path_levels path = Returned levels ->
      (forall r, In r (joined_rows (session st) user_id privilege_name) ->
                 ~ In (row_path r) levels) ->
      check_user_has_privilege user_id path privilege_name st
      = (Returned false, st)) /\
  (forall e : exception,
      fst (check_user_has_privilege user_id path privilege_name st) = Raised e ->
      UrlParse.urlparse_path path = Raised e) /\
  (forall e : exception,
      UrlParse.urlparse_path path = Raised e ->
      check_user_has_privilege user_id path privilege_name st = (Raised e, st)).
Proof.
  rewrite check_user_has_privilege_resolve. split; [|split].
  - intros levels Hlv Hno.
    rewrite (resolve_levels _ _ _ Hlv).
    rewrite first_decisive_no_match; [reflexivity|].
    intros r Hr. apply Hno.
    eapply Permutation_in; [apply candidate_rows_perm | exact Hr].
  - intros e. unfold resolve. simpl.
    destruct (UrlParse.urlparse_path path); simpl; intros H;
      [discriminate H | now injection H as ->].
  - intros e He. unfold resolve. now rewrite He.
Qed.

(** Witness: alice has an entry at another path, bob one at a level of the
    queried path. *)
Lemma check_privilege_default_deny_witness :
  check_user_has_privilege 1 "/p1/nodeA" "Node.Start"
    (Sample.state [Sample.ace 30 "/p2" 1 20 true true;
                   Sample.ace 31 "/p1" 2 20 true true])
  = (Returned false,
     Sample.state [Sample.ace 30 "/p2" 1 20 true true;
                   Sample.ace 31 "/p1" 2 20 true true]).
Proof.
  apply (proj1 (check_privilege_default_deny _ 1%N "/p1/nodeA" "Node.Start")
               ["/p1/nodeA"; "/p1"; "/"]).
  - reflexivity.
  - vm_compute. intros r [<-|[]] [H|[H|[H|[]]]]; discriminate H.
Defined.

(** C4, counterexample.  No ACE is stored, so the candidate set of alice
    matches no level of any path; the check of the path ["//["], which
    [urlparse] rejects, does not return [False] but raises
    [ValueError]. *)
Lemma malformed_path_raises_counterexample :
  let st := Sample.state [] in
  joined_rows (session st) 1 "Node.Start" = [] /\
  check_user_has_privilege 1 "//[" "Node.Start" st
  = (Raised (ValueError "Invalid IPv6 URL"), st).
Proof. cbv zeta. split; reflexivity. Qed.

Lemma read_only_ret {A : Type} (a : A) : read_only (ret a).
Proof. intros st. reflexivity. Qed.

Lemma read_only_lift {A : Type} (o : outcome A) : read_only (lift o).
Proof. intros st. reflexivity. Qed.

Lemma read_only_get_session : read_only get_session.
Proof. intros st. reflexivity. Qed.

Lemma read_only_bind {A B : Type} (m : Repo A) (f : A -> Repo B) :
  read_only m -> (forall a, read_only (f a)) -> read_only (bind m f).
Proof.
  intros Hm Hf st. unfold bind.
  specialize (Hm st). destruct (m st) as [[a|e] st']; simpl in Hm; subst st'.
  - apply Hf.
  - reflexivity.
Qed.

Lemma read_only_select_aces (user_id : UUID) (privilege_name : string) :
  read_only (select_aces user_id privilege_name).
Proof.
  unfold select_aces. apply read_only_bind.
  - apply read_only_get_session.
  - intros d. apply read_only_bind.
    + intros st. reflexivity.
    + intros picks. apply read_only_ret.
Qed.

(** C9 (read-only).  Whatever the user, path and privilege, and whether
    the call returns or [urlparse] raises, the state after
    [check_user_has_privilege] is the state before it: the session's view
    of every relation, the committed database, the clock and the log.
    The method is a query followed by a scan, and neither writes. *)
Theorem check_privilege_read_only (st : State) (user_id : UUID)
        (path privilege_name : string) :
  snd (check_user_has_privilege user_id path privilege_name st) = st.
Proof.
  revert st. change (read_only (check_user_has_privilege
                                  user_id path privilege_name)).
  unfold check_user_has_privilege.
  apply read_only_bind.
  - apply read_only_select_aces.
  - intros aces. apply read_only_lift.
Qed.

(** C1, as amended.  Let [lvl] be the most specific level of the path
    that carries a candidate entry.  The scan of that level stops at its
    first decisive entry (a deny, or an allow that propagates or sits at
    the queried path itself) and the call returns that entry's [allowed]
    flag: [False] when a deny is scanned before every decisive allow of
    the level, [True] when a decisive allow is scanned before every deny.
    This holds for every scan order [aces], in particular for the order
    in which the query returns the candidate rows in a state. *)
Theorem first_decisive_entry_decides (aces pre post : list AceRow)
        (r : AceRow) (path lvl : string) :
  most_specific_matching_level aces path lvl ->
  aces = pre ++ r :: post ->
  decisive lvl path r ->
  (forall q, In q pre -> ~ decisive lvl path q) ->
  resolve aces path = Returned (row_allowed r) /\
  (forall st user_id privilege_name,
      candidate_rows st user_id privilege_name = aces ->
      check_user_has_privilege user_id path privilege_name st
      = (Returned (row_allowed r), st)).
Proof.
  intros (deeper & shallower & Hlv & Hdeep & _) Haces Hdec Hpre.
  assert (H : resolve aces path = Returned (row_allowed r)).
  { rewrite (resolve_levels _ _ _ Hlv).
    rewrite first_decisive_skip by exact Hdeep.
    simpl.
    now rewrite (scan_aces_first_decisive _ _ _ _ _ _ Haces Hdec Hpre). }
  split; [exact H|].
  intros st user_id privilege_name Hq.
  rewrite check_user_has_privilege_resolve, Hq, H. reflexivity.
Qed.

(** Witness: a deny scanned before a propagating allow at ["/p1"], queried
    below it. *)
Lemma first_decisive_entry_decides_witness :
  resolve [("/p1", false, false, "Node.Start");
           ("/p1", true, true, "Node.Start")] "/p1/nodeA"
  = Returned false.
Proof.
  refine (proj1 (first_decisive_entry_decides
                   [("/p1", false, false, "Node.Start");
                    ("/p1", true, true, "Node.Start")]
                   [] [("/p1", true, true, "Node.Start")]
                   ("/p1", false, false, "Node.Start")
                   "/p1/nodeA" "/p1" _ _ _ _)).
  - exists ["/p1/nodeA"], ["/"]. split; [reflexivity|]. split.
    + intros q [<-|[<-|[]]] [H|[]]; discriminate H.
    + exists ("/p1", false, false, "Node.Start"). split; [now left | reflexivity].
  - reflexivity.
  - split; [reflexivity | now left].
  - intros q [].
Defined.

(** C1, counterexample.  Two ACEs of one user at ["/p1"], a deny stored
    before an allow.  Both are candidate entries of the query ["/p1"] and
    ["/p1"] is its most specific matching level.  The query orders the
    rows by path only: when the engine produces the row stored last
    first, the scan meets the allow before the deny and the call returns
    [True]. *)
Lemma allow_scanned_first_counterexample :
  let st := Sample.state_in_order
              [1] [Sample.ace 30 "/p1" 1 20 false false;
                   Sample.ace 31 "/p1" 1 20 true false] in
  joined_rows (session st) 1 "Node.Start"
  = [("/p1", false, false, "Node.Start");
     ("/p1", false, true, "Node.Start")] /\
  candidate_rows st 1 "Node.Start"
  = [("/p1", false, true, "Node.Start");
     ("/p1", false, false, "Node.Start")] /\
  most_specific_matching_level (candidate_rows st 1 "Node.Start")
                               "/p1" "/p1" /\
  check_user_has_privilege 1 "/p1" "Node.Start" st = (Returned true, st).
Proof.
  cbv zeta. split; [reflexivity|]. split; [reflexivity|].
  split; [|reflexivity].
  exists [], ["/"]. split; [reflexivity|]. split.
  - intros q _ [].
  - eexists. split; [left; reflexivity | reflexivity].
Qed.

(* ================================================================== *)
(** ** Splitting and joining paths *)

Section Paths.

Lemma str_split_cons (sep : ascii) (s : string) :
  exists h t, str_split sep s = h :: t.
Proof.
  induction s as [|c s (h & t & IH)]; simpl.
  - now exists EmptyString, [].
  - destruct (Ascii.eqb c sep); [now eauto|].
    rewrite IH. now eauto.
Qed.

Lemma str_join_cons2 (sep x y : string) (l : list string) :
  str_join sep (x :: y :: l) = (x ++ sep ++ str_join sep (y :: l))%string.
Proof. reflexivity. Qed.

(** ["/".join(s.split("/")) == s] *)
Lemma str_join_split (s : string) :
  str_join "/" (str_split "/" s) = s.
Proof.
  induction s as [|c s IH]; simpl; [reflexivity|].
  destruct (str_split_cons "/" s) as (h & t & E).
  rewrite E in *.
  destruct (Ascii.eqb_spec c "/") as [->|_].
  - rewrite str_join_cons2, IH. reflexivity.
  - destruct t as [|y t].
    + simpl in *. now rewrite IH.
    + rewrite <- IH. reflexivity.
Qed.

Lemma str_split_length (s : string) :
  List.length (str_split "/" s) = S (count_slashes s).
Proof.
  induction s as [|c s IH]; simpl; [reflexivity|].
  destruct (Ascii.eqb c "/"); simpl; [now rewrite IH|].
  destruct (str_split_cons "/" s) as (h & t & E).
  rewrite E in *. simpl in *. exact IH.
Qed.

Lemma str_split_no_slash (s x : string) :
  In x (str_split "/" s) -> str_contains "/" x = false.
Proof.
  revert x. induction s as [|c s IH]; simpl; intros x Hx.
  - destruct Hx as [<-|[]]. reflexivity.
  - destruct (Ascii.eqb_spec c "/") as [->|Hc].
    + destruct Hx as [<-|Hx]; [reflexivity | now apply IH].
    + destruct (str_split_cons "/" s) as (h & t & E).
      rewrite E in *. destruct Hx as [<-|Hx].
      * simpl. rewrite (IH h (or_introl eq_refl)).
        apply Ascii.eqb_neq in Hc. now rewrite Hc.
      * apply IH. now right.
Qed.

Lemma str_contains_app_slash (s x : string) :
  str_contains "/" (s ++ "/" ++ x) = true.
Proof.
  induction s as [|c s IH]; simpl in *; [reflexivity|].
  rewrite IH. apply orb_true_r.
Qed.

Lemma before_last_slash_app (s x : string) :
  str_contains "/" x = false ->
  before_last_slash (s ++ "/" ++ x) = s.
Proof.
  intros Hx. induction s as [|c s IH]; simpl in *.
  - now rewrite Hx.
  - pose proof (str_contains_app_slash s x) as Hc. simpl in Hc.
    now rewrite Hc, IH.
Qed.

Lemma str_app_assoc (s1 s2 s3 : string) :
  ((s1 ++ s2) ++ s3 = s1 ++ (s2 ++ s3))%string.
Proof.
  induction s1 as [|c s1 IH]; simpl; [reflexivity | now rewrite IH].
Qed.

Lemma str_join_snoc (l : list string) (x : string) :
  l <> [] ->
  str_join "/" (l ++ [x]) = (str_join "/" l ++ "/" ++ x)%string.
Proof.
  induction l as [|a l IH]; intros Hl; [congruence|].
  destruct l as [|b l].
  - reflexivity.
  - change ((a :: b :: l) ++ [x]) with (a :: b :: (l ++ [x])).
    rewrite !str_join_cons2.
    change (b :: l ++ [x]) with ((b :: l) ++ [x]).
    rewrite IH by discriminate.
    rewrite !str_app_assoc. reflexivity.
Qed.

Lemma app_slash_nonempty (s x : string) :
  String.eqb (s ++ "/" ++ x) "" = false.
Proof. destruct s; reflexivity. Qed.

(** Dropping the last segment of the level at index [k + 1] gives the level
    at index [k]. *)
Lemma parent_path_level (comps : list string) (k : nat) :
  (forall x, In x comps -> str_contains "/" x = false) ->
  1 <= k -> k < List.length comps ->
  parent_path (level comps (S k)) = level comps k.
Proof.
  intros Hns Hk Hlen.
  assert (E : firstn (S k) comps
              = firstn k comps ++ [nth k comps EmptyString]).
  { clear Hns Hk. revert comps Hlen.
    induction k as [|k IH]; intros [|c comps] Hlen; simpl in *; try lia.
    - reflexivity.
    - f_equal. apply IH. lia. }
  assert (Hne : firstn k comps <> []).
  { destruct comps as [|c comps]; [simpl in Hlen; lia|].
    destruct k; [lia | discriminate]. }
  unfold level at 1. rewrite E, str_join_snoc by exact Hne.
  rewrite app_slash_nonempty.
  unfold parent_path. rewrite before_last_slash_app.
  - reflexivity.
  - apply Hns. apply nth_In. exact Hlen.
Qed.

Lemma range_down_succ (n : nat) :
  range_down (S n) = S n :: range_down n.
Proof.
  unfold range_down. rewrite seq_S, rev_app_distr. reflexivity.
Qed.

Lemma levels_chain_from (comps : list string) (k : nat) :
  (forall x, In x comps -> str_contains "/" x = false) ->
  1 <= k -> k <= List.length comps ->
  map (level comps) (range_down k) = chain_from k (level comps k).
Proof.
  intros Hns Hk Hlen.
  induction k as [|k IH]; [lia|].
  rewrite range_down_succ. simpl. f_equal.
  destruct k as [|k]; [reflexivity|].
  rewrite parent_path_level by (auto; lia).
  apply IH; lia.
Qed.

(** The levels the loop examines are the ancestor chain of the
    specification, for every non-empty parsed path. *)
Lemma ancestor_levels_chain (p : string) :
  p <> EmptyString ->
  ancestor_levels (str_split "/" p) = ancestor_chain p.
Proof.
  intros Hp. unfold ancestor_levels, ancestor_chain.
  rewrite levels_chain_from.
  - rewrite str_split_length. f_equal.
    unfold level. rewrite <- str_split_length, firstn_all, str_join_split.
    destruct (String.eqb_spec p ""); [contradiction | reflexivity].
  - intros x. apply str_split_no_slash.
  - rewrite str_split_length. lia.
  - lia.
Qed.

Lemma prefix_slash_inv (p : string) :
  String.prefix "/" p = true -> exists p', p = String "/" p'.
Proof.
  destruct p as [|c p]; cbn [String.prefix]; [discriminate|].
  destruct (ascii_dec "/" c) as [<-|]; [now eauto | discriminate].
Qed.

Lemma ancestor_levels_last_root (p : string) :
  String.prefix "/" p = true ->
  last (ancestor_levels (str_split "/" p)) EmptyString = "/".
Proof.
  intros Hp. unfold ancestor_levels.
  rewrite str_split_length, range_down_succ.
  destruct (prefix_slash_inv p Hp) as [p' ->]. clear Hp.
  simpl str_split.
  generalize (count_slashes (String "/" p')). intros n.
  induction n as [|n IH]; [reflexivity|].
  rewrite range_down_succ.
  change (map ?f (?a :: ?b :: ?l)) with (f a :: map f (b :: l)).
  rewrite <- IH. reflexivity.
Qed.

(** [urlparse] returns a plain absolute path as it is. *)
Lemma remove_unsafe_plain (s : string) :
  UrlParse.str_forallb plain_char s = true -> UrlParse.remove_unsafe s = s.
Proof.
  induction s as [|c s IH]; simpl; [reflexivity|].
  unfold plain_char at 1. intros H.
  apply andb_prop in H. destruct H as [Hc Hs].
  destruct (UrlParse.is_unsafe c); [discriminate Hc|].
  now rewrite IH.
Qed.

Lemma break_at_plain (stop : ascii -> bool) (s : string) :
  (forall c, plain_char c = true -> stop c = false) ->
  UrlParse.str_forallb plain_char s = true ->
  UrlParse.break_at stop s = (s, EmptyString).
Proof.
  intros Hstop. induction s as [|c s IH]; simpl; [reflexivity|].
  intros H. apply andb_prop in H. destruct H as [Hc Hs].
  now rewrite (Hstop c Hc), (IH Hs).
Qed.

Lemma strip_params_plain (s : string) :
  UrlParse.str_forallb plain_char s = true -> UrlParse.strip_params s = s.
Proof.
  induction s as [|c s IH]; simpl; [reflexivity|].
  intros H. apply andb_prop in H. destruct H as [Hc Hs].
  unfold plain_char in Hc.
  destruct (Ascii.eqb c ";"); [now rewrite !andb_false_r in Hc|].
  simpl. now rewrite IH.
Qed.

Lemma urlparse_path_plain (p : string) :
  plain_path p = true -> UrlParse.urlparse_path p = Returned p.
Proof.
  unfold plain_path. intros H.
  apply andb_prop in H. destruct H as [H Hplain].
  apply andb_prop in H. destruct H as [Hslash Hdouble].
  apply negb_true_iff in Hdouble.
  destruct (prefix_slash_inv p Hslash) as [rest ->].
  unfold UrlParse.urlparse_path.
  change (UrlParse.lstrip_c0_or_space (String "/" rest))
    with (String "/" rest).
  rewrite (remove_unsafe_plain _ Hplain).
  assert (Hscheme : UrlParse.split_scheme (String "/" rest)
                    = (EmptyString, String "/" rest)).
  { unfold UrlParse.split_scheme. simpl.
    destruct (UrlParse.partition_at (Ascii.eqb ":") rest) as [[b a]|];
      reflexivity. }
  rewrite Hscheme. unfold UrlParse.split_netloc. rewrite Hdouble.
  assert (Hstop : forall c, plain_char c = true ->
                            Ascii.eqb "#" c = false /\ Ascii.eqb "?" c = false).
  { intros c Hc. unfold plain_char in Hc.
    apply andb_prop in Hc. destruct Hc as [Hc _].
    apply andb_prop in Hc. destruct Hc as [Hc H2].
    apply andb_prop in Hc. destruct Hc as [_ H1].
    apply negb_true_iff in H1, H2. now split. }
  rewrite (break_at_plain (Ascii.eqb "#"))
    by (first [exact Hplain | intros c Hc; apply (Hstop c Hc)]).
  cbn [fst].
  rewrite (break_at_plain (Ascii.eqb "?"))
    by (first [exact Hplain | intros c Hc; apply (Hstop c Hc)]).
  cbn [fst]. now rewrite (strip_params_plain _ Hplain).
Qed.

End Paths.

Lemma first_decisive_single (ace_path name path : string) (propagate : bool)
      (levels : list string) :
  first_decisive [(ace_path, propagate, true, name)] path levels = true
  <-> In ace_path levels /\ (propagate = true \/ ace_path = path).
Proof.
  induction levels as [|lvl levels IH]; simpl.
  - split; [discriminate | intros [[] _]].
  - destruct (String.eqb_spec ace_path lvl) as [<-|Hne]; simpl.
    + destruct (String.eqb_spec ace_path path) as [<-|Hp]; simpl.
      * split; [intros _|reflexivity]. split; [now left | now right].
      * destruct propagate.
        -- split; [intros _|reflexivity]. split; now left.
        -- rewrite IH. split.
           ++ intros [_ [H|H]]; [discriminate H | contradiction].
           ++ intros [_ [H|H]]; [discriminate H | contradiction].
    + rewrite IH. split.
      * intros [H1 H2]. split; [now right | exact H2].
      * intros [[H1|H1] H2]; [congruence | now split].
Qed.

Lemma scan_aces_filter (aces : list AceRow) (lvl path : string) :
  scan_aces aces lvl path
  = scan_aces (filter (fun r => String.eqb (row_path r) lvl) aces) lvl path.
Proof.
  induction aces as [|[[[ap pr] al] pn] aces IH]; simpl; [reflexivity|].
  unfold row_path at 1. simpl.
  destruct (String.eqb ap lvl) eqn:E; simpl; [|exact IH].
  rewrite E. destruct al; simpl; [|reflexivity].
  destruct (String.eqb lvl path || pr); [reflexivity | exact IH].
Qed.

Lemma filter_permutation {A : Type} (f : A -> bool) (l l' : list A) :
  Permutation l l' -> Permutation (filter f l) (filter f l').
Proof.
  induction 1 as [|x l l' _ IH|x y l|l l' l'' _ IH1 _ IH2]; simpl.
  - constructor.
  - destruct (f x); [now constructor | exact IH].
  - destruct (f x), (f y); try apply Permutation_refl. apply perm_swap.
  - eapply Permutation_trans; eassumption.
Qed.

(** The entries of the query at one level, when the candidate set is made
    of [known] entries and of others that are attached elsewhere. *)
Lemma candidates_at_level (aces rows known others : list AceRow)
      (lvl : string) :
  Permutation aces rows ->
  Permutation rows (known ++ others) ->
  (forall r, In r others -> row_path r <> lvl) ->
  Permutation (filter (fun r => String.eqb (row_path r) lvl) known)
              (filter (fun r => String.eqb (row_path r) lvl) aces).
Proof.
  intros Haces Hperm Hothers.
  assert (Hnil : filter (fun r => String.eqb (row_path r) lvl) others = []).
  { clear Hperm. induction others as [|r others IH]; simpl; [reflexivity|].
    destruct (String.eqb_spec (row_path r) lvl) as [E|_].
    - exfalso. apply (Hothers r); [now left | exact E].
    - apply IH. intros q Hq. apply Hothers. now right. }
  rewrite <- (app_nil_r (filter _ known)), <- Hnil, <- filter_app.
  apply filter_permutation. apply Permutation_sym.
  eapply Permutation_trans; [exact Haces | exact Hperm].
Qed.

(** C2, as amended (most specific level wins).  Let the candidate entries
    hold an allow with propagation at ["/p1"] and a deny at
    ["/p1/nodeA"], stored and produced in whatever order, next to any
    entries attached to other paths than these two and ["/p1/nodeB"].
    Then the check of ["/p1/nodeA"] returns [False] and that of
    ["/p1/nodeB"] returns [True].  More generally, for every path that
    begins with [/] and that [urlparse] leaves as it is, the levels
    examined are the ancestor chain of the specification, from the full
    path down to the root, and the call returns the decision of the first
    level that decides.  Every plain absolute path is such a path. *)
Theorem most_specific_level_wins :
  (forall (st : State) (user_id : UUID) (privilege_name : string)
          (deny_propagate : bool) (others : list AceRow),
      Permutation (joined_rows (session st) user_id privilege_name)
                  ([("/p1", true, true, privilege_name);
                    ("/p1/nodeA", deny_propagate, false, privilege_name)]
                   ++ others) ->
      (forall r, In r others ->
                 ~ In (row_path r) ["/p1/nodeA"; "/p1/nodeB"; "/p1"]) ->
      check_user_has_privilege user_id "/p1/nodeA" privilege_name st
      = (Returned false, st) /\
      check_user_has_privilege user_id "/p1/nodeB" privilege_name st
      = (Returned true, st)) /\
  (forall (aces : list AceRow) (path : string),
      UrlParse.urlparse_path path = Returned path ->
      String.prefix "/" path = true ->
      path_levels path = Returned (ancestor_chain path) /\
      hd_error (ancestor_chain path) = Some path /\
      last (ancestor_chain path) EmptyString = "/" /\
      resolve aces path
      = Returned (first_decisive aces path (ancestor_chain path))) /\
  (forall path : string,
      plain_path path = true ->
      UrlParse.urlparse_path path = Returned path /\
      String.prefix "/" path = true).
Proof.
  split; [|split].
  - intros st user_id privilege_name deny_propagate others Hperm Hothers.
    rewrite !check_user_has_privilege_resolve.
    set (aces := candidate_rows st user_id privilege_name).
    assert (Hat : forall lvl,
               In lvl ["/p1/nodeA"; "/p1/nodeB"; "/p1"] ->
               Permutation
                 (filter (fun r => String.eqb (row_path r) lvl)
                         [("/p1", true, true, privilege_name);
                          ("/p1/nodeA", deny_propagate, false, privilege_name)])
                 (filter (fun r => String.eqb (row_path r) lvl) aces)).
    { intros lvl Hlvl.
      apply (candidates_at_level
               aces (joined_rows (session st) user_id privilege_name)
               _ others);
        [apply candidate_rows_perm | exact Hperm |].
      intros r Hr E. apply (Hothers r Hr). now rewrite E. }
    split.
    + rewrite (resolve_levels aces "/p1/nodeA" ["/p1/nodeA"; "/p1"; "/"])
        by reflexivity.
      simpl. rewrite scan_aces_filter.
      rewrite (Permutation_length_1_inv (Hat "/p1/nodeA" ltac:(simpl; auto))).
      reflexivity.
    + rewrite (resolve_levels aces "/p1/nodeB" ["/p1/nodeB"; "/p1"; "/"])
        by reflexivity.
      simpl. rewrite scan_aces_filter.
      rewrite (Permutation_nil (Hat "/p1/nodeB" ltac:(simpl; auto))).
      simpl. rewrite scan_aces_filter.
      rewrite (Permutation_length_1_inv (Hat "/p1" ltac:(simpl; auto))).
      reflexivity.
  - intros aces path Hurl Hpre.
    assert (Hne : path <> EmptyString)
      by (destruct (prefix_slash_inv path Hpre) as [p' ->]; discriminate).
    assert (Hlv : path_levels path = Returned (ancestor_chain path)).
    { unfold path_levels. rewrite Hurl.
      now rewrite ancestor_levels_chain. }
    split; [exact Hlv|]. split; [reflexivity|]. split.
    + rewrite <- ancestor_levels_chain by exact Hne.
      now apply ancestor_levels_last_root.
    + now apply resolve_levels.
  - intros path Hplain. split; [now apply urlparse_path_plain|].
    unfold plain_path in Hplain.
    apply andb_prop in Hplain. destruct Hplain as [Hplain _].
    apply andb_prop in Hplain. now destruct Hplain.
Qed.

(** Witness: the two entries of the scenario, stored with the deny last,
    next to an entry at the root and an entry of another project, the
    engine producing the rows in an order of its own. *)
Lemma most_specific_level_wins_witness :
  (let st := Sample.state_in_order
               [2; 0; 1]
               [Sample.ace 32 "/" 1 20 false true;
                Sample.ace 30 "/p1" 1 20 true true;
                Sample.ace 33 "/p2" 1 20 false true;
                Sample.ace 31 "/p1/nodeA" 1 20 false false] in
   check_user_has_privilege 1 "/p1/nodeA" "Node.Start" st
   = (Returned false, st) /\
   check_user_has_privilege 1 "/p1/nodeB" "Node.Start" st
   = (Returned true, st)) /\
  path_levels "/p1/nodeA" = Returned ["/p1/nodeA"; "/p1"; "/"].
Proof.
  destruct most_specific_level_wins as [Hscenario [Hgeneral Hplain]].
  split.
  - apply (Hscenario _ 1%N "Node.Start" false
                     [("/", true, false, "Node.Start");
                      ("/p2", true, false, "Node.Start")]).
    + vm_compute.
      apply (Permutation_cons_app
               [("/p1", true, true, "Node.Start");
                ("/p1/nodeA", false, false, "Node.Start")]
               [("/p2", true, false, "Node.Start")]).
      simpl. apply perm_skip. apply perm_swap.
    + intros r [<-|[<-|[]]] [H|[H|[H|[]]]]; discriminate H.
  - apply (Hgeneral [] "/p1/nodeA"); apply (Hplain "/p1/nodeA"); reflexivity.
Defined.

(** C2, counterexample.  The levels examined are those of the path as
    [urlparse] returns it.  For ["p1/nodeA"], which does not begin with
    [/], they stop at ["p1"]: the root is never examined, and alice, whom
    a propagating entry allows at ["/"], is denied.  For ["/p1?x=1"] they
    begin at ["/p1"]: the full path is never examined, and alice, whom an
    entry allows at exactly that path, is denied. *)
Lemma levels_not_ancestor_chain_counterexample :
  (let st := Sample.state [Sample.ace 30 "/" 1 20 true true] in
   path_levels "p1/nodeA" = Returned ["p1/nodeA"; "p1"] /\
   check_user_has_privilege 1 "p1/nodeA" "Node.Start" st
   = (Returned false, st)) /\
  (let st := Sample.state [Sample.ace 30 "/p1?x=1" 1 20 true false] in
   path_levels "/p1?x=1" = Returned ["/p1"; "/"] /\
   check_user_has_privilege 1 "/p1?x=1" "Node.Start" st
   = (Returned false, st)).
Proof. cbv zeta. repeat split; reflexivity. Qed.

(** C3 (exact-path allow and propagation).  With the single candidate
    entry ["/p1"], [allowed = true]: without propagation the check of
    ["/p1"] returns [True] and that of ["/p1/nodeA"] returns [False]; with
    propagation the check of ["/p1/nodeA"] returns [True].  More
    generally, with a single allowing candidate entry at [ace_path] the
    check of a path returns [True] exactly when [ace_path] is one of the
    levels of the path and the entry propagates or [ace_path] is the
    queried path itself. *)
Theorem single_allow_entry :
  (forall (st : State) (user_id : UUID) (privilege_name : string)
          (propagate : bool),
      joined_rows (session st) user_id privilege_name
      = [("/p1", propagate, true, privilege_name)] ->
      (propagate = false ->
       check_user_has_privilege user_id "/p1" privilege_name st
       = (Returned true, st) /\
       check_user_has_privilege user_id "/p1/nodeA" privilege_name st
       = (Returned false, st)) /\
      (propagate = true ->
       check_user_has_privilege user_id "/p1/nodeA" privilege_name st
       = (Returned true, st))) /\
  (forall (st : State) (user_id : UUID) (privilege_name ace_path : string)
          (propagate : bool) (path : string) (levels : list string),
      joined_rows (session st) user_id privilege_name
      = [(ace_path, propagate, true, privilege_name)] ->
      path_levels path = Returned levels ->
      exists b : bool,
        check_user_has_privilege user_id path privilege_name st
        = (Returned b, st) /\
        (b = true <->
         In ace_path levels /\ (propagate = true \/ ace_path = path))).
Proof.
  split.
  - intros st user_id privilege_name propagate Hrows.
    rewrite !check_user_has_privilege_resolve.
    unfold candidate_rows. rewrite Hrows, arrange_single.
    split; intros ->; repeat split; reflexivity.
  - intros st user_id privilege_name ace_path propagate path levels Hrows Hlv.
    rewrite check_user_has_privilege_resolve.
    unfold candidate_rows. rewrite Hrows, arrange_single.
    simpl order_by_path_desc.
    rewrite (resolve_levels _ _ _ Hlv).
    eexists. split; [reflexivity|].
    apply first_decisive_single.
Qed.

Lemma single_allow_entry_witness :
  (let st := Sample.state [Sample.ace 30 "/p1" 1 20 true false] in
   check_user_has_privilege 1 "/p1" "Node.Start" st = (Returned true, st) /\
   check_user_has_privilege 1 "/p1/nodeA" "Node.Start" st
   = (Returned false, st)) /\
  (let st := Sample.state [Sample.ace 30 "/p1" 1 20 true true] in
   check_user_has_privilege 1 "/p1/nodeA" "Node.Start" st
   = (Returned true, st)) /\
  (let st := Sample.state [Sample.ace 30 "/p1" 1 20 true true] in
   exists b : bool,
     check_user_has_privilege 1 "/p1/x/y" "Node.Start" st = (Returned b, st) /\
     (b = true <->
      In "/p1" ["/p1/x/y"; "/p1/x"; "/p1"; "/"] /\ (true = true \/ "/p1" = "/p1/x/y"))).
Proof.
  destruct single_allow_entry as [Hscenario Hgeneral].
  split; [|split].
  - apply (Hscenario (Sample.state [Sample.ace 30 "/p1" 1 20 true false])
                     1%N "Node.Start" false); reflexivity.
  - apply (Hscenario (Sample.state [Sample.ace 30 "/p1" 1 20 true true])
                     1%N "Node.Start" true); reflexivity.
  - apply (Hgeneral (Sample.state [Sample.ace 30 "/p1" 1 20 true true])
                    1%N "Node.Start" "/p1" true "/p1/x/y"); reflexivity.
Defined.

(* ================================================================== *)
(** ** The entity store *)

Lemma check_ace_exists_iff (st : State) (path : string) :
  exists b : bool,
    check_ace_exists path st = (Returned b, st) /\
    (b = true <->
     exists a : ACE.t, In a (aces (session st)) /\ ACE.path a = path).
Proof.
  unfold check_ace_exists, bind, get_session, ret.
  eexists. split; [reflexivity|].
  induction (aces (session st)) as [|a l IH]; simpl.
  - split; [discriminate | intros (a & [] & _)].
  - destruct (String.eqb_spec (ACE.path a) path) as [E|N]; simpl.
    + split; [intros _|reflexivity]. exists a. split; [now left | exact E].
    + rewrite IH. split.
      * intros (b & Hb & E). exists b. split; [now right | exact E].
      * intros (b & [<-|Hb] & E); [contradiction|]. now exists b.
Qed.

(** C10 ([check_ace_exists] tests the path only).  The call changes
    nothing and returns [True] exactly when some stored ACE has a path
    string-equal to the given one: a prefix or an extension of a stored
    path does not count, and neither the subject nor the role of the
    stored ACE is looked at.  So for an ACE [candidate] about to be
    created, the check at its path returns [True] as soon as any stored
    ACE has that path, whatever the subjects and roles of the two. *)
Theorem check_ace_exists_path_only (st : State) (path : string) :
  (exists b : bool,
      check_ace_exists path st = (Returned b, st) /\
      (b = true <->
       exists a : ACE.t, In a (aces (session st)) /\ ACE.path a = path)) /\
  (forall stored candidate : ACE.t,
      In stored (aces (session st)) ->
      ACE.path candidate = ACE.path stored ->
      path = ACE.path candidate ->
      check_ace_exists path st = (Returned true, st)).
Proof.
  split; [apply check_ace_exists_iff|].
  intros stored candidate Hin Hpath ->.
  destruct (check_ace_exists_iff st (ACE.path candidate)) as (b & -> & Hb).
  f_equal. f_equal. apply Hb. now exists stored.
Qed.

(** Witness: alice's entry at ["/p1"] makes the check at the path of an
    entry meant for bob, under another role, return [True]. *)
Lemma check_ace_exists_path_only_witness :
  let st := Sample.state [Sample.ace 30 "/p1" 1 20 true false] in
  check_ace_exists "/p1" st = (Returned true, st).
Proof.
  refine (proj2 (check_ace_exists_path_only
                   (Sample.state [Sample.ace 30 "/p1" 1 20 true false]) "/p1")
                (Sample.ace 30 "/p1" 1 20 true false)
                (Sample.ace 31 "/p1" 2 21 false true) _ _ _).
  - now left.
  - reflexivity.
  - reflexivity.
Defined.

(* ================================================================== *)
(** ** The path-scope maintainer *)

Section Patterns.

Lemma any_run_here (rest : string -> bool) (s : string) :
  rest s = true -> any_run rest s = true.
Proof. intros H. destruct s; cbn [any_run]; now rewrite H. Qed.

Lemma any_run_skip (rest : string -> bool) (c : ascii) (s : string) :
  any_run rest s = true -> any_run rest (String c s) = true.
Proof. intros H. cbn [any_run]. rewrite H. apply orb_true_r. Qed.

Lemma like_percent (s : string) : like "%" s = true.
Proof.
  cbn [like]. change (Ascii.eqb "%" "%") with true. cbv iota.
  induction s as [|c s IH]; [reflexivity|].
  now apply any_run_skip.
Qed.

(** A path that has the prefix as a raw string prefix matches its
    pattern. *)
Lemma like_prefix (p s : string) :
  String.prefix p s = true -> like (p ++ "%") s = true.
Proof.
  revert s. induction p as [|c p IH]; intros s H.
  - apply like_percent.
  - destruct s as [|d s]; cbn [String.prefix] in H; [discriminate H|].
    destruct (ascii_dec c d) as [<-|_]; [|discriminate H].
    cbn [String.append like].
    destruct (Ascii.eqb c "%").
    + apply any_run_skip, any_run_here, IH, H.
    + rewrite Ascii.eqb_refl, orb_true_r. cbn [andb]. apply IH, H.
Qed.

Lemma prefix_nil (s : string) : String.prefix "" s = true.
Proof. now destruct s. Qed.

(** For a prefix without wildcards the pattern matches the paths that
    have the prefix up to the case of ASCII letters. *)
Lemma like_wildcard_free (p s : string) :
  wildcard_free p = true ->
  like (p ++ "%") s
  = String.prefix (UrlParse.str_lower p) (UrlParse.str_lower s).
Proof.
  revert s. induction p as [|c p IH]; intros s H.
  - cbn [UrlParse.str_lower]. now rewrite like_percent, prefix_nil.
  - unfold wildcard_free in H. cbn [UrlParse.str_forallb] in H.
    apply andb_prop in H. destruct H as [Hc Hp].
    apply andb_prop in Hc. destruct Hc as [H1 H2].
    apply negb_true_iff in H1, H2.
    cbn [String.append like]. rewrite H1.
    destruct s as [|d s]; [reflexivity|].
    rewrite H2. cbn [orb UrlParse.str_lower String.prefix].
    rewrite (IH s Hp).
    destruct (Ascii.eqb_spec (UrlParse.to_lower c) (UrlParse.to_lower d))
      as [E|N];
      destruct (ascii_dec (UrlParse.to_lower c) (UrlParse.to_lower d));
      try reflexivity; contradiction.
Qed.

End Patterns.




(* ================================================================== *)
(** ** Roles and their privileges *)

Section RoleStore.

Lemma hd_error_filter_some {A : Type} (f : A -> bool) (l : list A) (x : A) :
  hd_error (filter f l) = Some x -> In x l /\ f x = true.
Proof.
  intros H. apply filter_In.
  destruct (filter f l) as [|y l']; [discriminate H|].
  injection H as ->. now left.
Qed.

Lemma map_if_filter_nil {A : Type} (f : A -> bool) (g : A -> A) (l : list A) :
  filter f l = [] -> map (fun x => if f x then g x else x) l = l.
Proof.
  induction l as [|x l IH]; simpl; [reflexivity|].
  destruct (f x); [discriminate|]. intros H. now rewrite IH.
Qed.

Lemma filter_map_if {A : Type} (f : A -> bool) (g : A -> A) (l : list A) :
  (forall x, f (g x) = f x) ->
  filter f (map (fun x => if f x then g x else x) l) = map g (filter f l).
Proof.
  intros Hg. induction l as [|x l IH]; simpl; [reflexivity|].
  destruct (f x) eqn:E.
  - rewrite Hg, E. simpl. now rewrite IH.
  - rewrite E. exact IH.
Qed.

Lemma set_roles_same (d : Database) : set_roles d (roles d) = d.
Proof. now destruct d. Qed.

Lemma set_membership_same (d : Database) :
  set_membership d (privileges d) (role_privileges d) = d.
Proof. now destruct d. Qed.

End RoleStore.

Section Lookups.

Lemma hd_error_filter_none {A : Type} (f : A -> bool) (l : list A) :
  hd_error (filter f l) = None <-> (forall x, In x l -> f x = false).
Proof.
  induction l as [|x l IH]; simpl.
  - split; [intros _ y [] | reflexivity].
  - destruct (f x) eqn:E; simpl.
    + split; [discriminate|]. intros H. specialize (H x (or_introl eq_refl)).
      congruence.
    + rewrite IH. split.
      * intros H y [<-|Hy]; [exact E | now apply H].
      * intros H y Hy. apply H. now right.
Qed.

Lemma filter_nil_iff {A : Type} (f : A -> bool) (l : list A) :
  filter f l = [] <-> (forall x, In x l -> f x = false).
Proof.
  rewrite <- hd_error_filter_none.
  destruct (filter f l); simpl; split; congruence.
Qed.

Lemma length_filter_pos {A : Type} (f : A -> bool) (l : list A) :
  (0 <? List.length (filter f l))%nat = true
  <-> exists x, In x l /\ f x = true.
Proof.
  rewrite Nat.ltb_lt. split.
  - intros H. destruct (filter f l) as [|x l'] eqn:E; [simpl in H; lia|].
    exists x. apply filter_In. rewrite E. now left.
  - intros (x & Hx & Hf).
    assert (Hin : In x (filter f l)) by (apply filter_In; now split).
    destruct (filter f l); [destruct Hin | simpl; lia].
Qed.

Lemma flat_map_nil {A B : Type} (f : A -> list B) (l : list A) :
  (forall x, In x l -> f x = []) -> flat_map f l = [].
Proof.
  induction l as [|x l IH]; intros H; [reflexivity|].
  cbn [flat_map]. rewrite (H x (or_introl eq_refl)).
  apply IH. intros y Hy. apply H. now right.
Qed.

Lemma filter_negb_idem {A : Type} (f : A -> bool) (l : list A) :
  filter f (filter (fun x => negb (f x)) l) = [].
Proof.
  apply filter_nil_iff. intros x Hx. apply filter_In in Hx.
  destruct Hx as [_ Hx]. now apply negb_true_iff.
Qed.

End Lookups.

Section RoleUpdates.

Variables (role_id : UUID) (role_update : RoleUpdate).

Lemma existsb_filter_nil {A : Type} (f : A -> bool) (l : list A) :
  filter f l = [] -> existsb f l = false.
Proof.
  induction l as [|x l IH]; cbn; [reflexivity|].
  destruct (f x); [discriminate | exact IH].
Qed.

(** An update that finds no row breaks no constraint. *)
Lemma breaks_unique_name_no_row (rs : list Role.t) :
  filter (fun r => N.eqb (Role.role_id r) role_id) rs = [] ->
  breaks_unique_name (fun r => N.eqb (Role.role_id r) role_id) role_update rs
  = false.
Proof.
  intros H. unfold breaks_unique_name.
  destruct (set_name role_update) as [[n|]|]; try reflexivity.
  now rewrite (existsb_filter_nil _ _ H).
Qed.

(** An update that sets no name, or a name that no other role has, breaks
    no constraint. *)
Lemma breaks_unique_name_free (rs : list Role.t) :
  (forall n, set_name role_update = Some (Some n) ->
             forall r', In r' rs -> Role.role_id r' <> role_id ->
                        role_named n r' = false) ->
  breaks_unique_name (fun r => N.eqb (Role.role_id r) role_id) role_update rs
  = false.
Proof.
  intros H. unfold breaks_unique_name.
  destruct (set_name role_update) as [[n|]|]; try reflexivity.
  apply andb_false_intro2.
  apply not_true_is_false. intros E.
  apply existsb_exists in E. destruct E as (r' & Hin & E).
  apply andb_prop in E. destruct E as [E1 E2].
  apply negb_true_iff, N.eqb_neq in E1.
  now rewrite (H n eq_refl r' Hin E1) in E2.
Qed.

(** An update that gives a stored role the name of another role breaks the
    constraint. *)
Lemma breaks_unique_name_taken (rs : list Role.t) (r r' : Role.t) (n : string) :
  hd_error (filter (fun r => N.eqb (Role.role_id r) role_id) rs) = Some r ->
  set_name role_update = Some (Some n) ->
  In r' rs -> Role.role_id r' <> role_id -> role_named n r' = true ->
  breaks_unique_name (fun r => N.eqb (Role.role_id r) role_id) role_update rs
  = true.
Proof.
  intros Hr Hn Hin Hid Hnamed. unfold breaks_unique_name. rewrite Hn.
  apply andb_true_intro. split.
  - apply existsb_exists. exists r.
    apply hd_error_filter_some in Hr. exact Hr.
  - apply existsb_exists. exists r'. split; [exact Hin|].
    rewrite Hnamed, andb_true_r. now apply negb_true_iff, N.eqb_neq.
Qed.

(** The steps of [update_role]. *)
Lemma update_role_run (st : State) :
  update_role role_id role_update st
  = if breaks_unique_name (fun r => N.eqb (Role.role_id r) role_id)
                          role_update (roles (session st))
    then (Raised IntegrityError, st)
    else
      let d' := set_roles (session st)
                  (map (fun r => if N.eqb (Role.role_id r) role_id
                                 then apply_values role_update (clock st) r
                                 else r)
                       (roles (session st))) in
      let st' := {| session := d'; committed := d'; clock := clock st;
                    debug_log := debug_log st; row_order := row_order st |} in
      match hd_error (filter (fun r => N.eqb (Role.role_id r) role_id)
                             (roles d')) with
      | Some r => (Returned (Some (reloaded d' (load_role d' r))), st')
      | None => (Returned None, st')
      end.
Proof.
  unfold update_role, execute_update_roles, model_dump_exclude_unset, get_role,
    select_first_role, refresh, commit, raise, bind, get_session, put_session,
    current_timestamp, ret.
  cbn [session committed clock debug_log row_order].
  destruct (breaks_unique_name _ role_update (roles (session st)));
    [reflexivity|].
  cbn [session committed clock debug_log row_order roles set_roles].
  destruct (hd_error (filter _ _)); reflexivity.
Qed.

End RoleUpdates.

(** C8, as amended (partial update).  For a role id that no row has,
    [update_role] returns [None] and changes no row.  For an existing
    role id and a payload that sets no name, or a name that no other role
    has, it returns the refreshed role: the fields the payload sets have
    the payload's values, the fields it leaves unset, the other columns
    and the privileges of the role are as before, and [updated_at] is the
    timestamp of the update; the other roles and the other relations are
    unchanged, and the change is committed.  For an existing role id and
    a payload that sets the name of another role, the call ends with
    [IntegrityError] and the state is as it was. *)
Theorem update_role_partial (st : State) (role_id : UUID)
        (role_update : RoleUpdate) :
  let matches := fun r : Role.t => N.eqb (Role.role_id r) role_id in
  (filter matches (roles (session st)) = [] ->
   exists st' : State,
     update_role role_id role_update st = (Returned None, st') /\
     session st' = session st /\ committed st' = session st) /\
  (forall r : Role.t,
      hd_error (filter matches (roles (session st))) = Some r ->
      (forall n, set_name role_update = Some (Some n) ->
                 forall r', In r' (roles (session st)) ->
                            Role.role_id r' <> role_id ->
                            role_named n r' = false) ->
      exists (role_db : RoleObject) (st' : State),
        update_role role_id role_update st = (Returned (Some role_db), st') /\
        Role.role_id (columns role_db) = role_id /\
        Role.name (columns role_db)
        = match set_name role_update with
          | Some v => v
          | None => Role.name r
          end /\
        Role.description (columns role_db)
        = match set_description role_update with
          | Some v => v
          | None => Role.description r
          end /\
        Role.is_builtin (columns role_db) = Role.is_builtin r /\
        Role.created_at (columns role_db) = Role.created_at r /\
        Role.updated_at (columns role_db) = clock st /\
        loaded_privileges role_db
        = loaded_privileges (load_role (session st) r) /\
        (forall r' : Role.t,
            Role.role_id r' <> role_id ->
            (In r' (roles (session st')) <-> In r' (roles (session st)))) /\
        users (session st') = users (session st) /\
        user_groups (session st') = user_groups (session st) /\
        privileges (session st') = privileges (session st) /\
        role_privileges (session st') = role_privileges (session st) /\
        aces (session st') = aces (session st) /\
        committed st' = session st') /\
  (forall (r r' : Role.t) (n : string),
      hd_error (filter matches (roles (session st))) = Some r ->
      set_name role_update = Some (Some n) ->
      In r' (roles (session st)) ->
      Role.role_id r' <> role_id ->
      role_named n r' = true ->
      update_role role_id role_update st = (Raised IntegrityError, st)).
Proof.
  intros matches. rewrite update_role_run. cbv zeta. cbn [roles set_roles].
  set (g := apply_values role_update (clock st)).
  change (fun r : Role.t => if (Role.role_id r =? role_id)%N then g r else r)
    with (fun r : Role.t => if matches r then g r else r).
  change (fun r : Role.t => (Role.role_id r =? role_id)%N) with matches.
  assert (Hg : forall x, matches (g x) = matches x) by reflexivity.
  split; [|split].
  - intros Hnil.
    assert (Hb : breaks_unique_name matches role_update (roles (session st))
                 = false) by (apply breaks_unique_name_no_row; exact Hnil).
    rewrite Hb.
    rewrite (map_if_filter_nil matches g _ Hnil), set_roles_same, Hnil.
    simpl. eexists. repeat split; reflexivity.
  - intros r Hr Hfree.
    assert (Hb : breaks_unique_name matches role_update (roles (session st))
                 = false) by (apply breaks_unique_name_free; exact Hfree).
    rewrite Hb.
    rewrite (filter_map_if matches g _ Hg).
    destruct (filter matches (roles (session st))) as [|r0 l] eqn:E;
      [discriminate Hr|].
    injection Hr as ->.
    assert (Hid : Role.role_id r = role_id).
    { apply N.eqb_eq.
      apply (proj2 (hd_error_filter_some matches (roles (session st)) r
                      ltac:(now rewrite E))). }
    cbn [map hd_error]. unfold reloaded.
    cbn [columns load_role roles set_roles].
    change (Role.role_id (g r)) with (Role.role_id r). rewrite Hid.
    fold matches.
    rewrite (filter_map_if matches g _ Hg), E. cbn [map hd_error].
    eexists. eexists. split; [reflexivity|].
    cbn [columns load_role loaded_privileges session committed users
         user_groups roles privileges role_privileges aces set_roles g
         apply_values Role.role_id Role.name Role.description
         Role.is_builtin Role.created_at Role.updated_at].
    repeat (split; [first [reflexivity | exact Hid]|]).
    split; [|repeat split; reflexivity].
    intros r' Hr'. rewrite in_map_iff. split.
    + intros (x & Hx & Hin).
      destruct (matches x) eqn:Ex.
      * exfalso. apply Hr'. rewrite <- Hx. simpl.
        now apply N.eqb_eq.
      * now subst x.
    + intros Hin. exists r'. split; [|exact Hin].
      replace (matches r') with false; [reflexivity|].
      symmetry. now apply N.eqb_neq.
  - intros r r' n Hr Hn Hin Hid Hnamed.
    assert (Hb : breaks_unique_name matches role_update (roles (session st))
                 = true)
      by (apply (breaks_unique_name_taken _ _ _ r r' n); assumption).
    now rewrite Hb.
Qed.

(** Witness: only the description of the role "Auditors" is updated; the
    role "Operators" cannot take the name "Auditors". *)
Lemma update_role_partial_witness :
  (exists (role_db : RoleObject) (st' : State),
      update_role 21 {| set_name := None; set_description := Some (Some "new") |}
                  (Sample.state [])
      = (Returned (Some role_db), st') /\
      Role.name (columns role_db) = Some "Auditors" /\
      Role.description (columns role_db) = Some "new" /\
      Role.updated_at (columns role_db) = 200%N) /\
  update_role 20 {| set_name := Some (Some "Auditors"); set_description := None |}
              (Sample.state [])
  = (Raised IntegrityError, Sample.state []).
Proof.
  split.
  - destruct (proj1 (proj2 (update_role_partial
                              (Sample.state []) 21%N
                              {| set_name := None;
                                 set_description := Some (Some "new") |}))
                    Sample.auditors eq_refl)
      as (role_db & st' & Hrun & _ & Hname & Hdesc & _ & _ & Hupd & _).
    + intros n Hn. discriminate Hn.
    + exists role_db, st'. repeat split; assumption.
  - apply (proj2 (proj2 (update_role_partial
                           (Sample.state []) 20%N
                           {| set_name := Some (Some "Auditors");
                              set_description := None |}))
                 Sample.operators Sample.auditors "Auditors").
    + reflexivity.
    + reflexivity.
    + right. now left.
    + discriminate.
    + reflexivity.
Defined.

(** C8, counterexample.  The role "Operators" exists and the payload sets
    one field, its name, to the name of the role "Auditors": the call
    returns no refreshed record, it ends with [IntegrityError], and the
    name of the role is as it was. *)
Lemma rename_to_taken_name_counterexample :
  let st := Sample.state [] in
  let payload := {| set_name := Some (Some "Auditors");
                    set_description := None |} in
  fst (get_role 20 st) = Returned (Some (load_role (session st) Sample.operators)) /\
  update_role 20 payload st = (Raised IntegrityError, st) /\
  fst (get_role 20 (snd (update_role 20 payload st)))
  = Returned (Some (load_role (session st) Sample.operators)).
Proof. cbv zeta. repeat split; reflexivity. Qed.

Section Membership.

Implicit Types (d : Database) (r : Role.t) (p q x : Privilege.t)
         (l : list Privilege.t).

Lemma privilege_eqb_eq p q : Privilege.eqb p q = true <-> p = q.
Proof.
  destruct p as [i n o], q as [i' n' o']. unfold Privilege.eqb.
  cbn [Privilege.privilege_id Privilege.name Privilege.description].
  rewrite !andb_true_iff, N.eqb_eq, String.eqb_eq. split.
  - intros [[-> ->] H]. destruct o as [a|], o' as [b|]; try discriminate H.
    + apply String.eqb_eq in H. now subst b.
    + reflexivity.
  - intros [= -> -> ->]. repeat split.
    destruct o' as [b|]; [apply String.eqb_refl | reflexivity].
Qed.

(** The loader lists the objects of the rows, each of them once. *)
Lemma In_unique l p : In p (unique l) <-> In p l.
Proof.
  induction l as [|a l IH]; cbn [unique]; [reflexivity|].
  cbn [In]. rewrite filter_In, IH. split.
  - intros [H|[H _]]; [now left | now right].
  - intros [H|H]; [now left|].
    destruct (Privilege.eqb p a) eqn:E.
    + left. symmetry. now apply privilege_eqb_eq.
    + right. now split.
Qed.

Lemma unique_fixed l :
  NoDup (map Privilege.privilege_id l) -> unique l = l.
Proof.
  induction l as [|a l IH]; intros H; [reflexivity|].
  inversion H as [|i ids Ha Hl]; subst. cbn [unique].
  rewrite (IH Hl). f_equal.
  rewrite <- (filter_true l) at 2. apply filter_ext_in.
  intros q Hq. apply negb_true_iff, not_true_is_false. intros E.
  apply privilege_eqb_eq in E. subst q. apply Ha. now apply in_map.
Qed.

Lemma existsb_unique (f : Privilege.t -> bool) l :
  existsb f (unique l) = existsb f l.
Proof.
  apply eq_true_iff_eq. rewrite !existsb_exists.
  split; intros (q & Hq & E); exists q; (split; [|exact E]);
    now apply In_unique.
Qed.

Lemma same_privilege_refl p : same_privilege p p = true.
Proof. apply N.eqb_refl. Qed.

Lemma existsb_same_self p l : In p l -> existsb (same_privilege p) l = true.
Proof.
  intros H. apply existsb_exists. exists p. split; [exact H|].
  apply same_privilege_refl.
Qed.

Lemma same_privilege_eq p q :
  same_privilege p q = true
  <-> Privilege.privilege_id p = Privilege.privilege_id q.
Proof. apply N.eqb_eq. Qed.

Lemma list_remove_absent x l :
  existsb (fun q => same_privilege q x) l = false ->
  list_remove same_privilege x l
  = Raised (ValueError "list.remove(x): x not in list").
Proof.
  induction l as [|y l IH]; simpl; [reflexivity|].
  destruct (same_privilege y x); simpl; [discriminate|].
  intros H. now rewrite IH.
Qed.

Lemma list_remove_member x l :
  existsb (fun q => same_privilege q x) l = true ->
  exists l', list_remove same_privilege x l = Returned l'.
Proof.
  induction l as [|y l IH]; simpl; [discriminate|].
  destruct (same_privilege y x); simpl; [now eauto|].
  intros H. destruct (IH H) as (l' & ->). now eauto.
Qed.

Lemma load_privileges_ids d r q :
  In q (load_privileges d r) ->
  In (Role.role_id r, Privilege.privilege_id q) (role_privileges d)
  /\ In q (privileges d).
Proof.
  unfold load_privileges. rewrite in_flat_map.
  intros ([rid pid] & Hrp & Hq). simpl in Hq.
  destruct (N.eqb_spec rid (Role.role_id r)) as [->|_]; [|destruct Hq].
  apply filter_In in Hq. destruct Hq as [Hq E].
  apply N.eqb_eq in E. rewrite E. now split.
Qed.

Lemma load_privileges_intro d r q :
  In (Role.role_id r, Privilege.privilege_id q) (role_privileges d) ->
  In q (privileges d) ->
  In q (load_privileges d r).
Proof.
  intros Hrp Hq. unfold load_privileges. rewrite in_flat_map.
  exists (Role.role_id r, Privilege.privilege_id q). split; [exact Hrp|].
  simpl. rewrite N.eqb_refl. apply filter_In. split; [exact Hq|].
  apply N.eqb_refl.
Qed.

(** The privileges a role is loaded with, as a relation over the stored
    rows. *)
Lemma loaded_privileges_In d r q :
  In q (loaded_privileges (load_role d r)) <->
  In (Role.role_id r, Privilege.privilege_id q) (role_privileges d)
  /\ In q (privileges d).
Proof.
  cbn [loaded_privileges load_role]. rewrite In_unique. split.
  - apply load_privileges_ids.
  - intros [H1 H2]. now apply load_privileges_intro.
Qed.

Lemma reloaded_load_role d d' r :
  hd_error (filter (fun r' => N.eqb (Role.role_id r') (Role.role_id r))
                   (roles d')) = Some r ->
  reloaded d' (load_role d r) = load_role d' r.
Proof.
  intros H. unfold reloaded. simpl. now rewrite H.
Qed.

(** A privilege the role is loaded with has an association row. *)
Lemma member_has_row d r x :
  existsb (fun q => same_privilege q x) (load_privileges d r) = true ->
  1 <= List.length (filter (association (Role.role_id r) x) (role_privileges d))
  /\ exists q, In q (privileges d)
               /\ Privilege.privilege_id q = Privilege.privilege_id x.
Proof.
  intros H. apply existsb_exists in H. destruct H as (q & Hq & E).
  apply same_privilege_eq in E.
  apply load_privileges_ids in Hq. destruct Hq as [Hrp Hq].
  split; [|now exists q].
  assert (Hin : In (Role.role_id r, Privilege.privilege_id q)
                   (filter (association (Role.role_id r) x) (role_privileges d))).
  { apply filter_In. split; [exact Hrp|]. unfold association. cbn [fst snd].
    now rewrite E, !N.eqb_refl. }
  destruct (filter _ _); [destruct Hin | cbn; lia].
Qed.

Lemma NoDup_app_disjoint {A : Type} (l1 l2 : list A) (a : A) :
  NoDup (l1 ++ l2) -> In a l1 -> ~ In a l2.
Proof.
  induction l1 as [|b l1 IH]; intros H Hin; [destruct Hin|].
  cbn [app] in H. inversion H as [|c l Hb Hl]; subst.
  destruct Hin as [->|Hin]; [|now apply IH].
  intros Ha. apply Hb. apply in_or_app. now right.
Qed.

(** When the rows a role is loaded from hold each privilege once, a
    privilege of the role has one association row. *)
Lemma association_rows_once d r x :
  existsb (fun q => same_privilege q x) (load_privileges d r) = true ->
  NoDup (map Privilege.privilege_id (load_privileges d r)) ->
  List.length (filter (association (Role.role_id r) x) (role_privileges d)) = 1.
Proof.
  intros Hmem Hnd.
  destruct (member_has_row d r x Hmem) as (Hge & q & Hq & Eq).
  enough (Hle : List.length (filter (association (Role.role_id r) x)
                                    (role_privileges d)) <= 1) by lia.
  clear Hmem Hge. unfold load_privileges in Hnd.
  induction (role_privileges d) as [|rp rps IH]; [cbn; lia|].
  cbn [flat_map] in Hnd. rewrite map_app in Hnd.
  cbn [filter].
  destruct (association (Role.role_id r) x rp) eqn:E.
  - unfold association in E. apply andb_prop in E. destruct E as [E1 E2].
    rewrite E1 in Hnd. apply N.eqb_eq in E2.
    assert (Hhere : In (Privilege.privilege_id x)
                       (map Privilege.privilege_id
                            (filter (fun p => N.eqb (Privilege.privilege_id p)
                                                    (snd rp))
                                    (privileges d)))).
    { rewrite <- Eq. apply in_map. apply filter_In. split; [exact Hq|].
      rewrite E2, Eq. apply N.eqb_refl. }
    assert (Hnone : filter (association (Role.role_id r) x) rps = []).
    { apply filter_nil_iff. intros rp' Hrp'.
      apply not_true_is_false. intros E'.
      apply (NoDup_app_disjoint _ _ _ Hnd Hhere).
      unfold association in E'. apply andb_prop in E'.
      destruct E' as [E1' E2']. apply N.eqb_eq in E2'.
      rewrite <- Eq. apply in_map. apply in_flat_map. exists rp'.
      split; [exact Hrp'|]. rewrite E1'. apply filter_In.
      split; [exact Hq|]. rewrite E2', Eq. apply N.eqb_refl. }
    rewrite Hnone. cbn. lia.
  - apply IH. eapply NoDup_app_remove_l. exact Hnd.
Qed.

End Membership.

(** The steps of [add_privilege_to_role] for a stored role. *)
Lemma add_privilege_to_role_run (st : State) (role_id : UUID)
      (x : Privilege.t) (r : Role.t) :
  hd_error (filter (fun r => N.eqb (Role.role_id r) role_id)
                   (roles (session st))) = Some r ->
  add_privilege_to_role role_id x st
  = let d := session st in
    let rows := role_privileges d
                ++ [(Role.role_id r, Privilege.privilege_id x)] in
    let added := fun d' : Database =>
      (Returned (Some (reloaded d' (load_role d r))),
       {| session := d'; committed := d'; clock := clock st;
          debug_log := debug_log st; row_order := row_order st |}) in
    if existsb (same_privilege x) (privileges d)
    then added (set_membership d (privileges d) rows)
    else if existsb (fun q => String.eqb (Privilege.name q) (Privilege.name x))
                    (privileges d)
    then (Raised IntegrityError, snd (rollback st))
    else added (set_membership d (privileges d ++ [x]) rows).
Proof.
  intros H.
  unfold add_privilege_to_role, select_first_role, flush_append, flush_fails,
    refresh, commit, raise, bind, get_session, put_session, ret.
  rewrite H. cbn [option_map columns load_role]. cbv zeta.
  destruct (existsb (same_privilege x) (privileges (session st)));
    [reflexivity|].
  destruct (existsb _ (privileges (session st))); reflexivity.
Qed.

(** The steps of [remove_privilege_from_role] for a stored role. *)
Lemma remove_privilege_from_role_run (st : State) (role_id : UUID)
      (x : Privilege.t) (r : Role.t) :
  hd_error (filter (fun r => N.eqb (Role.role_id r) role_id)
                   (roles (session st))) = Some r ->
  remove_privilege_from_role role_id x st
  = let d := session st in
    match list_remove same_privilege x (loaded_privileges (load_role d r)) with
    | Raised e => (Raised e, st)
    | Returned _ =>
        if (List.length (filter (association (Role.role_id r) x)
                                (role_privileges d)) =? 1)%nat
        then
          let d' := set_membership d (privileges d)
                      (filter (fun rp => negb (association (Role.role_id r) x rp))
                              (role_privileges d)) in
          (Returned (Some (reloaded d' (load_role d r))),
           {| session := d'; committed := d'; clock := clock st;
              debug_log := debug_log st; row_order := row_order st |})
        else (Raised StaleDataError, snd (rollback st))
    end.
Proof.
  intros H.
  unfold remove_privilege_from_role, select_first_role, flush_remove,
    flush_fails, refresh, commit, raise, lift, bind, get_session, put_session,
    ret.
  rewrite H. cbn [option_map]. cbv zeta.
  destruct (list_remove same_privilege x
                        (loaded_privileges (load_role (session st) r)));
    [|reflexivity].
  cbn [columns load_role]. unfold association.
  destruct (List.length _ =? 1)%nat; reflexivity.
Qed.

Lemma found_role_id (d : Database) (role_id : UUID) (r : Role.t) :
  hd_error (filter (fun r => N.eqb (Role.role_id r) role_id) (roles d))
  = Some r ->
  Role.role_id r = role_id.
Proof.
  intros H. apply hd_error_filter_some in H. now apply N.eqb_eq.
Qed.

(** C7, as amended ([add_privilege_to_role]).  For a role id that no row
    has the call returns [None] and changes nothing.  For an existing
    role and a stored privilege it never raises: it writes one more
    association row for the role and the privilege, whether or not the
    role held the privilege already, commits, and returns the refreshed
    role, whose privileges hold the given privilege and every privilege
    the role had; the other relations are as before.  A privilege that is
    not stored yet is stored along with the association row when no
    stored privilege has its name; otherwise the call ends with
    [IntegrityError] and nothing is stored. *)
Theorem add_privilege_to_role_upsert (st : State) (role_id : UUID)
        (privilege : Privilege.t) :
  let matches := fun r : Role.t => N.eqb (Role.role_id r) role_id in
  let stored := existsb (same_privilege privilege) (privileges (session st)) in
  let name_taken :=
    existsb (fun q => String.eqb (Privilege.name q) (Privilege.name privilege))
            (privileges (session st)) in
  (filter matches (roles (session st)) = [] ->
   add_privilege_to_role role_id privilege st = (Returned None, st)) /\
  (forall r : Role.t,
      hd_error (filter matches (roles (session st))) = Some r ->
      (stored = true \/ name_taken = false ->
       exists (role_db : RoleObject) (st' : State),
         add_privilege_to_role role_id privilege st
         = (Returned (Some role_db), st') /\
         columns role_db = r /\
         (exists q : Privilege.t,
             In q (loaded_privileges role_db) /\
             Privilege.privilege_id q = Privilege.privilege_id privilege) /\
         incl (loaded_privileges (load_role (session st) r))
              (loaded_privileges role_db) /\
         role_privileges (session st')
         = role_privileges (session st)
           ++ [(role_id, Privilege.privilege_id privilege)] /\
         privileges (session st')
         = privileges (session st) ++ (if stored then [] else [privilege]) /\
         roles (session st') = roles (session st) /\
         users (session st') = users (session st) /\
         user_groups (session st') = user_groups (session st) /\
         aces (session st') = aces (session st) /\
         committed st' = session st') /\
      (stored = false -> name_taken = true ->
       exists st' : State,
         add_privilege_to_role role_id privilege st
         = (Raised IntegrityError, st') /\
         session st' = committed st /\
         committed st' = committed st)).
Proof.
  intros matches stored name_taken. split.
  - intros Hnil.
    unfold add_privilege_to_role, select_first_role, bind, get_session, ret.
    fold matches. now rewrite Hnil.
  - intros r Hr.
    pose proof (found_role_id _ _ _ Hr) as Hid.
    rewrite (add_privilege_to_role_run _ _ _ _ Hr). cbv zeta.
    fold stored name_taken. rewrite Hid.
    set (d := session st) in *.
    set (pid := Privilege.privilege_id privilege).
    assert (Hadded : forall ps,
               (exists q, In q ps /\ Privilege.privilege_id q = pid) ->
               incl (privileges d) ps ->
               let d' := set_membership d ps
                           (role_privileges d ++ [(role_id, pid)]) in
               reloaded d' (load_role d r) = load_role d' r /\
               (exists q : Privilege.t,
                   In q (loaded_privileges (load_role d' r)) /\
                   Privilege.privilege_id q = pid) /\
               incl (loaded_privileges (load_role d r))
                    (loaded_privileges (load_role d' r))).
    { intros ps (q & Hq & Eq) Hincl d'. split; [|split].
      - apply reloaded_load_role. subst d'. cbn [roles set_membership].
        rewrite Hid. exact Hr.
      - exists q. split; [|exact Eq]. apply loaded_privileges_In.
        subst d'. cbn [role_privileges privileges set_membership].
        split; [|exact Hq]. rewrite Eq, Hid. apply in_or_app. right. now left.
      - intros p Hp. apply loaded_privileges_In in Hp. destruct Hp as [H1 H2].
        apply loaded_privileges_In. subst d'.
        cbn [role_privileges privileges set_membership].
        split; [apply in_or_app; now left | now apply Hincl]. }
    split.
    + intros Hok. destruct stored eqn:Hst.
      * assert (Hq : exists q, In q (privileges d)
                               /\ Privilege.privilege_id q = pid).
        { unfold stored in Hst. apply existsb_exists in Hst.
          destruct Hst as (q & Hq & E). exists q. split; [exact Hq|].
          symmetry. now apply same_privilege_eq. }
        destruct (Hadded (privileges d) Hq (incl_refl _)) as (H1 & H2 & H3).
        rewrite H1. eexists. eexists. split; [reflexivity|].
        cbn [columns load_role session committed users user_groups roles
             privileges role_privileges aces set_membership].
        rewrite app_nil_r. repeat split; assumption.
      * destruct Hok as [Hok|Hok]; [discriminate Hok|]. rewrite Hok.
        assert (Hq : exists q, In q (privileges d ++ [privilege])
                               /\ Privilege.privilege_id q = pid).
        { exists privilege. split; [|reflexivity].
          apply in_or_app. right. now left. }
        destruct (Hadded (privileges d ++ [privilege]) Hq
                         (incl_appl _ (incl_refl _))) as (H1 & H2 & H3).
        rewrite H1. eexists. eexists. split; [reflexivity|].
        cbn [columns load_role session committed users user_groups roles
             privileges role_privileges aces set_membership].
        repeat split; assumption.
    + intros -> ->. eexists. split; [reflexivity|]. split; reflexivity.
Qed.

(** Witness: the privilege "Node.Start" is added to the role that already
    has it, and to the role that does not; a privilege that is not stored
    and has the name of a stored one is refused. *)
Lemma add_privilege_to_role_upsert_witness :
  (exists (role_db : RoleObject) (st' : State),
      add_privilege_to_role 20 Sample.node_start (Sample.state [])
      = (Returned (Some role_db), st') /\
      role_privileges (session st') = [(20, 10); (21, 11); (20, 10)]%N) /\
  (exists (role_db : RoleObject) (st' : State),
      add_privilege_to_role 21 Sample.node_start (Sample.state [])
      = (Returned (Some role_db), st') /\
      role_privileges (session st') = [(20, 10); (21, 11); (21, 10)]%N) /\
  add_privilege_to_role 22 Sample.node_start (Sample.state [])
  = (Returned None, Sample.state []) /\
  (exists st' : State,
      add_privilege_to_role
        21 {| Privilege.privilege_id := 12; Privilege.name := "Node.Start";
              Privilege.description := None |} (Sample.state [])
      = (Raised IntegrityError, st')).
Proof.
  split; [|split; [|split]].
  - destruct (proj1 (proj2 (add_privilege_to_role_upsert
                              (Sample.state []) 20%N Sample.node_start)
                           Sample.operators eq_refl))
      as (role_db & st' & Hrun & _ & _ & _ & Hrows & _).
    + now left.
    + exists role_db, st'. split; [exact Hrun | exact Hrows].
  - destruct (proj1 (proj2 (add_privilege_to_role_upsert
                              (Sample.state []) 21%N Sample.node_start)
                           Sample.auditors eq_refl))
      as (role_db & st' & Hrun & _ & _ & _ & Hrows & _).
    + now left.
    + exists role_db, st'. split; [exact Hrun | exact Hrows].
  - apply (proj1 (add_privilege_to_role_upsert
                    (Sample.state []) 22%N Sample.node_start)).
    reflexivity.
  - destruct (proj2 (proj2 (add_privilege_to_role_upsert
                              (Sample.state []) 21%N
                              {| Privilege.privilege_id := 12;
                                 Privilege.name := "Node.Start";
                                 Privilege.description := None |})
                           Sample.auditors eq_refl))
      as (st' & Hrun & _).
    + reflexivity.
    + reflexivity.
    + exists st'. exact Hrun.
Defined.

(** C7, counterexample.  The role "Operators" holds the privilege
    "Node.Start".  Adding it again does not raise, and the role is
    returned with the privileges it had, but the store has changed: the
    association relation holds the pair of the role and the privilege
    twice.  The privileges of the role are not a set the privilege was
    upserted into: a removal of the privilege, which succeeds before the
    second add, ends with [StaleDataError] after it. *)
Lemma duplicate_add_counterexample :
  let st := Sample.state [] in
  let st1 := snd (add_privilege_to_role 20 Sample.node_start st) in
  loaded_privileges (load_role (session st) Sample.operators)
  = [Sample.node_start] /\
  fst (add_privilege_to_role 20 Sample.node_start st)
  = Returned (Some (load_role (session st) Sample.operators)) /\
  role_privileges (session st) = [(20, 10); (21, 11)]%N /\
  role_privileges (session st1) = [(20, 10); (21, 11); (20, 10)]%N /\
  fst (remove_privilege_from_role 20 Sample.node_start st)
  = Returned (Some {| columns := Sample.operators; loaded_privileges := [] |}) /\
  remove_privilege_from_role 20 Sample.node_start st1
  = (Raised StaleDataError, st1).
Proof. cbv zeta. repeat split; reflexivity. Qed.

(** C6 ([remove_privilege_from_role]), as amended.  For a role id that no
    row has the call returns [None] and changes nothing.  For an existing
    role that does not hold the privilege the call ends with Python's
    [ValueError], raised by [list.remove] and not caught, and the state
    is left as it was.  For an existing role that holds the privilege
    there is at least one association row of the two: when there is one,
    the call deletes it and nothing else, commits, and returns the
    refreshed role, which no longer holds the privilege; when there are
    several, the call ends with [StaleDataError], no row is deleted and
    the session is back at the committed database. *)
Theorem remove_privilege_from_role_outcome (st : State) (role_id : UUID)
        (privilege : Privilege.t) :
  let matches := fun r : Role.t => N.eqb (Role.role_id r) role_id in
  (filter matches (roles (session st)) = [] ->
   remove_privilege_from_role role_id privilege st = (Returned None, st)) /\
  (forall r : Role.t,
      hd_error (filter matches (roles (session st))) = Some r ->
      let members := loaded_privileges (load_role (session st) r) in
      let rows := filter (association role_id privilege)
                         (role_privileges (session st)) in
      (existsb (fun q => same_privilege q privilege) members = false ->
       remove_privilege_from_role role_id privilege st
       = (Raised (ValueError "list.remove(x): x not in list"), st)) /\
      (existsb (fun q => same_privilege q privilege) members = true ->
       1 <= List.length rows) /\
      (existsb (fun q => same_privilege q privilege) members = true ->
       List.length rows = 1 ->
       exists (role_db : RoleObject) (st' : State),
         remove_privilege_from_role role_id privilege st
         = (Returned (Some role_db), st') /\
         columns role_db = r /\
         (forall q : Privilege.t,
             In q (loaded_privileges role_db) ->
             Privilege.privilege_id q <> Privilege.privilege_id privilege) /\
         role_privileges (session st')
         = filter (fun rp : UUID * UUID =>
                     negb (N.eqb (fst rp) role_id
                           && N.eqb (snd rp) (Privilege.privilege_id privilege)))
                  (role_privileges (session st)) /\
         privileges (session st') = privileges (session st) /\
         roles (session st') = roles (session st) /\
         users (session st') = users (session st) /\
         user_groups (session st') = user_groups (session st) /\
         aces (session st') = aces (session st) /\
         committed st' = session st') /\
      (existsb (fun q => same_privilege q privilege) members = true ->
       1 < List.length rows ->
       exists st' : State,
         remove_privilege_from_role role_id privilege st
         = (Raised StaleDataError, st') /\
         session st' = committed st /\
         committed st' = committed st)).
Proof.
  intros matches. split.
  - intros Hnil.
    unfold remove_privilege_from_role, select_first_role, bind, get_session,
      ret.
    fold matches. now rewrite Hnil.
  - intros r Hr members rows.
    pose proof (found_role_id _ _ _ Hr) as Hid.
    rewrite (remove_privilege_from_role_run _ _ _ _ Hr). cbv zeta.
    fold members. rewrite Hid. fold rows.
    split; [|split; [|split]].
    + intros Habs. now rewrite (list_remove_absent _ _ Habs).
    + intros Hmem. unfold members in Hmem.
      cbn [loaded_privileges load_role] in Hmem.
      rewrite existsb_unique in Hmem.
      destruct (member_has_row _ _ _ Hmem) as [H _].
      now rewrite Hid in H.
    + intros Hmem Hone.
      destruct (list_remove_member _ _ Hmem) as (l' & ->).
      rewrite Hone. cbn [Nat.eqb].
      rewrite reloaded_load_role
        by (cbn [roles set_membership]; rewrite Hid; exact Hr).
      eexists. eexists. split; [reflexivity|].
      cbn [columns load_role session committed users user_groups roles
           privileges role_privileges aces set_membership].
      split; [reflexivity|]. split.
      * intros q Hq E.
        apply loaded_privileges_In in Hq. destruct Hq as [Hrp _].
        cbn [role_privileges set_membership] in Hrp.
        apply filter_In in Hrp. destruct Hrp as [_ Hrp].
        unfold association in Hrp. cbn [fst snd] in Hrp.
        now rewrite E, Hid, !N.eqb_refl in Hrp.
      * repeat split; reflexivity.
    + intros Hmem Hmany.
      destruct (list_remove_member _ _ Hmem) as (l' & ->).
      destruct (Nat.eqb_spec (List.length rows) 1) as [E|_]; [lia|].
      eexists. split; [reflexivity|]. split; reflexivity.
Qed.

(** Witness: "Node.Start" is removed from the role that has it;
    "Project.Audit", which that role does not have, raises; after a
    second add of "Node.Start" its removal fails. *)
Lemma remove_privilege_from_role_outcome_witness :
  (exists (role_db : RoleObject) (st' : State),
      remove_privilege_from_role 20 Sample.node_start (Sample.state [])
      = (Returned (Some role_db), st') /\
      role_privileges (session st') = [(21, 11)]%N) /\
  remove_privilege_from_role 20 Sample.project_audit (Sample.state [])
  = (Raised (ValueError "list.remove(x): x not in list"), Sample.state []) /\
  remove_privilege_from_role 22 Sample.node_start (Sample.state [])
  = (Returned None, Sample.state []) /\
  (exists st' : State,
      remove_privilege_from_role
        20 Sample.node_start
        (snd (add_privilege_to_role 20 Sample.node_start (Sample.state [])))
      = (Raised StaleDataError, st')).
Proof.
  split; [|split; [|split]].
  - destruct (proj1 (proj2 (proj2 (proj2 (remove_privilege_from_role_outcome
                                            (Sample.state []) 20%N
                                            Sample.node_start)
                                         Sample.operators eq_refl))))
      as (role_db & st' & Hrun & _ & _ & Hrps & _).
    + reflexivity.
    + reflexivity.
    + exists role_db, st'. split; [exact Hrun | exact Hrps].
  - apply (proj1 (proj2 (remove_privilege_from_role_outcome
                           (Sample.state []) 20%N Sample.project_audit)
                        Sample.operators eq_refl)).
    reflexivity.
  - apply (proj1 (remove_privilege_from_role_outcome
                    (Sample.state []) 22%N Sample.node_start)).
    reflexivity.
  - destruct (proj2 (proj2 (proj2 (proj2 (remove_privilege_from_role_outcome
                                            (snd (add_privilege_to_role
                                                    20 Sample.node_start
                                                    (Sample.state [])))
                                            20%N Sample.node_start)
                                         Sample.operators eq_refl))))
      as (st' & Hrun & _).
    + reflexivity.
    + vm_compute. lia.
    + exists st'. exact Hrun.
Defined.

(** C6, counterexample.  Removing "Project.Audit" from the role
    "Operators", which never had it: the call ends with the built-in
    [ValueError] of [list.remove], not with an [InvalidMembership] error
    of the application. *)
Lemma remove_unattached_privilege_counterexample :
  let st := Sample.state [] in
  load_privileges (session st) Sample.operators = [Sample.node_start] /\
  remove_privilege_from_role 20 Sample.project_audit st
  = (Raised (ValueError "list.remove(x): x not in list"), st) /\
  fst (remove_privilege_from_role 20 Sample.project_audit st)
  <> Raised (DomainError InvalidMembership).
Proof.
  cbv zeta. split; [reflexivity|]. split; [reflexivity|].
  vm_compute. discriminate.
Qed.

(* ================================================================== *)
(** ** More on the resolver: what the scan depends on *)

Section ScanOrder.

Implicit Types (aces : list AceRow) (lvl path : string).

Lemma string_ltb_irrefl (s : string) : String.ltb s s = false.
Proof.
  unfold String.ltb.
  pose proof (String.compare_antisym s s) as H.
  destruct (String.compare s s); try reflexivity; discriminate H.
Qed.

Lemma filter_insert_desc lvl (x : AceRow) (l : list AceRow) :
  filter (at_path lvl) (insert_desc x l) = filter (at_path lvl) (x :: l).
Proof.
  induction l as [|y l IH]; [reflexivity|].
  cbn [insert_desc].
  destruct (String.ltb (row_path x) (row_path y)) eqn:Hlt; [|reflexivity].
  cbn [filter] in *. rewrite IH. unfold at_path.
  destruct (String.eqb_spec (row_path x) lvl) as [Ex|_];
    destruct (String.eqb_spec (row_path y) lvl) as [Ey|_]; try reflexivity.
  rewrite Ex, Ey, string_ltb_irrefl in Hlt. discriminate Hlt.
Qed.

Lemma filter_order_by_path_desc lvl (l : list AceRow) :
  filter (at_path lvl) (order_by_path_desc l) = filter (at_path lvl) l.
Proof.
  induction l as [|x l IH]; [reflexivity|].
  cbn [order_by_path_desc fold_right].
  change (fold_right insert_desc [] l) with (order_by_path_desc l).
  rewrite filter_insert_desc. cbn [filter]. now rewrite IH.
Qed.

Lemma first_decisive_same_entries aces1 aces2 path (levels : list string) :
  (forall lvl, filter (at_path lvl) aces1 = filter (at_path lvl) aces2) ->
  first_decisive aces1 path levels = first_decisive aces2 path levels.
Proof.
  intros H. induction levels as [|lvl levels IH]; [reflexivity|].
  cbn [first_decisive].
  rewrite (scan_aces_filter aces1), (scan_aces_filter aces2).
  change (fun r : AceRow => String.eqb (row_path r) lvl) with (at_path lvl).
  now rewrite H, IH.
Qed.

Lemma resolve_first_decisive aces path :
  resolve aces path
  = match path_levels path with
    | Returned levels => Returned (first_decisive aces path levels)
    | Raised e => Raised e
    end.
Proof.
  unfold resolve, path_levels.
  destruct (UrlParse.urlparse_path path); [|reflexivity].
  now rewrite traverse_first_decisive.
Qed.

(** The rows of the query come in an order that the clause ORDER BY
    allows, and every such order of the joined rows is the one the query
    returns for some choice of the engine. *)
Lemma string_ltb_asym (s t : string) :
  String.ltb s t = true -> String.ltb t s = false.
Proof.
  unfold String.ltb. rewrite (String.compare_antisym s t).
  destruct (String.compare t s); cbn; intros H; try discriminate H.
  reflexivity.
Qed.

Lemma descending_cons2 (x y : AceRow) (l : list AceRow) :
  descending (x :: y :: l)
  = negb (String.ltb (row_path x) (row_path y)) && descending (y :: l).
Proof. reflexivity. Qed.

Lemma descending_tail (x : AceRow) (l : list AceRow) :
  descending (x :: l) = true -> descending l = true.
Proof.
  destruct l as [|y l]; [reflexivity|].
  rewrite descending_cons2. intros H. apply andb_prop in H. apply H.
Qed.

Lemma insert_desc_descending (x : AceRow) (l : list AceRow) :
  descending l = true -> descending (insert_desc x l) = true.
Proof.
  induction l as [|y l IH]; intros H; [reflexivity|].
  cbn [insert_desc].
  destruct (String.ltb (row_path x) (row_path y)) eqn:Hlt.
  - specialize (IH (descending_tail _ _ H)).
    pose proof (string_ltb_asym _ _ Hlt) as Hyx.
    destruct l as [|z l].
    + cbn [insert_desc]. rewrite descending_cons2, Hyx. reflexivity.
    + rewrite descending_cons2 in H. apply andb_prop in H.
      destruct H as [H1 _].
      cbn [insert_desc] in IH |- *.
      destruct (String.ltb (row_path x) (row_path z)).
      * now rewrite descending_cons2, H1, IH.
      * now rewrite descending_cons2, Hyx, IH.
  - now rewrite descending_cons2, Hlt, H.
Qed.

Lemma order_by_path_desc_descending (l : list AceRow) :
  descending (order_by_path_desc l) = true.
Proof.
  induction l as [|x l IH]; [reflexivity|].
  now apply insert_desc_descending.
Qed.

Lemma order_by_path_desc_fixed (l : list AceRow) :
  descending l = true -> order_by_path_desc l = l.
Proof.
  induction l as [|x l IH]; intros H; [reflexivity|].
  cbn [order_by_path_desc fold_right].
  change (fold_right insert_desc [] l) with (order_by_path_desc l).
  rewrite (IH (descending_tail _ _ H)).
  destruct l as [|y l]; [reflexivity|].
  rewrite descending_cons2 in H. apply andb_prop in H. destruct H as [H1 _].
  cbn [insert_desc]. apply negb_true_iff in H1. now rewrite H1.
Qed.

Lemma candidate_rows_orders (st : State) (user_id : UUID)
      (privilege_name : string) :
  descending (candidate_rows st user_id privilege_name) = true /\
  forall aces : list AceRow,
    Permutation (joined_rows (session st) user_id privilege_name) aces ->
    descending aces = true ->
    exists picks : list nat,
      candidate_rows {| session := session st; committed := committed st;
                        clock := clock st; debug_log := debug_log st;
                        row_order := picks |} user_id privilege_name
      = aces.
Proof.
  split; [apply order_by_path_desc_descending|].
  intros aces Hperm Hdesc.
  destruct (arrange_complete _ _ Hperm) as (picks & Hpicks).
  exists picks. unfold candidate_rows. cbn [session row_order].
  rewrite Hpicks. now apply order_by_path_desc_fixed.
Qed.

End ScanOrder.

(** X1.  The decision depends on the candidate entries only through the
    entries of each path taken in their scan order: two scan orders that
    list, for every path, the same entries in the same order give the same
    result on every queried path.  How entries of different paths are
    interleaved has no influence on the decision; the order of the
    entries of one path has, and the query does not fix it. *)
Theorem resolve_same_entries_per_path (aces1 aces2 : list AceRow)
        (path : string) :
  (forall lvl, filter (at_path lvl) aces1 = filter (at_path lvl) aces2) ->
  resolve aces1 path = resolve aces2 path.
Proof.
  intros H. rewrite !resolve_first_decisive.
  destruct (path_levels path); [|reflexivity].
  now rewrite (first_decisive_same_entries aces1 aces2).
Qed.

(** Witness: an entry of another path moved between two entries of
    ["/p1"]. *)
Lemma resolve_same_entries_per_path_witness :
  resolve [("/p1", false, true, "X"); ("/", true, false, "X");
           ("/p1", false, false, "X")] "/p1"
  = resolve [("/", true, false, "X"); ("/p1", false, true, "X");
             ("/p1", false, false, "X")] "/p1".
Proof.
  refine (resolve_same_entries_per_path _ _ "/p1" _).
  intros lvl. unfold at_path. cbn [filter row_path fst].
  destruct (String.eqb_spec "/p1" lvl), (String.eqb_spec "/" lvl);
    try reflexivity.
  congruence.
Defined.

Lemma level_of_relative (c : ascii) (s : string) (i : nat) :
  Ascii.eqb c "/" = false ->
  1 <= i ->
  level (str_split "/" (String c s)) i <> "/".
Proof.
  intros Hc Hi. cbn [str_split]. rewrite Hc.
  destruct (str_split_cons "/" s) as (h & t & E). rewrite E.
  destruct i as [|i]; [lia|].
  unfold level. cbn [firstn].
  assert (Hj : exists rest, str_join "/" (String c h :: firstn i t)
                            = String c rest).
  { destruct (firstn i t) as [|y l]; [now exists h|].
    rewrite str_join_cons2. now eexists. }
  destruct Hj as (rest & ->). cbn [String.eqb].
  intros E'. injection E' as E1 E2. subst c.
  rewrite Ascii.eqb_refl in Hc. discriminate Hc.
Qed.

(** X2.  A path that does not begin with [/] is never checked against the
    root: when the parsed path is not empty and has no leading slash, a
    user whose candidate entries are all attached to ["/"] is denied,
    also when they allow and propagate. *)
Theorem relative_path_skips_root (st : State) (user_id : UUID)
        (path privilege_name parsed : string) :
  UrlParse.urlparse_path path = Returned parsed ->
  parsed <> EmptyString ->
  String.prefix "/" parsed = false ->
  (forall r, In r (joined_rows (session st) user_id privilege_name) ->
             row_path r = "/") ->
  check_user_has_privilege user_id path privilege_name st
  = (Returned false, st).
Proof.
  intros Hurl Hne Hrel Hroot.
  rewrite check_user_has_privilege_resolve.
  rewrite (resolve_levels _ _ (ancestor_levels (str_split "/" parsed)))
    by (unfold path_levels; now rewrite Hurl).
  rewrite first_decisive_no_match; [reflexivity|].
  intros r Hr Hin.
  assert (Hr' : row_path r = "/").
  { apply Hroot. eapply Permutation_in;
      [apply candidate_rows_perm | exact Hr]. }
  rewrite Hr' in Hin. unfold ancestor_levels in Hin.
  apply in_map_iff in Hin. destruct Hin as (i & Hi & Hin).
  unfold range_down in Hin. apply in_rev, in_seq in Hin.
  destruct parsed as [|c s]; [contradiction|].
  revert Hi. apply level_of_relative; [|lia].
  cbn [String.prefix] in Hrel.
  destruct (ascii_dec "/" c) as [<-|Hc].
  - destruct s; discriminate Hrel.
  - apply Ascii.eqb_neq. congruence.
Qed.

(** Witness: alice is allowed everything from the root down, and asks for
    ["p1/nodeA"]. *)
Lemma relative_path_skips_root_witness :
  let st := Sample.state [Sample.ace 30 "/" 1 20 true true] in
  check_user_has_privilege 1 "p1/nodeA" "Node.Start" st = (Returned false, st) /\
  check_user_has_privilege 1 "/p1/nodeA" "Node.Start" st = (Returned true, st).
Proof.
  split; [|reflexivity].
  apply (relative_path_skips_root _ 1%N "p1/nodeA" "Node.Start" "p1/nodeA").
  - reflexivity.
  - discriminate.
  - reflexivity.
  - vm_compute. intros r [<-|[]]. reflexivity.
Defined.

Lemma scan_aces_not_original (aces : list AceRow) (lvl path : string) :
  lvl <> path ->
  scan_aces aces lvl path
  = scan_aces (filter (fun r => negb (row_allowed r) || row_propagate r) aces)
              lvl path.
Proof.
  intros Hne. induction aces as [|[[[ap pr] al] pn] aces IH]; [reflexivity|].
  assert (Hp : String.eqb lvl path = false) by now apply String.eqb_neq.
  cbn [filter row_allowed row_propagate fst snd].
  destruct al, pr; cbn [negb orb scan_aces]; destruct (String.eqb ap lvl);
    rewrite ?Hp; cbn [negb orb]; first [exact IH | reflexivity].
Qed.

(** X3.  The levels come from the path as [urlparse] returns it, but each
    level is compared with the path as it was passed.  So when the passed
    path is not one of its own levels (it carries a query string, a
    fragment, leading blanks, ...), an allow that does not propagate never
    decides: the result is the one obtained from the denies and the
    propagating allows alone. *)
Theorem unparsed_path_needs_propagation (aces : list AceRow)
        (path : string) (levels : list string) :
  path_levels path = Returned levels ->
  ~ In path levels ->
  resolve aces path
  = resolve (filter (fun r => negb (row_allowed r) || row_propagate r) aces)
            path.
Proof.
  intros Hlv Hnot.
  rewrite !(resolve_levels _ _ _ Hlv). f_equal. clear Hlv.
  induction levels as [|lvl levels IH]; [reflexivity|].
  cbn [first_decisive].
  rewrite <- scan_aces_not_original
    by (intros E; apply Hnot; left; exact E).
  destruct (scan_aces aces lvl path); [reflexivity|].
  apply IH. intros Hin. apply Hnot. now right.
Qed.

(** Witness: an exact-path allow at ["/p1"] grants ["/p1"] but not
    ["/p1?x=1"]. *)
Lemma unparsed_path_needs_propagation_witness :
  resolve [("/p1", false, true, "X")] "/p1?x=1" = Returned false /\
  resolve [("/p1", false, true, "X")] "/p1" = Returned true.
Proof.
  split; [|reflexivity].
  rewrite (unparsed_path_needs_propagation _ "/p1?x=1" ["/p1"; "/"]).
  - reflexivity.
  - reflexivity.
  - intros [H|[H|[]]]; discriminate H.
Defined.

(* ================================================================== *)
(** ** Lookups and deletions *)

(** X4.  [get_role_privileges] and the privileges [get_role] loads with a
    role are two different queries that agree: for a stored role they
    hold the same privileges.  For a role id that no row has,
    [get_role_privileges] returns the empty list whatever the association
    relation holds, where [get_role] returns [None]. *)
Theorem get_role_privileges_agrees (st : State) (role_id : UUID) :
  let matches := fun r : Role.t => N.eqb (Role.role_id r) role_id in
  (filter matches (roles (session st)) = [] ->
   get_role_privileges role_id st = (Returned [], st) /\
   get_role role_id st = (Returned None, st)) /\
  (forall r : Role.t,
      hd_error (filter matches (roles (session st))) = Some r ->
      exists (l : list Privilege.t) (role_db : RoleObject),
        get_role_privileges role_id st = (Returned l, st) /\
        get_role role_id st = (Returned (Some role_db), st) /\
        (forall p, In p l <-> In p (loaded_privileges role_db))).
Proof.
  intros matches.
  unfold get_role_privileges, get_role, select_first_role, bind, get_session,
    ret.
  fold matches. split.
  - intros Hnil. rewrite Hnil. split; [|reflexivity].
    f_equal. f_equal.
    assert (Hno : forall r, In r (roles (session st)) -> matches r = false)
      by now apply filter_nil_iff.
    apply flat_map_nil. intros p _.
    apply flat_map_nil. intros rp _.
    destruct (N.eqb (snd rp) (Privilege.privilege_id p)); [|reflexivity].
    apply flat_map_nil. intros r Hr.
    specialize (Hno r Hr). unfold matches in Hno.
    now rewrite Hno, andb_false_r.
  - intros r Hr. rewrite Hr. cbn [option_map].
    eexists. eexists. split; [reflexivity|]. split; [reflexivity|].
    pose proof (found_role_id _ _ _ Hr) as Hid.
    apply hd_error_filter_some in Hr. destruct Hr as [Hin _].
    intros p. cbn [loaded_privileges load_role]. rewrite In_unique. split.
    + intros H. apply in_flat_map in H. destruct H as (q & Hq & H).
      apply in_flat_map in H. destruct H as (rp & Hrp & H).
      destruct (N.eqb_spec (snd rp) (Privilege.privilege_id q)) as [E|_];
        [|destruct H].
      apply in_flat_map in H. destruct H as (r' & Hr' & H).
      destruct (N.eqb_spec (Role.role_id r') (fst rp)) as [E1|_];
        [|destruct H].
      destruct (N.eqb_spec (Role.role_id r') role_id) as [E2|_];
        [|destruct H].
      destruct H as [<-|[]].
      apply load_privileges_intro; [|exact Hq].
      destruct rp as [a b]. simpl in *. congruence.
    + intros H. apply load_privileges_ids in H. destruct H as [Hrp Hp].
      apply in_flat_map. exists p. split; [exact Hp|].
      apply in_flat_map. exists (Role.role_id r, Privilege.privilege_id p).
      split; [exact Hrp|]. cbn [fst snd]. rewrite N.eqb_refl.
      apply in_flat_map. exists r. split; [exact Hin|].
      rewrite N.eqb_refl, Hid, N.eqb_refl. now left.
Qed.

(** Witness: the role "Operators" and its one privilege; a role id that
    only a stale association row mentions. *)
Lemma get_role_privileges_agrees_witness :
  (exists (l : list Privilege.t) (role_db : RoleObject),
      get_role_privileges 20 (Sample.state []) = (Returned l, Sample.state []) /\
      get_role 20 (Sample.state []) = (Returned (Some role_db), Sample.state []) /\
      (forall p, In p l <-> In p (loaded_privileges role_db))) /\
  get_role_privileges 22 (Sample.state []) = (Returned [], Sample.state []).
Proof.
  split.
  - apply (proj2 (get_role_privileges_agrees (Sample.state []) 20%N)
                 Sample.operators).
    reflexivity.
  - apply (proj1 (get_role_privileges_agrees (Sample.state []) 22%N)).
    reflexivity.
Defined.

(** X5.  [delete_ace] returns [True] exactly when an ACE with the given id
    was stored.  Whatever it returns, afterwards no ACE has that id, so
    [get_ace] finds none and a second [delete_ace] returns [False]; the
    ACEs with other ids and the other relations are as before, and the
    change is committed. *)
Theorem delete_ace_outcome (st : State) (ace_id : UUID) :
  exists (deleted : bool) (st' : State),
    delete_ace ace_id st = (Returned deleted, st') /\
    (deleted = true <->
     exists a, In a (aces (session st)) /\ ACE.ace_id a = ace_id) /\
    (forall a, In a (aces (session st')) <->
               In a (aces (session st)) /\ ACE.ace_id a <> ace_id) /\
    fst (get_ace ace_id st') = Returned None /\
    fst (delete_ace ace_id st') = Returned false /\
    users (session st') = users (session st) /\
    user_groups (session st') = user_groups (session st) /\
    roles (session st') = roles (session st) /\
    privileges (session st') = privileges (session st) /\
    role_privileges (session st') = role_privileges (session st) /\
    committed st' = session st'.
Proof.
  unfold delete_ace, get_ace, commit, bind, get_session, put_session, ret.
  cbn [session committed clock debug_log fst snd aces set_aces].
  set (matches := fun a : ACE.t => N.eqb (ACE.ace_id a) ace_id).
  eexists. eexists. split; [reflexivity|].
  cbn [session committed aces set_aces users roles privileges role_privileges
       fst].
  split.
  { rewrite length_filter_pos. unfold matches.
    split; intros (a & Ha & E); exists a; (split; [exact Ha|]);
      now apply N.eqb_eq. }
  split.
  { intros a. rewrite filter_In, negb_true_iff. unfold matches.
    now rewrite N.eqb_neq. }
  rewrite filter_negb_idem.
  repeat split; reflexivity.
Qed.

(** X6.  [delete_role] returns [True] exactly when a role with the given
    id was stored.  Whatever it returns, afterwards no role has that id:
    [get_role] returns [None], [update_role] returns [None] and a second
    [delete_role] returns [False]; the roles with other ids are as
    before. *)
Theorem delete_role_outcome (st : State) (role_id : UUID)
        (role_update : RoleUpdate) :
  exists (deleted : bool) (st' : State),
    delete_role role_id st = (Returned deleted, st') /\
    (deleted = true <->
     exists r, In r (roles (session st)) /\ Role.role_id r = role_id) /\
    (forall r, In r (roles (session st')) <->
               In r (roles (session st)) /\ Role.role_id r <> role_id) /\
    fst (get_role role_id st') = Returned None /\
    fst (update_role role_id role_update st') = Returned None /\
    fst (delete_role role_id st') = Returned false /\
    committed st' = session st'.
Proof.
  set (matches := fun r : Role.t => N.eqb (Role.role_id r) role_id).
  set (d' := without_role role_id (session st)).
  assert (Hroles : roles d'
                   = filter (fun r => negb (matches r)) (roles (session st))).
  { unfold d', without_role. fold matches.
    destruct (existsb matches (roles (session st))) eqn:E; [reflexivity|].
    symmetry. rewrite <- (filter_true (roles (session st))) at 2.
    apply filter_ext_in. intros r Hr.
    apply negb_true_iff, not_true_is_false. intros Hm.
    assert (Ht : existsb matches (roles (session st)) = true)
      by (apply existsb_exists; now exists r).
    congruence. }
  assert (Hnone : filter matches (roles d') = [])
    by (rewrite Hroles; apply filter_negb_idem).
  exists (0 <? List.length (filter matches (roles (session st))))%nat.
  exists {| session := d'; committed := d'; clock := clock st;
            debug_log := debug_log st; row_order := row_order st |}.
  split; [reflexivity|]. cbn [session committed].
  split.
  { rewrite length_filter_pos. unfold matches.
    split; intros (r & Hr & E); exists r; (split; [exact Hr|]);
      now apply N.eqb_eq. }
  split.
  { intros r. rewrite Hroles, filter_In, negb_true_iff. unfold matches.
    now rewrite N.eqb_neq. }
  split; [|split; [|split; [|reflexivity]]].
  - unfold get_role, select_first_role, bind, get_session, ret.
    cbn [session fst]. fold matches. now rewrite Hnone.
  - rewrite update_role_run. cbn [session clock].
    assert (Hb : breaks_unique_name matches role_update (roles d') = false)
      by (apply breaks_unique_name_no_row; exact Hnone).
    fold matches. rewrite Hb. cbv zeta.
    rewrite (map_if_filter_nil matches _ _ Hnone), set_roles_same.
    fold matches. now rewrite Hnone.
  - unfold delete_role, commit, bind, get_session, put_session, ret.
    cbn [session fst]. fold matches. now rewrite Hnone.
Qed.

(* ================================================================== *)
(** ** Creating and updating entries *)

Section Candidates.

(** The rows of the query, as a relation over the stored rows. *)
Lemma joined_rows_In (d : Database) (user_id : UUID) (privilege_name : string)
      (row : AceRow) :
  In row (joined_rows d user_id privilege_name) <->
  exists (p : Privilege.t) (r : Role.t) (a : ACE.t) (u : User.t),
    In p (privileges d) /\ Privilege.name p = privilege_name /\
    In (Role.role_id r, Privilege.privilege_id p) (role_privileges d) /\
    In r (roles d) /\
    In a (aces d) /\ ACE.role_id a = Role.role_id r /\
    In u (users d) /\ ACE.user_id a = Some user_id /\
    User.user_id u = user_id /\
    row = (ACE.path a, ACE.propagate a, ACE.allowed a, privilege_name).
Proof.
  unfold joined_rows. split.
  - intros H.
    apply in_flat_map in H. destruct H as (p & Hp & H).
    destruct (String.eqb_spec (Privilege.name p) privilege_name) as [En|_];
      [|destruct H].
    apply in_flat_map in H. destruct H as ([rid pid] & Hrp & H).
    cbn [fst snd] in H.
    destruct (N.eqb_spec pid (Privilege.privilege_id p)) as [->|_];
      [|destruct H].
    apply in_flat_map in H. destruct H as (r & Hr & H).
    destruct (N.eqb_spec (Role.role_id r) rid) as [<-|_]; [|destruct H].
    apply in_flat_map in H. destruct H as (a & Ha & H).
    destruct (N.eqb_spec (ACE.role_id a) (Role.role_id r)) as [Ea|_];
      [|destruct H].
    apply in_flat_map in H. destruct H as (u & Hu & H).
    destruct (ACE.user_id a) as [uid|] eqn:Euid; [|destruct H].
    destruct (N.eqb_spec (User.user_id u) uid) as [E1|_]; [|destruct H].
    destruct (N.eqb_spec (User.user_id u) user_id) as [E2|_]; [|destruct H].
    destruct H as [<-|[]].
    exists p, r, a, u. rewrite En. repeat split; try assumption.
    congruence.
  - intros (p & r & a & u & Hp & En & Hrp & Hr & Ha & Ea & Hu & Euid & E2 & ->).
    apply in_flat_map. exists p. split; [exact Hp|].
    rewrite (proj2 (String.eqb_eq _ _) En).
    apply in_flat_map. exists (Role.role_id r, Privilege.privilege_id p).
    split; [exact Hrp|]. cbn [fst snd]. rewrite N.eqb_refl.
    apply in_flat_map. exists r. split; [exact Hr|]. rewrite N.eqb_refl.
    apply in_flat_map. exists a. split; [exact Ha|].
    rewrite (proj2 (N.eqb_eq _ _) Ea).
    apply in_flat_map. exists u. split; [exact Hu|].
    rewrite Euid, E2, N.eqb_refl. cbn [andb]. rewrite En. now left.
Qed.

(** The scan of a level whose entries all carry one [allowed] flag, when
    the level is the queried path. *)
Lemma scan_aces_uniform (aces : list AceRow) (path : string) (flag : bool) :
  (exists r, In r aces /\ row_path r = path) ->
  (forall r, In r aces -> row_path r = path -> row_allowed r = flag) ->
  scan_aces aces path path = Some flag.
Proof.
  induction aces as [|[[[ap pr] al] pn] aces IH]; intros (r & Hr & Hp) Hall.
  - destruct Hr.
  - cbn [scan_aces].
    destruct (String.eqb_spec ap path) as [E|Hne].
    + assert (Hal : al = flag) by (apply (Hall (ap, pr, al, pn)); [now left | exact E]).
      subst al. rewrite String.eqb_refl.
      destruct flag; reflexivity.
    + apply IH.
      * destruct Hr as [<-|Hr]; [contradiction | now exists r].
      * intros q Hq. apply Hall. now right.
Qed.

Lemma resolve_order_by (rows : list AceRow) (path : string) :
  resolve (order_by_path_desc rows) path = resolve rows path.
Proof.
  rewrite !resolve_first_decisive.
  destruct (path_levels path); [|reflexivity].
  f_equal. apply first_decisive_same_entries.
  intros lvl. apply filter_order_by_path_desc.
Qed.

Lemma path_levels_head (path : string) :
  UrlParse.urlparse_path path = Returned path ->
  path <> EmptyString ->
  exists shallower, path_levels path = Returned (path :: shallower).
Proof.
  intros Hurl Hne. unfold path_levels. rewrite Hurl.
  rewrite (ancestor_levels_chain _ Hne). unfold ancestor_chain.
  cbn [chain_from]. now eexists.
Qed.

End Candidates.

(** The steps of [create_ace]. *)
Lemma create_ace_run (st : State) (generated : ACE.t) (ace_create : ACEValues) :
  let db_ace := new_ace generated ace_create in
  let same_key := fun a : ACE.t => N.eqb (ACE.ace_id a) (ACE.ace_id db_ace) in
  create_ace generated ace_create st
  = if existsb same_key (aces (session st))
       || negb (admissible (session st) db_ace)
    then (Raised IntegrityError, snd (rollback st))
    else
      let d' := set_aces (session st) (aces (session st) ++ [db_ace]) in
      (Returned (or_else (hd_error (filter same_key (aces d'))) db_ace),
       {| session := d'; committed := d'; clock := clock st;
          debug_log := debug_log st; row_order := row_order st |}).
Proof.
  intros db_ace same_key.
  unfold create_ace, flush_new_ace, flush_fails, refresh_ace, commit, raise,
    bind, get_session, put_session, ret.
  fold db_ace. fold same_key.
  destruct (existsb same_key (aces (session st))
            || negb (admissible (session st) db_ace)); reflexivity.
Qed.

Lemma existsb_false_all {A : Type} (f : A -> bool) (l : list A) :
  existsb f l = false -> forall x, In x l -> f x = false.
Proof.
  intros H x Hx. apply not_true_is_false. intros E.
  assert (Ht : existsb f l = true) by (apply existsb_exists; now exists x).
  congruence.
Qed.

Lemma filter_fresh_key (l : list ACE.t) (a : ACE.t) :
  existsb (fun b => N.eqb (ACE.ace_id b) (ACE.ace_id a)) l = false ->
  filter (fun b => N.eqb (ACE.ace_id b) (ACE.ace_id a)) (l ++ [a]) = [a].
Proof.
  intros H. rewrite filter_app.
  replace (filter _ l) with (@nil ACE.t).
  - cbn [filter app]. now rewrite N.eqb_refl.
  - symmetry. apply filter_nil_iff. now apply existsb_false_all.
Qed.

(** What [create_ace] returns and stores when the engine accepts the
    row. *)
Lemma create_ace_stored (st : State) (generated : ACE.t)
      (ace_create : ACEValues) :
  let db_ace := new_ace generated ace_create in
  existsb (fun a => N.eqb (ACE.ace_id a) (ACE.ace_id db_ace))
          (aces (session st)) = false ->
  admissible (session st) db_ace = true ->
  create_ace generated ace_create st
  = (Returned db_ace,
     let d' := set_aces (session st) (aces (session st) ++ [db_ace]) in
     {| session := d'; committed := d'; clock := clock st;
        debug_log := debug_log st; row_order := row_order st |}).
Proof.
  intros db_ace Hkey Hok. rewrite create_ace_run. cbv zeta. fold db_ace.
  rewrite Hkey, Hok. cbn [orb negb aces set_aces].
  now rewrite (filter_fresh_key (aces (session st)) db_ace Hkey).
Qed.

(** X7.  [create_ace] stores the ACE built from the payload when the
    storage engine accepts it: its key is not the key of a stored ACE, it
    has exactly one subject, of the kind its type names, and its role and
    its subject are stored.  The call then appends that ACE, keeps every
    stored ACE and the other relations, commits and returns the new ACE;
    afterwards [check_ace_exists] at its path returns [True] and
    [get_ace] at its key finds it.  Otherwise the call ends with
    [IntegrityError] and nothing is stored; an ACE without subject and an
    ACE whose role is not stored are such cases. *)
Theorem create_ace_then_lookup (st : State) (generated : ACE.t)
        (ace_create : ACEValues) :
  let db_ace := new_ace generated ace_create in
  let key_taken :=
    existsb (fun a => N.eqb (ACE.ace_id a) (ACE.ace_id generated))
            (aces (session st)) in
  (key_taken = false ->
   admissible (session st) db_ace = true ->
   exists st' : State,
     create_ace generated ace_create st = (Returned db_ace, st') /\
     aces (session st') = aces (session st) ++ [db_ace] /\
     users (session st') = users (session st) /\
     user_groups (session st') = user_groups (session st) /\
     roles (session st') = roles (session st) /\
     privileges (session st') = privileges (session st) /\
     role_privileges (session st') = role_privileges (session st) /\
     committed st' = session st' /\
     check_ace_exists (ACE.path db_ace) st' = (Returned true, st') /\
     get_ace (ACE.ace_id db_ace) st' = (Returned (Some db_ace), st')) /\
  (key_taken = true \/ admissible (session st) db_ace = false ->
   exists st' : State,
     create_ace generated ace_create st = (Raised IntegrityError, st') /\
     session st' = committed st /\
     committed st' = committed st) /\
  (ACE.user_id db_ace = None -> ACE.group_id db_ace = None ->
   admissible (session st) db_ace = false) /\
  ((forall r, In r (roles (session st)) ->
              Role.role_id r <> ACE.role_id db_ace) ->
   admissible (session st) db_ace = false).
Proof.
  intros db_ace key_taken.
  split; [|split; [|split]].
  - intros Hkey Hok.
    rewrite (create_ace_stored st generated ace_create Hkey Hok). cbv zeta.
    fold db_ace.
    eexists. split; [reflexivity|].
    cbn [session committed users user_groups roles privileges role_privileges
         aces set_aces].
    repeat (split; [reflexivity|]). split.
    + match goal with
      | |- check_ace_exists ?p ?s = _ =>
          destruct (check_ace_exists_iff s p) as (b & -> & Hb)
      end.
      f_equal. f_equal. apply Hb. exists db_ace. split; [|reflexivity].
      cbn [session aces set_aces]. apply in_or_app. right. now left.
    + unfold get_ace, bind, get_session, ret. cbn [session aces set_aces].
      now rewrite (filter_fresh_key (aces (session st)) db_ace Hkey).
  - intros Hbad. rewrite create_ace_run. cbv zeta. fold db_ace.
    change (ACE.ace_id db_ace) with (ACE.ace_id generated). fold key_taken.
    assert (E : key_taken || negb (admissible (session st) db_ace) = true).
    { destruct Hbad as [-> | ->]; [reflexivity | apply orb_true_r]. }
    rewrite E. eexists. split; [reflexivity|]. split; reflexivity.
  - intros Hu Hg. unfold admissible, subject_ok. rewrite Hu, Hg.
    now destruct (ACE.ace_type db_ace).
  - intros Hrole. unfold admissible, references_ok.
    replace (existsb _ (roles (session st))) with false.
    + cbn [andb]. apply andb_false_r.
    + symmetry. apply not_true_is_false. intros E.
      apply existsb_exists in E. destruct E as (r & Hr & E).
      apply N.eqb_eq in E. now apply (Hrole r Hr).
Qed.

(** Witness: bob gets an entry at ["/p2"] under a key of its own; an
    entry without subject is refused. *)
Lemma create_ace_then_lookup_witness :
  let st := Sample.state [Sample.ace 30 "/p1" 1 20 true false] in
  let values := {| set_ace_type := Some ACE.user; set_path := Some "/p2";
                   set_propagate := None; set_allowed := Some false;
                   set_user_id := Some (Some 2%N); set_group_id := None;
                   set_role_id := Some 21%N |} in
  let no_subject := {| set_ace_type := Some ACE.user; set_path := Some "/p2";
                       set_propagate := None; set_allowed := Some false;
                       set_user_id := Some None; set_group_id := None;
                       set_role_id := Some 21%N |} in
  (exists st' : State,
      create_ace (Sample.ace 31 "" 0 0 true true) values st
      = (Returned (Sample.ace 31 "/p2" 2 21 false true), st') /\
      check_ace_exists "/p2" st' = (Returned true, st')) /\
  (exists st' : State,
      create_ace (Sample.ace 31 "" 0 0 true true) no_subject st
      = (Raised IntegrityError, st') /\
      session st' = session st).
Proof.
  intros st values no_subject. split.
  - destruct (proj1 (create_ace_then_lookup
                       st (Sample.ace 31 "" 0 0 true true) values))
      as (st' & Hrun & _ & _ & _ & _ & _ & _ & _ & Hexists & _).
    + reflexivity.
    + reflexivity.
    + exists st'. split; [exact Hrun | exact Hexists].
  - destruct (proj1 (proj2 (create_ace_then_lookup
                              st (Sample.ace 31 "" 0 0 true true) no_subject)))
      as (st' & Hrun & Hsess & _).
    + right. reflexivity.
    + exists st'. split; [exact Hrun | exact Hsess].
Defined.

(** X8.  Granting and denying end to end.  Let a new ACE be created under
    a new key for a stored user, as the one subject of the ACE, at a path
    where the user had no candidate entry for the privilege, under a
    stored role that owns a privilege of that name.  Then the ACE is
    stored and the check of that path for that user and privilege returns
    the [allowed] flag of the new ACE.  The path is a non-empty one that
    [urlparse] leaves as it is. *)
Theorem create_ace_then_check (st : State) (generated : ACE.t)
        (ace_create : ACEValues) (user_id role_id : UUID)
        (path privilege_name : string) (flag : bool) :
  set_path ace_create = Some path ->
  set_user_id ace_create = Some (Some user_id) ->
  set_role_id ace_create = Some role_id ->
  set_allowed ace_create = Some flag ->
  ACE.ace_type (new_ace generated ace_create) = ACE.user ->
  ACE.group_id (new_ace generated ace_create) = None ->
  (forall a, In a (aces (session st)) -> ACE.ace_id a <> ACE.ace_id generated) ->
  (exists u, In u (users (session st)) /\ User.user_id u = user_id) ->
  (exists r, In r (roles (session st)) /\ Role.role_id r = role_id) ->
  (exists p, In p (privileges (session st)) /\
             Privilege.name p = privilege_name /\
             In (role_id, Privilege.privilege_id p)
                (role_privileges (session st))) ->
  (forall row, In row (joined_rows (session st) user_id privilege_name) ->
               row_path row <> path) ->
  UrlParse.urlparse_path path = Returned path ->
  path <> EmptyString ->
  let st' := snd (create_ace generated ace_create st) in
  fst (create_ace generated ace_create st)
  = Returned (new_ace generated ace_create) /\
  check_user_has_privilege user_id path privilege_name st'
  = (Returned flag, st').
Proof.
  intros Hpath Huser Hrole Hflag Htype Hgroup Hfresh (u & Hu & Eu) (r & Hr & Er)
         (p & Hp & En & Hrp) Hnone Hurl Hne st'.
  set (db_ace := new_ace generated ace_create) in *.
  assert (Ea : ACE.path db_ace = path /\ ACE.user_id db_ace = Some user_id /\
               ACE.role_id db_ace = role_id /\ ACE.allowed db_ace = flag).
  { unfold db_ace, new_ace, with_values. cbn.
    now rewrite Hpath, Huser, Hrole, Hflag. }
  destruct Ea as (Ea1 & Ea2 & Ea3 & Ea4).
  assert (Hkey : existsb (fun a => N.eqb (ACE.ace_id a) (ACE.ace_id generated))
                         (aces (session st)) = false).
  { apply not_true_is_false. intros E. apply existsb_exists in E.
    destruct E as (a & Ha & E). apply N.eqb_eq in E. now apply (Hfresh a Ha). }
  assert (Hok : admissible (session st) db_ace = true).
  { unfold admissible, subject_ok, references_ok.
    rewrite Htype, Hgroup, Ea2, Ea3. cbn [andb].
    rewrite andb_true_r. apply andb_true_intro. split.
    - apply existsb_exists. exists r. split; [exact Hr|]. now apply N.eqb_eq.
    - apply existsb_exists. exists u. split; [exact Hu|]. now apply N.eqb_eq. }
  pose proof (create_ace_stored st generated ace_create Hkey Hok) as Hrun.
  cbv zeta in Hrun. fold db_ace in Hrun.
  assert (Hsess : session st'
                  = set_aces (session st) (aces (session st) ++ [db_ace]))
    by (unfold st'; now rewrite Hrun).
  split; [now rewrite Hrun|].
  rewrite check_user_has_privilege_resolve.
  unfold candidate_rows. rewrite resolve_order_by.
  destruct (path_levels_head path Hurl Hne) as (shallower & Hlv).
  rewrite (resolve_levels _ _ _ Hlv). cbn [first_decisive].
  rewrite scan_aces_uniform with (flag := flag); [reflexivity| |].
  - exists (ACE.path db_ace, ACE.propagate db_ace, ACE.allowed db_ace,
            privilege_name).
    split; [|exact Ea1].
    apply (Permutation_in _ (Permutation_sym (arrange_perm _ _))).
    apply joined_rows_In. exists p, r, db_ace, u. rewrite Hsess.
    cbn [privileges roles users aces role_privileges set_aces].
    repeat split; try assumption; try congruence.
    apply in_or_app. right. now left.
  - intros row Hrow Hrp'.
    apply (Permutation_in _ (arrange_perm _ _)) in Hrow.
    apply joined_rows_In in Hrow.
    destruct Hrow as (p' & r' & a & u' & Hp' & En' & Hrp2 & Hr' & Ha & Era & Hu'
                      & Eua & Eu' & ->).
    rewrite Hsess in *.
    cbn [privileges roles users aces role_privileges set_aces] in *.
    apply in_app_or in Ha. destruct Ha as [Ha|[<-|[]]].
    + exfalso. apply (Hnone (ACE.path a, ACE.propagate a, ACE.allowed a,
                             privilege_name)); [|exact Hrp'].
      apply joined_rows_In. exists p', r', a, u'. now repeat split.
    + exact Ea4.
Qed.

(** Witness: bob, who has no entry, is denied at ["/p1"], is then given an
    allowing entry there and is allowed. *)
Lemma create_ace_then_check_witness :
  let st := Sample.state [Sample.ace 30 "/p1" 1 20 true false] in
  let values := {| set_ace_type := Some ACE.user; set_path := Some "/p1";
                   set_propagate := Some false; set_allowed := Some true;
                   set_user_id := Some (Some 2%N); set_group_id := None;
                   set_role_id := Some 20%N |} in
  let st' := snd (create_ace (Sample.ace 31 "" 0 0 true true) values st) in
  check_user_has_privilege 2 "/p1" "Node.Start" st = (Returned false, st) /\
  check_user_has_privilege 2 "/p1" "Node.Start" st' = (Returned true, st').
Proof.
  intros st values st'. split; [reflexivity|].
  apply (create_ace_then_check st (Sample.ace 31 "" 0 0 true true) values
                               2%N 20%N "/p1" "Node.Start" true);
    try reflexivity.
  - intros a [<-|[]]. discriminate.
  - exists Sample.bob. split; [right; now left | reflexivity].
  - exists Sample.operators. split; [now left | reflexivity].
  - exists Sample.node_start. split; [now left|]. split; [reflexivity|].
    now left.
  - intros row [].
  - discriminate.
Defined.

(* ================================================================== *)
(** ** Membership changes and the resolver *)

Section Revocation.

Lemma filter_unique_id (l : list Privilege.t) (x : Privilege.t) :
  NoDup (map Privilege.privilege_id l) ->
  In x l ->
  filter (fun p => N.eqb (Privilege.privilege_id p) (Privilege.privilege_id x)) l
  = [x].
Proof.
  induction l as [|y l IH]; intros Hnd Hin; [destruct Hin|].
  inversion Hnd as [|a b Hy Hnd']; subst. cbn [filter].
  destruct Hin as [->|Hin].
  - rewrite N.eqb_refl. f_equal.
    apply filter_nil_iff. intros z Hz. apply N.eqb_neq. intros E.
    apply Hy. rewrite <- E. now apply in_map.
  - destruct (N.eqb_spec (Privilege.privilege_id y) (Privilege.privilege_id x))
      as [E|_]; [|now apply IH].
    exfalso. apply Hy. rewrite E. now apply in_map.
Qed.

Lemma load_privileges_app (d : Database) (r : Role.t) (ps : list Privilege.t)
      (rps1 rps2 : list (UUID * UUID)) :
  load_privileges (set_membership d ps (rps1 ++ rps2)) r
  = load_privileges (set_membership d ps rps1) r
    ++ load_privileges (set_membership d ps rps2) r.
Proof.
  unfold load_privileges. cbn [role_privileges privileges set_membership].
  apply flat_map_app.
Qed.

(** The removal of a privilege that the role holds through one
    association row. *)
Lemma remove_held_once (st : State) (role_id : UUID) (x : Privilege.t)
      (r : Role.t) :
  hd_error (filter (fun r => N.eqb (Role.role_id r) role_id)
                   (roles (session st))) = Some r ->
  existsb (fun q => same_privilege q x) (load_privileges (session st) r)
  = true ->
  NoDup (map Privilege.privilege_id (load_privileges (session st) r)) ->
  remove_privilege_from_role role_id x st
  = let d := session st in
    let d' := set_membership d (privileges d)
                (filter (fun rp : UUID * UUID =>
                           negb (N.eqb (fst rp) (Role.role_id r)
                                 && N.eqb (snd rp) (Privilege.privilege_id x)))
                        (role_privileges d)) in
    (Returned (Some (load_role d' r)),
     {| session := d'; committed := d'; clock := clock st;
        debug_log := debug_log st; row_order := row_order st |}).
Proof.
  intros Hr Hmem Hnd.
  rewrite (remove_privilege_from_role_run _ _ _ _ Hr). cbv zeta.
  assert (Hmem' : existsb (fun q => same_privilege q x)
                          (loaded_privileges (load_role (session st) r))
                  = true)
    by (cbn [loaded_privileges load_role]; now rewrite existsb_unique).
  destruct (list_remove_member _ _ Hmem') as (l' & ->).
  rewrite (association_rows_once _ _ _ Hmem Hnd). cbn [Nat.eqb].
  rewrite reloaded_load_role; [reflexivity|].
  cbn [roles set_membership].
  rewrite (found_role_id _ _ _ Hr). exact Hr.
Qed.

End Revocation.

(** X9.  Revoking a privilege from a role takes it away from the users of
    the role.  Let a role have a privilege (once), let the privilege be
    the only one of its name, and let every ACE of a user refer to that
    role.  After [remove_privilege_from_role], the check of that user for
    that privilege returns [False] on every path that [urlparse]
    accepts. *)
Theorem remove_privilege_revokes (st : State) (role_id user_id : UUID)
        (privilege : Privilege.t) (r : Role.t) (path : string)
        (levels : list string) :
  hd_error (filter (fun r => N.eqb (Role.role_id r) role_id)
                   (roles (session st))) = Some r ->
  existsb (fun q => same_privilege q privilege)
          (load_privileges (session st) r) = true ->
  NoDup (map Privilege.privilege_id (load_privileges (session st) r)) ->
  (forall q, In q (privileges (session st)) ->
             Privilege.name q = Privilege.name privilege ->
             Privilege.privilege_id q = Privilege.privilege_id privilege) ->
  (forall a, In a (aces (session st)) ->
             ACE.user_id a = Some user_id -> ACE.role_id a = role_id) ->
  path_levels path = Returned levels ->
  let st' := snd (remove_privilege_from_role role_id privilege st) in
  check_user_has_privilege user_id path (Privilege.name privilege) st'
  = (Returned false, st').
Proof.
  intros Hr Hmem Hnd Hname Haces Hlv st'.
  assert (Hsess : session st'
                  = set_membership (session st) (privileges (session st))
                      (filter (fun rp : UUID * UUID =>
                                 negb (N.eqb (fst rp) (Role.role_id r)
                                       && N.eqb (snd rp)
                                            (Privilege.privilege_id privilege)))
                              (role_privileges (session st)))).
  { unfold st'. now rewrite (remove_held_once _ _ _ _ Hr Hmem Hnd). }
  rewrite check_user_has_privilege_resolve.
  rewrite (resolve_levels _ _ _ Hlv).
  rewrite first_decisive_no_match; [reflexivity|].
  intros row Hrow _.
  apply (Permutation_in _ (candidate_rows_perm _ _ _)) in Hrow.
  apply joined_rows_In in Hrow.
  destruct Hrow as (p & r' & a & u & Hp & En & Hrp & Hr' & Ha & Era & Hu & Eua
                    & Eu & _).
  rewrite Hsess in *.
  cbn [privileges roles users aces role_privileges set_membership] in *.
  apply filter_In in Hrp. destruct Hrp as [_ Hrp]. cbn [fst snd] in Hrp.
  rewrite (Hname p Hp En), N.eqb_refl, andb_true_r in Hrp.
  apply negb_true_iff, N.eqb_neq in Hrp. apply Hrp.
  rewrite <- Era, (found_role_id _ _ _ Hr). now apply Haces.
Qed.

(** Witness: alice holds "Node.Start" at ["/p1"] through the role
    "Operators"; the privilege is removed from the role. *)
Lemma remove_privilege_revokes_witness :
  let st := Sample.state [Sample.ace 30 "/p1" 1 20 true true] in
  let st' := snd (remove_privilege_from_role 20 Sample.node_start st) in
  check_user_has_privilege 1 "/p1/nodeA" "Node.Start" st = (Returned true, st) /\
  check_user_has_privilege 1 "/p1/nodeA" "Node.Start" st'
  = (Returned false, st').
Proof.
  intros st st'. split; [reflexivity|].
  apply (remove_privilege_revokes st 20%N 1%N Sample.node_start
                                  Sample.operators "/p1/nodeA"
                                  ["/p1/nodeA"; "/p1"; "/"]).
  - reflexivity.
  - reflexivity.
  - vm_compute. constructor; [intros [] | constructor].
  - intros q [<-|[<-|[]]] H; [reflexivity | discriminate H].
  - intros a [<-|[]] _. reflexivity.
  - reflexivity.
Defined.

(** X10.  Adding a stored privilege that a role does not have and removing
    it again gives back the relations as they were: the second call
    returns the role with the privileges it had at the start.  The keys
    of the stored privileges are distinct and the role holds each of its
    privileges once. *)
Theorem add_then_remove_privilege (st : State) (role_id : UUID)
        (privilege : Privilege.t) (r : Role.t) :
  hd_error (filter (fun r => N.eqb (Role.role_id r) role_id)
                   (roles (session st))) = Some r ->
  In privilege (privileges (session st)) ->
  NoDup (map Privilege.privilege_id (privileges (session st))) ->
  NoDup (map Privilege.privilege_id (load_privileges (session st) r)) ->
  existsb (same_privilege privilege) (load_privileges (session st) r) = false ->
  let st1 := snd (add_privilege_to_role role_id privilege st) in
  let st2 := snd (remove_privilege_from_role role_id privilege st1) in
  session st2 = session st /\
  fst (remove_privilege_from_role role_id privilege st1)
  = Returned (Some (load_role (session st) r)).
Proof.
  intros Hr Hin Hndp Hndl Hnew st1 st2.
  pose proof (found_role_id _ _ _ Hr) as Hid.
  set (d := session st) in *.
  set (pid := Privilege.privilege_id privilege) in *.
  assert (Hstored : existsb (same_privilege privilege) (privileges d) = true)
    by now apply existsb_same_self.
  assert (Hs1 : session st1
                = set_membership d (privileges d)
                                 (role_privileges d ++ [(Role.role_id r, pid)])).
  { unfold st1. rewrite (add_privilege_to_role_run _ _ _ _ Hr). cbv zeta.
    fold d. now rewrite Hstored. }
  assert (Hload1 : load_privileges (session st1) r
                   = load_privileges d r ++ [privilege]).
  { rewrite Hs1, load_privileges_app, set_membership_same.
    apply (f_equal (app (load_privileges d r))).
    unfold load_privileges.
    cbn [role_privileges privileges set_membership flat_map fst snd].
    rewrite N.eqb_refl, app_nil_r.
    now apply filter_unique_id. }
  assert (Habsent : ~ In pid (map Privilege.privilege_id (load_privileges d r))).
  { intros Hin'. apply in_map_iff in Hin'. destruct Hin' as (q & Eq & Hq).
    assert (Ht : existsb (same_privilege privilege) (load_privileges d r) = true).
    { apply existsb_exists. exists q. split; [exact Hq|].
      apply same_privilege_eq. now symmetry. }
    congruence. }
  assert (Hr1 : hd_error (filter (fun r => N.eqb (Role.role_id r) role_id)
                                 (roles (session st1))) = Some r)
    by (rewrite Hs1; exact Hr).
  assert (Hmem1 : existsb (fun q => same_privilege q privilege)
                          (load_privileges (session st1) r) = true).
  { rewrite Hload1, existsb_app. cbn [existsb].
    now rewrite same_privilege_refl, orb_true_r. }
  assert (Hnd1 : NoDup (map Privilege.privilege_id
                            (load_privileges (session st1) r))).
  { rewrite Hload1, map_app. cbn [map].
    apply NoDup_app_remove_l with (l := []). cbn [app].
    apply Permutation_NoDup with (l := pid :: map Privilege.privilege_id
                                                  (load_privileges d r)).
    - apply Permutation_cons_append.
    - now constructor. }
  assert (Hkeep : filter (fun rp : UUID * UUID =>
                            negb (N.eqb (fst rp) (Role.role_id r)
                                  && N.eqb (snd rp) pid))
                         (role_privileges d ++ [(Role.role_id r, pid)])
                  = role_privileges d).
  { rewrite filter_app. cbn [filter fst snd].
    rewrite !N.eqb_refl. cbn [andb negb]. rewrite app_nil_r.
    rewrite <- (filter_true (role_privileges d)) at 2.
    apply filter_ext_in. intros [a b] Hrp. cbn [fst snd].
    apply negb_true_iff, not_true_is_false. intros E.
    apply andb_prop in E. destruct E as [E1 E2].
    apply N.eqb_eq in E1, E2. subst a b.
    apply Habsent. apply in_map. now apply load_privileges_intro. }
  assert (Hs2 : session st2 = d /\
                fst (remove_privilege_from_role role_id privilege st1)
                = Returned (Some (load_role d r))).
  { unfold st2. rewrite (remove_held_once _ _ _ _ Hr1 Hmem1 Hnd1). cbv zeta.
    cbn [fst snd session].
    rewrite Hs1. cbn [privileges role_privileges set_membership].
    fold pid. rewrite Hkeep.
    assert (Hd : set_membership
                   (set_membership d (privileges d)
                      (role_privileges d ++ [(Role.role_id r, pid)]))
                   (privileges d) (role_privileges d) = d)
      by now destruct d.
    rewrite Hd. split; reflexivity. }
  exact Hs2.
Qed.

(** Witness: "Project.Audit" is given to the role "Operators" and taken
    back. *)
Lemma add_then_remove_privilege_witness :
  let st := Sample.state [Sample.ace 30 "/p1" 1 20 true true] in
  let st1 := snd (add_privilege_to_role 20 Sample.project_audit st) in
  let st2 := snd (remove_privilege_from_role 20 Sample.project_audit st1) in
  role_privileges (session st1) = [(20, 10); (21, 11); (20, 11)]%N /\
  session st2 = session st.
Proof.
  intros st st1 st2. split; [reflexivity|].
  apply (add_then_remove_privilege st 20%N Sample.project_audit Sample.operators).
  - reflexivity.
  - right. now left.
  - vm_compute. constructor; [intros [H|[]]; discriminate H|].
    constructor; [intros [] | constructor].
  - vm_compute. constructor; [intros [] | constructor].
  - reflexivity.
Defined.

(** The steps of [update_ace]. *)
Lemma update_ace_run (st : State) (ace_id : UUID) (ace_update : ACEValues) :
  let matches := fun a : ACE.t => N.eqb (ACE.ace_id a) ace_id in
  let g := with_values ace_update (clock st) in
  update_ace ace_id ace_update st
  = if existsb (fun a => matches a && negb (admissible (session st) (g a)))
               (aces (session st))
    then (Raised IntegrityError, st)
    else
      let d' := set_aces (session st)
                  (map (fun a => if matches a then g a else a)
                       (aces (session st))) in
      let st' := {| session := d'; committed := d'; clock := clock st;
                    debug_log := debug_log st; row_order := row_order st |} in
      match hd_error (filter matches (aces d')) with
      | Some a =>
          (Returned
             (Some (or_else
                      (hd_error (filter (fun b => N.eqb (ACE.ace_id b)
                                                        (ACE.ace_id a))
                                        (aces d')))
                      a)),
           st')
      | None => (Returned None, st')
      end.
Proof.
  intros matches g.
  unfold update_ace, execute_update_aces, get_ace, refresh_ace, commit, raise,
    current_timestamp, bind, get_session, put_session, ret.
  cbn [session committed clock debug_log row_order].
  fold g.
  change (fun a : ACE.t => (ACE.ace_id a =? ace_id)%N) with matches.
  destruct (existsb _ (aces (session st))); [reflexivity|].
  cbn [session committed clock debug_log row_order aces set_aces].
  destruct (hd_error (filter matches _)); reflexivity.
Qed.

(** X11.  [update_ace] is a partial update.  For an id that no ACE has it
    returns [None] and changes no row.  For a stored ACE that stays
    admissible under the payload (one subject of the kind its type names,
    stored role and subject) it returns the refreshed ACE: the columns
    the payload sets have the payload's values, the columns it leaves
    unset, the key and [created_at] are as before, and [updated_at] is
    the timestamp of the update; the ACEs with other ids and the other
    relations are unchanged, and the change is committed.  For a stored
    ACE that the payload would make inadmissible the call ends with
    [IntegrityError] and the state is as it was. *)
Theorem update_ace_partial (st : State) (ace_id : UUID)
        (ace_update : ACEValues) :
  let matches := fun a : ACE.t => N.eqb (ACE.ace_id a) ace_id in
  let refused := fun a : ACE.t =>
    negb (admissible (session st) (with_values ace_update (clock st) a)) in
  (filter matches (aces (session st)) = [] ->
   exists st' : State,
     update_ace ace_id ace_update st = (Returned None, st') /\
     session st' = session st /\ committed st' = session st) /\
  (forall a : ACE.t,
      hd_error (filter matches (aces (session st))) = Some a ->
      (forall a', In a' (aces (session st)) -> ACE.ace_id a' = ace_id ->
                  refused a' = false) ->
      exists (ace_db : ACE.t) (st' : State),
        update_ace ace_id ace_update st = (Returned (Some ace_db), st') /\
        ACE.ace_id ace_db = ace_id /\
        ACE.created_at ace_db = ACE.created_at a /\
        ACE.updated_at ace_db = clock st /\
        ACE.path ace_db = or_else (set_path ace_update) (ACE.path a) /\
        ACE.allowed ace_db = or_else (set_allowed ace_update) (ACE.allowed a) /\
        ACE.propagate ace_db
        = or_else (set_propagate ace_update) (ACE.propagate a) /\
        ACE.role_id ace_db = or_else (set_role_id ace_update) (ACE.role_id a) /\
        ACE.user_id ace_db = or_else (set_user_id ace_update) (ACE.user_id a) /\
        ACE.group_id ace_db
        = or_else (set_group_id ace_update) (ACE.group_id a) /\
        ACE.ace_type ace_db
        = or_else (set_ace_type ace_update) (ACE.ace_type a) /\
        admissible (session st) ace_db = true /\
        (forall a' : ACE.t,
            ACE.ace_id a' <> ace_id ->
            (In a' (aces (session st')) <-> In a' (aces (session st)))) /\
        users (session st') = users (session st) /\
        user_groups (session st') = user_groups (session st) /\
        roles (session st') = roles (session st) /\
        privileges (session st') = privileges (session st) /\
        role_privileges (session st') = role_privileges (session st) /\
        committed st' = session st') /\
  (forall a' : ACE.t,
      In a' (aces (session st)) -> ACE.ace_id a' = ace_id ->
      refused a' = true ->
      update_ace ace_id ace_update st = (Raised IntegrityError, st)).
Proof.
  intros matches refused.
  rewrite update_ace_run. cbv zeta. cbn [aces set_aces].
  set (g := with_values ace_update (clock st)).
  change (fun a : ACE.t => (ACE.ace_id a =? ace_id)%N) with matches.
  change (fun a : ACE.t =>
            (ACE.ace_id a =? ace_id)%N && negb (admissible (session st) (g a)))
    with (fun a : ACE.t => matches a && refused a).
  change (fun a : ACE.t => if (ACE.ace_id a =? ace_id)%N then g a else a)
    with (fun a : ACE.t => if matches a then g a else a).
  assert (Hg : forall x, matches (g x) = matches x) by reflexivity.
  assert (Hpass : (forall a', In a' (aces (session st)) ->
                              ACE.ace_id a' = ace_id -> refused a' = false) ->
                  existsb (fun a => matches a && refused a) (aces (session st))
                  = false).
  { intros H. apply not_true_is_false. intros E.
    apply existsb_exists in E. destruct E as (a' & Hin & E).
    apply andb_prop in E. destruct E as [E1 E2]. apply N.eqb_eq in E1.
    rewrite (H a' Hin E1) in E2. discriminate E2. }
  split; [|split].
  - intros Hnil. rewrite Hpass.
    + rewrite (map_if_filter_nil matches g _ Hnil), Hnil.
      cbn [hd_error]. eexists. split; [reflexivity|].
      cbn [session committed]. split; now destruct (session st).
    + intros a' Hin E. exfalso.
      assert (Hm : In a' (filter matches (aces (session st))))
        by (apply filter_In; split; [exact Hin | now apply N.eqb_eq]).
      rewrite Hnil in Hm. destruct Hm.
  - intros a Ha Hok. rewrite (Hpass Hok).
    rewrite (filter_map_if matches g _ Hg).
    destruct (filter matches (aces (session st))) as [|a0 l] eqn:E;
      [discriminate Ha|].
    injection Ha as ->.
    assert (Hin : In a (aces (session st)) /\ matches a = true).
    { apply filter_In. rewrite E. now left. }
    destruct Hin as [Hin Hm].
    assert (Hid : ACE.ace_id a = ace_id) by now apply N.eqb_eq.
    cbn [map hd_error].
    change (ACE.ace_id (g a)) with (ACE.ace_id a). rewrite Hid.
    change (fun b : ACE.t => (ACE.ace_id b =? ace_id)%N) with matches.
    rewrite (filter_map_if matches g _ Hg), E.
    cbn [map hd_error or_else].
    eexists. eexists. split; [reflexivity|].
    cbn [session committed aces set_aces users user_groups roles privileges
         role_privileges].
    repeat (split; [first [reflexivity | exact Hid]|]).
    split.
    { specialize (Hok a Hin Hid). unfold refused in Hok.
      now apply negb_false_iff in Hok. }
    split; [|repeat split; reflexivity].
    intros a' Ha'. rewrite in_map_iff. split.
    + intros (x & Hx & Hinx).
      destruct (matches x) eqn:Ex.
      * exfalso. apply Ha'. rewrite <- Hx.
        change (ACE.ace_id (g x)) with (ACE.ace_id x). now apply N.eqb_eq.
      * now subst x.
    + intros Hin'. exists a'. split; [|exact Hin'].
      replace (matches a') with false; [reflexivity|].
      symmetry. now apply N.eqb_neq.
  - intros a' Hin Hid Hbad.
    replace (existsb _ (aces (session st))) with true; [reflexivity|].
    symmetry. apply existsb_exists. exists a'. split; [exact Hin|].
    rewrite Hbad, andb_true_r. now apply N.eqb_eq.
Qed.

(** Witness: only the [allowed] flag of entry 30 is updated; the entry
    cannot lose its user. *)
Lemma update_ace_partial_witness :
  (exists (ace_db : ACE.t) (st' : State),
      update_ace 30
                 {| set_ace_type := None; set_path := None; set_propagate := None;
                    set_allowed := Some false; set_user_id := None;
                    set_group_id := None; set_role_id := None |}
                 (Sample.state [Sample.ace 30 "/p1" 1 20 true true])
      = (Returned (Some ace_db), st') /\
      ACE.path ace_db = "/p1" /\ ACE.allowed ace_db = false /\
      ACE.propagate ace_db = true /\ ACE.updated_at ace_db = 200%N) /\
  update_ace 30
             {| set_ace_type := None; set_path := None; set_propagate := None;
                set_allowed := None; set_user_id := Some None;
                set_group_id := None; set_role_id := None |}
             (Sample.state [Sample.ace 30 "/p1" 1 20 true true])
  = (Raised IntegrityError, Sample.state [Sample.ace 30 "/p1" 1 20 true true]).
Proof.
  split.
  - destruct (proj1 (proj2 (update_ace_partial
                              (Sample.state [Sample.ace 30 "/p1" 1 20 true true])
                              30%N
                              {| set_ace_type := None; set_path := None;
                                 set_propagate := None;
                                 set_allowed := Some false;
                                 set_user_id := None; set_group_id := None;
                                 set_role_id := None |}))
                    (Sample.ace 30 "/p1" 1 20 true true) eq_refl)
      as (ace_db & st' & Hrun & _ & _ & Hupd & Hpath & Hal & Hprop & _).
    + intros a' [<-|[]] _. reflexivity.
    + exists ace_db, st'. repeat split; assumption.
  - apply (proj2 (proj2 (update_ace_partial
                           (Sample.state [Sample.ace 30 "/p1" 1 20 true true])
                           30%N
                           {| set_ace_type := None; set_path := None;
                              set_propagate := None; set_allowed := None;
                              set_user_id := Some None; set_group_id := None;
                              set_role_id := None |}))
                 (Sample.ace 30 "/p1" 1 20 true true)).
    + now left.
    + reflexivity.
    + reflexivity.
Defined.

(* ================================================================== *)
(** ** Purging a subtree *)

Section Purge.

Lemma flat_map_filter {A B : Type} (f : A -> bool) (g : A -> list B)
      (l : list A) :
  flat_map g (filter f l) = flat_map (fun x => if f x then g x else []) l.
Proof.
  induction l as [|x l IH]; [reflexivity|].
  cbn [filter flat_map]. destruct (f x); cbn [flat_map app]; now rewrite IH.
Qed.

Lemma filter_flat_map {A B : Type} (q : B -> bool) (g : A -> list B)
      (l : list A) :
  filter q (flat_map g l) = flat_map (fun x => filter q (g x)) l.
Proof.
  induction l as [|x l IH]; [reflexivity|].
  cbn [flat_map]. now rewrite filter_app, IH.
Qed.

Lemma filter_uniform {B : Type} (q : B -> bool) (b : bool) (l : list B) :
  (forall x, In x l -> q x = b) ->
  filter q l = if b then l else [].
Proof.
  intros H. destruct b.
  - rewrite <- (filter_true l) at 2. apply filter_ext_in. exact H.
  - now apply filter_nil_iff.
Qed.

(** The query after a purge: the rows of the query before it, without
    those whose path matches the pattern of the prefix. *)
Lemma joined_rows_purged (d : Database) (prefix : string) (user_id : UUID)
      (privilege_name : string) :
  joined_rows (set_aces d (filter (fun a => negb (startswith prefix a)) (aces d)))
              user_id privilege_name
  = filter (fun row => negb (like (prefix ++ "%") (row_path row)))
           (joined_rows d user_id privilege_name).
Proof.
  unfold joined_rows.
  cbn [privileges role_privileges roles users aces set_aces].
  rewrite filter_flat_map. apply flat_map_ext. intros p.
  destruct (String.eqb (Privilege.name p) privilege_name); [|reflexivity].
  rewrite filter_flat_map. apply flat_map_ext. intros rp.
  destruct (N.eqb (snd rp) (Privilege.privilege_id p)); [|reflexivity].
  rewrite filter_flat_map. apply flat_map_ext. intros r.
  destruct (N.eqb (Role.role_id r) (fst rp)); [|reflexivity].
  rewrite filter_flat_map, flat_map_filter. apply flat_map_ext. intros a.
  symmetry. rewrite (filter_uniform _ (negb (startswith prefix a))).
  - destruct (negb (startswith prefix a)); [reflexivity|].
    now destruct (N.eqb (ACE.role_id a) (Role.role_id r)).
  - intros row Hrow.
    destruct (N.eqb (ACE.role_id a) (Role.role_id r)); [|destruct Hrow].
    apply in_flat_map in Hrow. destruct Hrow as (u & _ & Hrow).
    destruct (ACE.user_id a); [|destruct Hrow].
    destruct (N.eqb (User.user_id u) u0 && N.eqb (User.user_id u) user_id);
      [|destruct Hrow].
    destruct Hrow as [<-|[]]. reflexivity.
Qed.

End Purge.




(** A new role conflicts with the stored roles exactly when one of them
    has its key or its name. *)
Lemma role_conflicts_iff (rs : list Role.t) (generated : Role.t)
      (role_create : RoleCreate) :
  role_conflicts rs (new_role generated role_create) = true <->
  exists r, In r rs /\
            (Role.role_id r = Role.role_id generated
             \/ Role.name r = Some (create_name role_create)).
Proof.
  unfold role_conflicts. cbn [new_role Role.role_id Role.name].
  rewrite existsb_exists. split.
  - intros (r & Hr & E). exists r. split; [exact Hr|].
    apply orb_prop in E. destruct E as [E|E].
    + left. now apply N.eqb_eq.
    + right. unfold role_named in E.
      destruct (Role.name r) as [n|]; [|discriminate E].
      apply String.eqb_eq in E. now subst n.
  - intros (r & Hr & [E|E]); exists r; (split; [exact Hr|]).
    + rewrite E, N.eqb_refl. reflexivity.
    + unfold role_named. rewrite E, String.eqb_refl. apply orb_true_r.
Qed.

(** X14.  [create_role] stores the role built from the payload when no
    stored role has its key or its name: it appends the role, with the
    name and the description of the payload, commits and returns it; the
    role has no privilege as long as no association row carries its key,
    and [get_role_by_name] finds it under its name.  When a stored role
    has the name (or the key), the call ends with [IntegrityError] and
    nothing is stored. *)
Theorem create_role_then_lookup (st : State) (generated : Role.t)
        (role_create : RoleCreate) :
  let db_role := new_role generated role_create in
  let conflict := role_conflicts (roles (session st)) db_role in
  (conflict = false ->
   exists (role_db : RoleObject) (st' : State),
     create_role generated role_create st = (Returned (Some role_db), st') /\
     columns role_db = db_role /\
     Role.name (columns role_db) = Some (create_name role_create) /\
     Role.description (columns role_db) = create_description role_create /\
     roles (session st') = roles (session st) ++ [db_role] /\
     users (session st') = users (session st) /\
     user_groups (session st') = user_groups (session st) /\
     privileges (session st') = privileges (session st) /\
     role_privileges (session st') = role_privileges (session st) /\
     aces (session st') = aces (session st) /\
     committed st' = session st' /\
     ((forall rp, In rp (role_privileges (session st)) ->
                  fst rp <> Role.role_id generated) ->
      loaded_privileges role_db = []) /\
     get_role_by_name (create_name role_create) st'
     = (Returned (Some role_db), st')) /\
  (conflict = true ->
   exists st' : State,
     create_role generated role_create st = (Raised IntegrityError, st') /\
     session st' = committed st /\
     committed st' = committed st) /\
  (conflict = true <->
   exists r, In r (roles (session st)) /\
             (Role.role_id r = Role.role_id generated
              \/ Role.name r = Some (create_name role_create))).
Proof.
  intros db_role conflict.
  unfold create_role, flush_new_role, flush_fails, get_role_by_name, get_role,
    select_first_role, commit, rollback, raise, bind, get_session, put_session,
    ret.
  fold db_role. fold conflict.
  split; [|split].
  - intros Hfree. rewrite Hfree.
    cbn [session committed clock debug_log row_order roles set_roles].
    assert (Hall : forall r, In r (roles (session st)) ->
                     N.eqb (Role.role_id r) (Role.role_id db_role) = false
                     /\ role_named (create_name role_create) r = false).
    { intros r Hr.
      pose proof (existsb_false_all _ _ Hfree r Hr) as E.
      cbn [db_role new_role Role.role_id Role.name] in E.
      apply orb_false_elim in E. exact E. }
    assert (Hf : filter (fun r => N.eqb (Role.role_id r) (Role.role_id db_role))
                        (roles (session st) ++ [db_role]) = [db_role]).
    { rewrite filter_app.
      replace (filter _ (roles (session st))) with (@nil Role.t).
      - cbn [filter app]. now rewrite N.eqb_refl.
      - symmetry. apply filter_nil_iff. intros r Hr. apply (Hall r Hr). }
    rewrite Hf. cbn [hd_error option_map].
    eexists. eexists. split; [reflexivity|].
    cbn [columns load_role session committed users user_groups roles
         privileges role_privileges aces set_roles loaded_privileges].
    repeat (split; [reflexivity|]). split.
    + intros Hnone. unfold load_privileges. cbn [role_privileges set_roles].
      replace (flat_map _ (role_privileges (session st)))
        with (@nil Privilege.t); [reflexivity|].
      symmetry. apply flat_map_nil. intros rp Hrp.
      destruct (N.eqb_spec (fst rp) (Role.role_id db_role)) as [E|_];
        [|reflexivity].
      exfalso. now apply (Hnone rp Hrp).
    + rewrite filter_app.
      replace (filter _ (roles (session st))) with (@nil Role.t).
      * cbn [filter app]. unfold role_named at 1.
        cbn [db_role new_role Role.name].
        now rewrite String.eqb_refl.
      * symmetry. apply filter_nil_iff. intros r Hr. apply (Hall r Hr).
  - intros Htaken. rewrite Htaken.
    eexists. split; [reflexivity|]. split; reflexivity.
  - apply role_conflicts_iff.
Qed.

(** Witness: a role "Guests" is created under the key 22; a second role
    "Operators" is refused. *)
Lemma create_role_then_lookup_witness :
  let generated := {| Role.role_id := 22; Role.name := None;
                      Role.description := None; Role.is_builtin := false;
                      Role.created_at := 200; Role.updated_at := 200 |} in
  (exists (role_db : RoleObject) (st' : State),
      create_role generated
                  {| create_name := "Guests"; create_description := None |}
                  (Sample.state [])
      = (Returned (Some role_db), st') /\
      loaded_privileges role_db = [] /\
      get_role_by_name "Guests" st' = (Returned (Some role_db), st')) /\
  (exists st' : State,
      create_role generated
                  {| create_name := "Operators"; create_description := None |}
                  (Sample.state [])
      = (Raised IntegrityError, st') /\
      session st' = session (Sample.state [])).
Proof.
  intros generated. split.
  - destruct (proj1 (create_role_then_lookup
                       (Sample.state []) generated
                       {| create_name := "Guests";
                          create_description := None |}))
      as (role_db & st' & Hrun & _ & _ & _ & _ & _ & _ & _ & _ & _ & _
          & Hnone & Hname).
    + reflexivity.
    + exists role_db, st'. split; [exact Hrun|]. split; [|exact Hname].
      apply Hnone. intros rp [<-|[<-|[]]]; discriminate.
  - destruct (proj1 (proj2 (create_role_then_lookup
                              (Sample.state []) generated
                              {| create_name := "Operators";
                                 create_description := None |})))
      as (st' & Hrun & Hsess & _).
    + reflexivity.
    + exists st'. split; [exact Hrun | exact Hsess].
Defined.

(* ================================================================== *)
(** ** Files of a project: what the guard lets through *)

Section FileGuard.

Lemma repeat_snoc {A : Type} (x : A) (k : nat) :
  repeat x k ++ [x] = repeat x (S k).
Proof.
  induction k as [|k IH]; [reflexivity|].
  cbn [repeat app]. now rewrite IH.
Qed.

Lemma last_plain (body : list string) :
  body <> [] -> Forall plain_component body ->
  String.eqb (last body EmptyString) ".." = false.
Proof.
  intros Hne Hall. apply String.eqb_neq.
  destruct (exists_last Hne) as (l & x & ->).
  rewrite last_last. apply Forall_app in Hall. destruct Hall as [_ Hx].
  inversion Hx as [|a b Ha _]; subst. now destruct Ha as (_ & _ & Ha & _).
Qed.

Lemma normalize_keeps (initial : nat) (comps new_comps : list string) :
  (forall c, In c comps -> str_contains "/" c = false) ->
  climbs_then_descends initial new_comps ->
  climbs_then_descends initial (normalize initial comps new_comps).
Proof.
  revert new_comps.
  induction comps as [|comp comps IH]; intros new_comps Hns Hinv;
    [exact Hinv|].
  assert (Hns' : forall c, In c comps -> str_contains "/" c = false)
    by (intros c Hc; apply Hns; now right).
  cbn [normalize].
  destruct (String.eqb_spec comp "") as [E1|N1]; [now apply IH|].
  destruct (String.eqb_spec comp ".") as [E2|N2]; [now apply IH|].
  cbn [orb].
  destruct Hinv as (k & body & -> & Hbody & Hk).
  destruct (String.eqb_spec comp "..") as [->|N3]; cbn [negb orb].
  - destruct body as [|b body].
    + rewrite app_nil_r.
      destruct k as [|k].
      * cbn [repeat is_nil negb andb orb].
        destruct (Nat.eqb_spec initial 0) as [E0|N0]; cbn [andb orb].
        -- apply IH; [exact Hns'|]. exists 1, []. repeat split.
           ++ constructor.
           ++ lia.
        -- apply IH; [exact Hns'|]. exists 0, []. repeat split.
           constructor.
      * assert (Hlast : last (repeat ".." (S k)) EmptyString = "..").
        { rewrite <- repeat_snoc. apply last_last. }
        rewrite Hlast. cbn [repeat is_nil negb andb orb String.eqb].
        rewrite andb_false_r. cbn [orb].
        change (Ascii.eqb "." "." && (Ascii.eqb "." "." && true)) with true.
        cbn [andb orb].
        apply IH; [exact Hns'|]. exists (S (S k)), []. repeat split.
        -- rewrite app_nil_r.
           change (".." :: repeat ".." k) with (repeat ".." (S k)).
           apply repeat_snoc.
        -- constructor.
        -- intros Hi. specialize (Hk Hi). discriminate Hk.
    + assert (Hne : repeat ".." k ++ b :: body <> [])
        by (destruct k; discriminate).
      assert (Hnil : is_nil (repeat ".." k ++ b :: body) = false)
        by (destruct k; reflexivity).
      assert (Hlast : last (repeat ".." k ++ b :: body) EmptyString
                      = last (b :: body) EmptyString).
      { clear. induction k as [|k IHk]; [reflexivity|].
        cbn [repeat app]. rewrite <- IHk.
        destruct (repeat ".." k ++ b :: body) eqn:E; [|reflexivity].
        destruct k; discriminate E. }
      rewrite Hnil, Hlast, last_plain by (assumption || discriminate).
      rewrite andb_false_r. cbn [negb andb orb].
      apply IH; [exact Hns'|]. exists k, (removelast (b :: body)).
      repeat split.
      * rewrite removelast_app by discriminate. reflexivity.
      * destruct (exists_last (l := b :: body) ltac:(discriminate))
          as (l & x & E).
        rewrite E in *. rewrite removelast_last.
        apply Forall_app in Hbody. now destruct Hbody.
      * exact Hk.
  - apply IH; [exact Hns'|]. exists k, (body ++ [comp]). repeat split.
    + now rewrite app_assoc.
    + apply Forall_app. split; [exact Hbody|]. constructor; [|constructor].
      repeat split; try assumption. apply Hns. now left.
    + exact Hk.
Qed.

Lemma lstrip_slashes (n : nat) (s : string) :
  str_lstrip "/" (slashes n ++ s) = str_lstrip "/" s.
Proof. induction n as [|n IH]; [reflexivity | exact IH]. Qed.

Lemma no_slash_not_ending (x : string) :
  str_contains "/" x = false -> ends_with_slash x = false.
Proof.
  induction x as [|c x IH]; [reflexivity|].
  cbn [str_contains]. intros H. apply orb_false_elim in H.
  destruct H as [Hc Hx]. cbn [ends_with_slash].
  destruct x; [exact Hc | now apply IH].
Qed.

Lemma ends_with_slash_app (s x : string) :
  x <> "" -> ends_with_slash (s ++ x) = ends_with_slash x.
Proof.
  intros Hx. induction s as [|c s IH]; [reflexivity|].
  cbn [append ends_with_slash].
  destruct (s ++ x)%string eqn:E; [|exact IH].
  destruct s; [cbn in E; contradiction | discriminate E].
Qed.

Lemma rstrip_not_ending (s : string) :
  ends_with_slash s = false -> str_rstrip "/" s = s.
Proof.
  induction s as [|d s IH]; [reflexivity|].
  cbn [ends_with_slash str_rstrip]. destruct s as [|e s].
  - intros H. cbn [str_rstrip String.eqb]. now rewrite H.
  - intros H. rewrite (IH H). cbn [String.eqb].
    now rewrite andb_false_r.
Qed.

(** The path joined from plain components is not touched by
    [strip("/")], and splits back into those components. *)
Lemma join_plain_shape (body : list string) :
  body <> [] -> Forall plain_component body ->
  exists c rest,
    str_join "/" body = String c rest /\ Ascii.eqb c "/" = false /\
    ends_with_slash (str_join "/" body) = false.
Proof.
  intros Hne Hall.
  assert (Hhead : exists c rest, str_join "/" body = String c rest
                                 /\ Ascii.eqb c "/" = false).
  { destruct body as [|x body]; [contradiction|].
    inversion Hall as [|a b (Hx1 & _ & _ & Hx4) _]; subst.
    destruct x as [|c x]; [contradiction|].
    cbn [str_contains] in Hx4. apply orb_false_elim in Hx4.
    destruct Hx4 as [Hc _].
    destruct body as [|y body]; [now exists c, x|].
    rewrite str_join_cons2. now eexists c, _. }
  destruct Hhead as (c & rest & E & Hc). exists c, rest.
  split; [exact E|]. split; [exact Hc|].
  destruct (exists_last Hne) as (l & x & ->).
  apply Forall_app in Hall. destruct Hall as [_ Hx].
  inversion Hx as [|a b (Hx1 & _ & _ & Hx4) _]; subst.
  destruct l as [|y l].
  - now apply no_slash_not_ending.
  - rewrite str_join_snoc by discriminate.
    rewrite <- str_app_assoc, ends_with_slash_app by exact Hx1.
    now apply no_slash_not_ending.
Qed.

Lemma str_split_plain (x : string) :
  str_contains "/" x = false -> str_split "/" x = [x].
Proof.
  induction x as [|c x IH]; [reflexivity|].
  cbn [str_contains str_split]. intros H. apply orb_false_elim in H.
  destruct H as [Hc Hx]. now rewrite Hc, (IH Hx).
Qed.

Lemma str_split_app_slash (x s : string) :
  str_contains "/" x = false ->
  str_split "/" (x ++ "/" ++ s) = x :: str_split "/" s.
Proof.
  induction x as [|c x IH]; [reflexivity|].
  cbn [str_contains]. intros H. apply orb_false_elim in H.
  destruct H as [Hc Hx]. cbn [append str_split]. rewrite Hc.
  cbn [append] in IH. now rewrite (IH Hx).
Qed.

Lemma str_split_join (body : list string) :
  body <> [] -> Forall plain_component body ->
  str_split "/" (str_join "/" body) = body.
Proof.
  induction body as [|x body IH]; intros Hne Hall; [contradiction|].
  inversion Hall as [|a b (_ & _ & _ & Hx) Hall']; subst.
  destruct body as [|y body].
  - now apply str_split_plain.
  - rewrite str_join_cons2, str_split_app_slash by exact Hx.
    f_equal. apply IH; [discriminate | exact Hall'].
Qed.

(** What [strip("/")] leaves of a normalized path: the plain components
    joined, or an empty string, or a string beginning with a dot. *)
Lemma stripped_normpath (file_path : string) :
  let path := str_strip "/" (normpath file_path) in
  path = "" \/ String.prefix "." path = true \/
  exists body, body <> [] /\ Forall plain_component body /\
               path = str_join "/" body.
Proof.
  cbv zeta. unfold normpath.
  destruct (String.eqb_spec file_path "") as [_|Hne];
    [right; left; reflexivity|].
  set (initial := initial_slashes file_path).
  destruct (normalize_keeps initial (str_split "/" file_path) [])
    as (k & body & E & Hbody & Hk).
  { intros c. apply str_split_no_slash. }
  { exists 0, []. repeat split. constructor. }
  rewrite E.
  destruct (Nat.ltb_spec 0 initial) as [Hpos|Hzero].
  - rewrite (Hk Hpos). cbn [repeat app].
    assert (Hfull : String.eqb (slashes initial ++ str_join "/" body) ""
                    = false)
      by (destruct initial; [lia | reflexivity]).
    rewrite Hfull. unfold str_strip. rewrite lstrip_slashes.
    destruct body as [|x body]; [left; reflexivity|].
    right. right. exists (x :: body).
    split; [discriminate|]. split; [exact Hbody|].
    destruct (join_plain_shape (x :: body) ltac:(discriminate) Hbody)
      as (c & rest & Ej & Hc & Hend).
    rewrite Ej in *. cbn [str_lstrip]. rewrite Hc.
    now apply rstrip_not_ending.
  - destruct k as [|k].
    + cbn [repeat app]. destruct body as [|x body];
        [right; left; reflexivity|].
      destruct (join_plain_shape (x :: body) ltac:(discriminate) Hbody)
        as (c & rest & Ej & Hc & Hend).
      rewrite Ej in *. cbn [String.eqb].
      right. right. exists (x :: body).
      split; [discriminate|]. split; [exact Hbody|].
      rewrite Ej. unfold str_strip. cbn [str_lstrip]. rewrite Hc.
      now apply rstrip_not_ending.
    + right. left.
      assert (Ej : exists rest, str_join "/" (repeat ".." (S k) ++ body)
                                = String "." (String "." rest)).
      { cbn [repeat app]. destruct (repeat ".." k ++ body) as [|y l].
        - now exists EmptyString.
        - rewrite str_join_cons2. now eexists. }
      destruct Ej as (rest & ->). cbn [String.eqb].
      unfold str_strip.
      change (str_lstrip "/" (String "." (String "." rest)))
        with (String "." (String "." rest)).
      cbn [str_rstrip].
      change (Ascii.eqb "." "/") with false. reflexivity.
Qed.

End FileGuard.



Lemma normalize_to_root (initial : nat) (comps : list string) :
  0 < initial ->
  (forall c, In c comps -> c = "" \/ c = "." \/ c = "..") ->
  normalize initial comps [] = [].
Proof.
  intros Hi. induction comps as [|comp comps IH]; intros H; [reflexivity|].
  assert (IH' : normalize initial comps [] = [])
    by (apply IH; intros c Hc; apply H; now right).
  cbn [normalize].
  destruct (H comp (or_introl eq_refl)) as [-> | [-> | ->]]; try exact IH'.
  cbn [String.eqb Ascii.eqb Bool.eqb orb negb andb is_nil].
  destruct initial; [lia | exact IH'].
Qed.





Section Cascade.

Variables (role_id : UUID) (d : Database).

Lemma without_role_roles :
  roles (without_role role_id d)
  = filter (fun r => negb (N.eqb (Role.role_id r) role_id)) (roles d).
Proof.
  unfold without_role.
  destruct (existsb _ (roles d)) eqn:E; [reflexivity|].
  symmetry. rewrite <- (filter_true (roles d)) at 2.
  apply filter_ext_in. intros r Hr. apply negb_true_iff.
  apply (existsb_false_all _ _ E r Hr).
Qed.

Lemma without_role_aces_incl (a : ACE.t) :
  In a (aces (without_role role_id d)) -> In a (aces d).
Proof.
  unfold without_role.
  destruct (existsb _ (roles d)); [|trivial].
  cbn [aces]. intros H. apply filter_In in H. apply H.
Qed.

(** When the role is stored, the rows that refer to it go with it. *)
Lemma without_role_cascade :
  (exists r, In r (roles d) /\ Role.role_id r = role_id) ->
  aces (without_role role_id d)
  = filter (fun a => negb (N.eqb (ACE.role_id a) role_id)) (aces d)
  /\ role_privileges (without_role role_id d)
     = filter (fun rp : UUID * UUID => negb (N.eqb (fst rp) role_id))
              (role_privileges d)
  /\ users (without_role role_id d) = users d
  /\ user_groups (without_role role_id d) = user_groups d
  /\ privileges (without_role role_id d) = privileges d.
Proof.
  intros (r & Hr & E). unfold without_role.
  replace (existsb _ (roles d)) with true; [now repeat split|].
  symmetry. apply existsb_exists. exists r. split; [exact Hr|].
  now apply N.eqb_eq.
Qed.

End Cascade.

(** X18.  Deleting a role takes its grants away.  With a stored role the
    ACEs that refer to it and its association rows are deleted, and no
    other row is.  Whether or not the role was stored, a user whose ACEs
    all referred to that role is denied every privilege on every path
    that [urlparse] accepts. *)
Theorem delete_role_revokes (st : State) (role_id user_id : UUID)
        (path privilege_name : string) (levels : list string) :
  (forall a, In a (aces (session st)) ->
             ACE.user_id a = Some user_id -> ACE.role_id a = role_id) ->
  path_levels path = Returned levels ->
  let st' := snd (delete_role role_id st) in
  check_user_has_privilege user_id path privilege_name st'
  = (Returned false, st') /\
  ((exists r, In r (roles (session st)) /\ Role.role_id r = role_id) ->
   (forall a, In a (aces (session st')) <->
              In a (aces (session st)) /\ ACE.role_id a <> role_id) /\
   (forall rp, In rp (role_privileges (session st')) <->
               In rp (role_privileges (session st)) /\ fst rp <> role_id) /\
   users (session st') = users (session st) /\
   user_groups (session st') = user_groups (session st) /\
   privileges (session st') = privileges (session st)).
Proof.
  intros Haces Hlv st'.
  assert (Hsess : session st' = without_role role_id (session st))
    by reflexivity.
  split.
  - rewrite check_user_has_privilege_resolve.
    rewrite (resolve_levels _ _ _ Hlv).
    rewrite first_decisive_no_match; [reflexivity|].
    intros row Hrow _.
    apply (Permutation_in _ (candidate_rows_perm _ _ _)) in Hrow.
    apply joined_rows_In in Hrow.
    destruct Hrow as (p & r & a & u & _ & _ & _ & Hr & Ha & Era & _ & Eua & _).
    rewrite Hsess in Hr, Ha.
    rewrite without_role_roles in Hr.
    apply filter_In in Hr. destruct Hr as [_ Hr].
    apply negb_true_iff, N.eqb_neq in Hr. apply Hr.
    rewrite <- Era. apply Haces; [|exact Eua].
    now apply (without_role_aces_incl role_id).
  - intros Hstored. rewrite Hsess.
    destruct (without_role_cascade role_id (session st) Hstored)
      as (-> & -> & -> & -> & ->).
    split; [|split; [|repeat split]].
    + intros a. rewrite filter_In, negb_true_iff. now rewrite N.eqb_neq.
    + intros rp. rewrite filter_In, negb_true_iff. now rewrite N.eqb_neq.
Qed.

(** Witness: alice's entry goes through the role "Operators", which is
    deleted, and the entry with it. *)
Lemma delete_role_revokes_witness :
  let st := Sample.state [Sample.ace 30 "/p1" 1 20 true true;
                          Sample.ace 31 "/p1" 2 21 true true] in
  let st' := snd (delete_role 20 st) in
  check_user_has_privilege 1 "/p1/nodeA" "Node.Start" st = (Returned true, st) /\
  aces (session st') = [Sample.ace 31 "/p1" 2 21 true true] /\
  role_privileges (session st') = [(21, 11)]%N /\
  check_user_has_privilege 1 "/p1/nodeA" "Node.Start" st'
  = (Returned false, st').
Proof.
  intros st st'. split; [reflexivity|]. split; [reflexivity|].
  split; [reflexivity|].
  apply (delete_role_revokes st 20%N 1%N "/p1/nodeA" "Node.Start"
                             ["/p1/nodeA"; "/p1"; "/"]).
  - intros a [<-|[<-|[]]] H; [reflexivity | discriminate H].
  - reflexivity.
Defined.

